(** * Cart and order consistency of the mousepad store backend

    A shallow embedding of the cart routes ([routes/cart.js]), the cart
    item and order models, the order routes, the image cleanup helper and
    the order confirmation mailer, with the properties the specification
    states about them.  It is followed by the rest of the cart and order
    routes (update, clear and listing routes, the routes that read
    orders), the image upload and format helpers, the mailer, cookie and
    CORS configuration and the check of e-mail addresses, with properties
    read off that code.

    Conventions of the embedding.
    - A request body is parsed JSON.  JSON values are the type [value];
      a JavaScript object is a finite map from property names to values,
      and a property that holds [undefined] is an absent key (this is what
      JSON serialisation and the storage layer make of it).
    - A function that may throw returns a [result]: [Ok] or [Throw] with
      the message of the error.
    - A number is a double.  A finite double is the rational that it
      denotes, so a number of a request body and a stored number are
      rationals; the sum and the product of two numbers are rounded to
      the nearest double, a tie going to the even one, and are infinite
      beyond the range of doubles.  The sign of a zero is not kept, and
      an infinite number or [NaN] is neither sent nor stored.
    - The document store is a list of typed documents, as the Mongoose
      schemas declare them.  What the schemas ask of the storage layer
      (required paths, defaults, [min], [enum], the unique index on the
      cart item [id]) is written out in the [create] functions.  A payload
      field that already has the type of its path is stored as it is; what
      the storage layer does with a value of another type is a parameter
      of the model ([convertString], [convertNumber], [convertObjectId]),
      about which nothing is assumed.  The typed store has no place for
      [null] in a String or Number path: the casts refuse it, and the
      properties of stored items are stated for what the casts accept.
    - What the storage layer makes of the nested paths [specs] and
      [configuration] of a cart item (the casts of their subpaths, the
      empty arrays that the schema adds, strict mode, the validators of
      a new document) is a parameter of the model as well ([newSpecs],
      [newConfiguration], [setSpecs], [setConfiguration]).
    - The keys of a payload are read as top-level paths of the schema.
      Keys in dot notation and update operators are outside the model:
      the properties of what a request stores are stated for payloads
      whose keys are data paths of the schema ([onlyDataPaths]).
    - The order routes are those of the user-id variant, with the order
      model that stores [userId].
    - [new Date()] is an argument [now] of the operation that reads the
      clock.
    - A string is a sequence of code units below 256.  The white space
      that [trim] removes is then the code units 9 to 13, 32 and 160.
    - The value of a query filter is cast to the type of its path, as a
      payload field is; query operators inside a filter value are outside
      the model.
    - [process.env] is a finite map from names to strings. *)

From stdpp Require Import gmap strings list sorting.
From Stdlib Require Import Ascii QArith Qround Qabs Qpower.

#[local] Set Warnings "-register-all".
#[local] Open Scope string_scope.
#[local] Open Scope list_scope.

(** ** JavaScript values *)

Inductive value : Type :=
| VNull
| VBool (b : bool)
| VNum (q : Q)
| VStr (s : string)
| VArr (l : list value)
| VObj (o : gmap string value)
| VFun (name : string).

Abbreviation obj := (gmap string value).

(** Outcome of a computation that may throw [new Error(message)]. *)
Inductive result (A : Type) : Type :=
| Ok (a : A)
| Throw (message : string).
Arguments Ok {A} a.
Arguments Throw {A} message.

#[export] Instance result_ret : MRet result := fun A a => Ok a.

(** Sequencing: the first [Throw] ends the computation.  It is written
    [x ← c; k]. *)
#[export] Instance result_bind : MBind result := fun A B k c =>
  match c with
  | Ok a => k a
  | Throw m => Throw m
  end.

(** [!!v]: the truthiness of a value; [None] is [undefined]. *)
Definition truthy (v : option value) : bool :=
  match v with
  | None => false
  | Some VNull => false
  | Some (VBool b) => b
  | Some (VNum q) => negb (Qeq_bool q 0)
  | Some (VStr s) => negb (String.eqb s "")
  | Some (VArr _) => true
  | Some (VObj _) => true
  | Some (VFun _) => true
  end.

(** [s.startsWith(p)] *)
Definition startsWith (s p : string) : bool := String.prefix p s.

(** [v.k] for a value [v] that is neither [null] nor [undefined], for the
    property names the routes read (the paths of the schemas and
    [cartItemId]).  Primitives have none of them; an array inherits
    [filter] from [Array.prototype]. *)
Definition getprop (v : value) (k : string) : option value :=
  match v with
  | VObj o => o !! k
  | VArr _ => if String.eqb k "filter" then Some (VFun "Array.prototype.filter") else None
  | _ => None
  end.

(** [o.k = v]; assigning [undefined] leaves no key. *)
Definition assign (k : string) (v : option value) (o : obj) : obj :=
  match v with
  | Some x => <[k := x]> o
  | None => delete k o
  end.

(** [JSON.stringify] on a value: a function has no JSON form; inside an
    array it becomes [null], inside an object its key is dropped. *)
Fixpoint stringify (v : value) : option value :=
  match v with
  | VFun _ => None
  | VArr l => Some (VArr ((fun x => default VNull (stringify x)) <$> l))
  | VObj o => Some (VObj (omap stringify o))
  | _ => Some v
  end.

(** [clonePayload = payload => JSON.parse(JSON.stringify(payload))] on an
    object. *)
Definition clonePayload (payload : obj) : obj := omap stringify payload.

(** JSON values: what a parsed request body is made of. *)
Inductive json : value -> Prop :=
| json_null : json VNull
| json_bool b : json (VBool b)
| json_num q : json (VNum q)
| json_str s : json (VStr s)
| json_arr l : (forall i v, l !! i = Some v -> json v) -> json (VArr l)
| json_obj o : (forall k v, o !! k = Some v -> json v) -> json (VObj o).

(** ** Reject-inline sanitizer ([routes/cart.js]) *)

Definition ensureHostedImage (v : option value) (field : string) (allowMissing : bool)
  : result (option value) :=
  if negb (truthy v) then
    if allowMissing then Ok v else Throw (field +:+ " is required")
  else
    match v with
    | Some (VStr s) =>
        if startsWith s "data:"
        then Throw (field +:+ " must be uploaded before saving")
        else Ok v
    | _ => Throw (field +:+ " must be a string URL")
    end.

(** [sanitized.f = sanitized.f ? ensureHostedImage(sanitized.f, f, partial) : sanitized.f] *)
Definition checkSupplied (f : string) (partial : bool) (sanitized : obj) : result obj :=
  v ← (if truthy (sanitized !! f)
        then ensureHostedImage (sanitized !! f) f partial
        else Ok (sanitized !! f));
  Ok (assign f v sanitized).

(** [sanitized.f = ensureHostedImage(sanitized.f, f)]: [allowMissing] is
    [undefined], which is falsy. *)
Definition checkRequired (f : string) (sanitized : obj) : result obj :=
  v ← ensureHostedImage (sanitized !! f) f false;
  Ok (assign f v sanitized).

(** [sanitized.configuration?.imageSettings] *)
Definition imageSettingsOf (sanitized : obj) : option value :=
  match sanitized !! "configuration" with
  | None => None
  | Some VNull => None
  | Some c => getprop c "imageSettings"
  end.

Definition imageSettingsFields : list string :=
  ["zoom"; "position"; "adjustments"; "filter"; "crop"].

(** [const { zoom, position, adjustments, filter, crop } = s;
     ... = { zoom, position, adjustments, filter, crop }] *)
Definition pickImageSettings (s : value) : obj :=
  foldr (fun k o => assign k (getprop s k) o) ∅ imageSettingsFields.

(** [c.k = v] on the value of [sanitized.configuration]. *)
Definition setprop (c : value) (k : string) (v : value) : value :=
  match c with
  | VObj o => VObj (<[k := v]> o)
  | _ => c
  end.

(** [delete c.k] on the value of [sanitized.configuration]. *)
Definition delprop (c : value) (k : string) : value :=
  match c with
  | VObj o => VObj (delete k o)
  | _ => c
  end.

Definition reduceImageSettings (sanitized : obj) : obj :=
  if truthy (imageSettingsOf sanitized) then
    match sanitized !! "configuration", imageSettingsOf sanitized with
    | Some c, Some s =>
        <["configuration" := setprop c "imageSettings" (VObj (pickImageSettings s))]> sanitized
    | _, _ => sanitized
    end
  else sanitized.

Definition stripEmbedded (sanitized : obj) : obj :=
  if truthy (sanitized !! "configuration") then
    match sanitized !! "configuration" with
    | Some c =>
        <["configuration" := delprop (delprop c "uploadedImages") "logoFile"]> sanitized
    | None => sanitized
    end
  else sanitized.

Definition sanitizeCartPayload (payload : obj) (partial : bool) : result obj :=
  let sanitized := clonePayload payload in
  sanitized ← checkSupplied "image" partial sanitized;
  sanitized ← checkSupplied "finalImage" partial sanitized;
  sanitized ← checkSupplied "originalImageUrl" partial sanitized;
  sanitized ← (if negb partial then
                  sanitized ← checkRequired "image" sanitized;
                  sanitized ← checkRequired "finalImage" sanitized;
                  checkRequired "originalImageUrl" sanitized
                else Ok sanitized);
  Ok (stripEmbedded (reduceImageSettings sanitized)).

(** What the sanitizer leaves of a configuration that is an object: the
    image settings, when truthy, reduced to the five fields, and the two
    embedded-image keys removed. *)
Definition reducedConfiguration (c : obj) : obj :=
  delete "logoFile"
    (delete "uploadedImages"
       (match c !! "imageSettings" with
        | Some original =>
            if truthy (Some original)
            then <["imageSettings" := VObj (pickImageSettings original)]> c
            else c
        | None => c
        end)).

(** ** HTTP replies *)

(** The JSON of a reply: [{ success: true, message, data }] (the message
    is empty when the route sends none), [{ success: false, error }], or
    [{ success: false, errors }] from the validation chain. *)
Inductive reply (A : Type) : Type :=
| Success (message : string) (data : A)
| Failure (error : string)
| Invalid (errors : list string).
Arguments Success {A} message data.
Arguments Failure {A} error.
Arguments Invalid {A} errors.

Record response (A : Type) : Type := Resp { status : nat; body : reply A }.
Arguments Resp {A} status body.
Arguments status {A} r.
Arguments body {A} r.

(** ** Image cleanup against the media store (the [deleteImage] helper) *)

(** [s.includes(sub)] *)
Definition includes (s sub : string) : bool :=
  match String.index 0 sub s with
  | Some _ => true
  | None => false
  end.

(** [s.split(sep)] for a separator of one character. *)
Fixpoint split (sep : ascii) (s : string) : list string :=
  match s with
  | EmptyString => [""]
  | String c rest =>
      if Ascii.eqb c sep then "" :: split sep rest
      else match split sep rest with
           | h :: t => String c h :: t
           | [] => [String c ""]
           end
  end.

(** [parts.join(sep)] *)
Fixpoint join (sep : string) (parts : list string) : string :=
  match parts with
  | [] => ""
  | [p] => p
  | p :: rest => p +:+ sep +:+ join sep rest
  end.

(** The public id that [deleteImage] hands to the media store: the path
    after the [upload] segment, without the extension of the file.
    [Throw] is the [TypeError] of [lastPart.split] when nothing follows
    [upload]; [Ok None] is the early [return false]. *)
Definition publicIdOf (imageUrl : string) : result (option string) :=
  let urlParts := split "/"%char imageUrl in
  match list_find (fun part => part = "upload") urlParts with
  | None => Ok None
  | Some (uploadIndex, _) =>
      let pathAfterUpload := drop (S uploadIndex) urlParts in
      match last pathAfterUpload with
      | None => Throw "Cannot read properties of undefined (reading 'split')"
      | Some lastPart =>
          let publicId := default "" (head (split "."%char lastPart)) in
          let folderParts := removelast pathAfterUpload in
          Ok (Some (if bool_decide (0 < length folderParts)%nat
                    then join "/" folderParts +:+ "/" +:+ publicId
                    else publicId))
      end
  end.

Section MediaStore.

(** [cloudinary.uploader.destroy(publicId)]: the [result] field of the
    answer, or a rejection. *)
Variable destroy : string -> result string.

(** [deleteImage]: every failure is caught and turned into [false]. *)
Definition deleteImage (imageUrl : string) : bool :=
  if negb (truthy (Some (VStr imageUrl))) || negb (includes imageUrl "cloudinary.com")
  then true
  else
    let attempt : result bool :=
      fullPublicId ← publicIdOf imageUrl;
      match fullPublicId with
      | None => Ok false
      | Some pid => r ← destroy pid; Ok (String.eqb r "ok")
      end in
    match attempt with
    | Ok b => b
    | Throw _ => false
    end.

End MediaStore.

(** ** The environment *)

(** [process.env[k] || dflt]: an environment variable is a string. *)
Definition envOr (env : gmap string string) (k dflt : string) : string :=
  match env !! k with
  | Some s => if String.eqb s "" then dflt else s
  | None => dflt
  end.

(** *** The earlier [deleteImage] ([utils/imageProcessor.js]) *)

(** [`${folder}/${publicId}`] of the last two parts of the URL.  A URL
    without [/] has one part only: its folder is [undefined], which the
    template string spells out. *)
Definition legacyPublicIdOf (imageUrl : string) : string :=
  let urlParts := split "/"%char imageUrl in
  let publicId := default "" (head (split "."%char (default "" (last urlParts)))) in
  let folder := match rev urlParts with
                | _ :: folder :: _ => folder
                | _ => "undefined"
                end in
  folder +:+ "/" +:+ publicId.

Section LegacyMediaStore.

Variable destroy : string -> result string.

Definition legacyDeleteImage (imageUrl : string) : bool :=
  if negb (truthy (Some (VStr imageUrl))) || negb (includes imageUrl "cloudinary.com")
  then true
  else
    match destroy (legacyPublicIdOf imageUrl) with
    | Ok r => String.eqb r "ok"
    | Throw _ => false
    end.

End LegacyMediaStore.

(** *** Uploads to the media store ([processImage] of
    [utils/imageProcessor.js]) *)

Module Uploads.

(** An entry of [imageConfig.imageTypes]. *)
Record imageType : Type := mkImageType {
  folder : string;
  transformation : obj
}.

(** [imageConfig.fallback.useOriginal] *)
Definition useOriginal : bool := true.

Section Upload.

(** [cloudinary.uploader.upload(file, { folder, transformation, ... })]:
    the [secure_url] of the answer, or a rejection. *)
Variable upload : string -> string -> obj -> result string.

(** [processImage(base64Image, imageType)].  Calling [startsWith] on a
    value that is not a string throws inside the [try] block. *)
Definition processImage (base64Image : value) (imageType : imageType) : result value :=
  let attempt : result value :=
    match base64Image with
    | VStr s =>
        if startsWith s "http" then Ok base64Image
        else
          let imageData :=
            if startsWith s "data:image/"
            then default "undefined" (split ","%char s !! 1%nat)
            else s in
          secure_url ← upload ("data:image/jpeg;base64," +:+ imageData)
                              (folder imageType) (transformation imageType);
          Ok (VStr secure_url)
    | _ => Throw "base64Image.startsWith is not a function"
    end in
  match attempt with
  | Ok processed => Ok processed
  | Throw error => if useOriginal then Ok base64Image else Throw error
  end.

End Upload.

End Uploads.

(** *** Image formats (the converter of the inline-data variant) *)

Module Converter.

(** [a-z] *)
Definition isLower (c : ascii) : bool :=
  (97 <=? nat_of_ascii c)%nat && (nat_of_ascii c <=? 122)%nat.

(** The rest of [s] after the prefix [p], if [s] begins with [p]. *)
Fixpoint afterPrefix (p s : string) : option string :=
  match p, s with
  | EmptyString, _ => Some s
  | String a p', String b s' => if Ascii.eqb a b then afterPrefix p' s' else None
  | String _ _, EmptyString => None
  end.

(** The longest prefix of [s] in [a-z], and what follows it. *)
Fixpoint lowerRun (s : string) : string * string :=
  match s with
  | EmptyString => ("", "")
  | String c rest =>
      if isLower c then let '(run, after) := lowerRun rest in (String c run, after)
      else ("", s)
  end.

(** A string of letters [a-z]. *)
Fixpoint allLower (s : string) : bool :=
  match s with
  | EmptyString => true
  | String c rest => isLower c && allLower rest
  end.

(** [base64Image.match(/^data:image\/([a-z]+);base64,/)]: the group
    [[a-z]+] is followed by [;], which is no letter, so it matches the
    longest run of letters or nothing. *)
Definition getImageFormat (base64Image : string) : string :=
  match afterPrefix "data:image/" base64Image with
  | Some rest =>
      let '(format, after) := lowerRun rest in
      if negb (String.eqb format "") && startsWith after ";base64," then format
      else "unknown"
  | None => "unknown"
  end.

(** [s.toLowerCase()] on the letters [A-Z]. *)
Definition lowerChar (c : ascii) : ascii :=
  if (65 <=? nat_of_ascii c)%nat && (nat_of_ascii c <=? 90)%nat
  then ascii_of_nat (nat_of_ascii c + 32)
  else c.

Fixpoint toLowerCase (s : string) : string :=
  match s with
  | EmptyString => EmptyString
  | String c rest => String (lowerChar c) (toLowerCase rest)
  end.

(** [!['jpeg', 'jpg', 'webp'].includes(format.toLowerCase())] *)
Definition needsConversion (base64Image : string) : bool :=
  negb (bool_decide (toLowerCase (getImageFormat base64Image) ∈ ["jpeg"; "jpg"; "webp"])).

End Converter.

(** ** Numbers

    The arithmetic of doubles (IEEE 754 binary64): a result is the exact
    result rounded to the nearest double, a tie going to the double with
    an even significand. *)

Inductive number : Type :=
| Finite (q : Q)
| Infinite (negative : bool)
| NaN.
Bind Scope Q_scope with number.
Coercion Finite : Q >-> number.

Definition pow2 (e : Z) : Q := (2 ^ e)%Q.

(** The integer part of the binary logarithm of a positive rational. *)
Definition floorLog2 (q : Q) : Z :=
  let n := Qnum q in
  let d := Zpos (Qden q) in
  let k := (Z.log2 n - Z.log2 d)%Z in
  if (if (0 <=? k)%Z then (d * 2 ^ k <=? n)%Z else (d <=? n * 2 ^ (- k))%Z)
  then k else (k - 1)%Z.

(** The nearest integer, a tie going to the even one. *)
Definition roundHalfEven (q : Q) : Z :=
  let f := Qfloor q in
  match (q - inject_Z f ?= 1 # 2)%Q with
  | Lt => f
  | Gt => (f + 1)%Z
  | Eq => if Z.even f then f else (f + 1)%Z
  end.

(** The double nearest to a rational.  Doubles near [q] are the multiples
    of [2 ^ e], where [e] is 52 below the binary logarithm of [q] and at
    least -1074; a rounded value of [2 ^ 1024] or more is infinite. *)
Definition round64 (q : Q) : number :=
  if Qeq_bool q 0 then Finite 0
  else
    let e := Z.max (floorLog2 (Qabs q) - 52) (-1074) in
    let r := Qred (inject_Z (roundHalfEven (q / pow2 e)) * pow2 e) in
    if Qle_bool (pow2 1024) (Qabs r) then Infinite (Qle_bool q 0) else Finite r.

(** [a + b] on numbers *)
Definition jsAdd (a b : number) : number :=
  match a, b with
  | NaN, _ | _, NaN => NaN
  | Infinite s, Infinite t => if Bool.eqb s t then Infinite s else NaN
  | Infinite s, Finite _ | Finite _, Infinite s => Infinite s
  | Finite x, Finite y => round64 (x + y)
  end.

(** [a * b] on numbers *)
Definition jsMul (a b : number) : number :=
  match a, b with
  | NaN, _ | _, NaN => NaN
  | Infinite s, Infinite t => Infinite (xorb s t)
  | Infinite s, Finite y | Finite y, Infinite s =>
      if Qeq_bool y 0 then NaN else Infinite (xorb s (negb (Qle_bool 0 y)))
  | Finite x, Finite y => round64 (x * y)
  end.

(** ** The cart of the e-mail owner variant
    ([models/CartItem.js], [routes/cart.js]) *)

Module Cart.

(** A stored document of [cartItemSchema]. *)
Record CartItem : Type := mkCartItem {
  ci_userEmail : string;
  ci_id : string;
  ci_name : string;
  ci_quantity : Q;
  ci_price : Q;
  ci_currency : string;
  ci_image : string;
  ci_finalImage : string;
  ci_originalImageUrl : string;
  ci_specs : value;
  ci_configuration : option value;
  ci_createdAt : nat;
  ci_updatedAt : nat
}.

Abbreviation store := (list CartItem).

(** The query [{ id, userEmail }]; a filter value that is [undefined] or
    [null] selects documents without the path, and both paths are
    required, so it selects nothing. *)
Definition selects (id userEmail : option string) (doc : CartItem) : Prop :=
  id = Some (ci_id doc) ∧ userEmail = Some (ci_userEmail doc).

#[export] Instance selects_dec id userEmail doc : Decision (selects id userEmail doc) :=
  and_dec _ _.

Definition unique_ids (s : store) : Prop := NoDup (ci_id <$> s).

(** The data paths of the schema.  A payload whose keys are among them
    has no key in dot notation, no update operator and no key of the
    storage layer's own paths ([_id], [__v]). *)
Definition dataPaths : list string :=
  ["userEmail"; "id"; "name"; "quantity"; "price"; "currency";
   "image"; "finalImage"; "originalImageUrl"; "specs"; "configuration"].

Definition onlyDataPaths (payload : obj) : Prop :=
  map_Forall (fun k _ => k ∈ dataPaths) payload.

Section Storage.

(** What the storage layer makes of a value that is not of the type of
    its path: [None] is a cast error. *)
Variable convertString : value -> option string.
Variable convertNumber : value -> option Q.

(** What the storage layer stores for the nested paths [specs] and
    [configuration] of a new document, given what the payload holds for
    them: the casts of the subpaths, the empty arrays that the schema
    adds, strict mode and the validators; [Throw] is a cast or
    validation error. *)
Variable newSpecs : option value -> result value.
Variable newConfiguration : option value -> result (option value).

(** What it stores for them when an update sets them: no validator
    runs. *)
Variable setSpecs : value -> result value.
Variable setConfiguration : value -> result value.

(** The cast of a String path.  The cast keeps [null], for which the
    typed store has no place: the model refuses it. *)
Definition castString (v : value) : result string :=
  match v with
  | VStr s => Ok s
  | VNull => Throw "null"
  | _ => match convertString v with
         | Some s => Ok s
         | None => Throw "Cast to String failed"
         end
  end.

(** The cast of a Number path, with the same treatment of [null]. *)
Definition castNumber (v : value) : result Q :=
  match v with
  | VNum q => Ok q
  | VNull => Throw "null"
  | _ => match convertNumber v with
         | Some q => Ok q
         | None => Throw "Cast to Number failed"
         end
  end.

(** A value of a filter. *)
Definition castFilter (v : option value) : result (option string) :=
  match v with
  | None => Ok None
  | Some VNull => Ok None
  | Some x => s ← castString x; Ok (Some s)
  end.

(** [required: true] on a String path, with the default of the path if
    it has one. *)
Definition requiredString (path : string) (dflt : option string) (v : option value)
  : result string :=
  s ← match v, dflt with
      | Some x, _ => castString x
      | None, Some d => Ok d
      | None, None => Throw ("Path `" +:+ path +:+ "` is required.")
      end;
  if String.eqb s "" then Throw ("Path `" +:+ path +:+ "` is required.") else Ok s.

(** [required: true, min: m] on a Number path. *)
Definition requiredNumber (path : string) (dflt : option Q) (m : Q) (v : option value)
  : result Q :=
  q ← match v, dflt with
      | Some x, _ => castNumber x
      | None, Some d => Ok d
      | None, None => Throw ("Path `" +:+ path +:+ "` is required.")
      end;
  if Qle_bool m q then Ok q
  else Throw ("Path `" +:+ path +:+ "` is less than minimum allowed value.").

(** [enum: allowed] on a String path. *)
Definition checkEnum (path : string) (allowed : list string) (s : string) : result string :=
  if bool_decide (s ∈ allowed) then Ok s
  else Throw ("`" +:+ s +:+ "` is not a valid enum value for path `" +:+ path +:+ "`.").

(** [new CartItem(cartItemData)] followed by validation: casts, defaults
    and validators of the schema; both timestamps are set. *)
Definition newDocument (now : nat) (cartItemData : obj) : result CartItem :=
  userEmail ← requiredString "userEmail" None (cartItemData !! "userEmail");
  id ← requiredString "id" None (cartItemData !! "id");
  name ← requiredString "name" (Some "Custom Mousepad") (cartItemData !! "name");
  quantity ← requiredNumber "quantity" (Some 1%Q) 1 (cartItemData !! "quantity");
  price ← requiredNumber "price" None 0 (cartItemData !! "price");
  currency ← match cartItemData !! "currency" with
             | None => Ok "USD"
             | Some x => c ← castString x; checkEnum "currency" ["USD"; "SGD"] c
             end;
  image ← requiredString "image" None (cartItemData !! "image");
  finalImage ← requiredString "finalImage" None (cartItemData !! "finalImage");
  originalImageUrl ←
    requiredString "originalImageUrl" None (cartItemData !! "originalImageUrl");
  specs ← newSpecs (cartItemData !! "specs");
  configuration ← newConfiguration (cartItemData !! "configuration");
  Ok {| ci_userEmail := userEmail; ci_id := id; ci_name := name;
        ci_quantity := quantity; ci_price := price; ci_currency := currency;
        ci_image := image; ci_finalImage := finalImage;
        ci_originalImageUrl := originalImageUrl;
        ci_specs := specs; ci_configuration := configuration;
        ci_createdAt := now; ci_updatedAt := now |}.

(** [this.create(cartItemData)]: the insert is refused when the unique
    index on [id] already holds the id. *)
Definition create (now : nat) (cartItemData : obj) (s : store)
  : result (CartItem * store) :=
  doc ← newDocument now cartItemData;
  if bool_decide (ci_id doc ∈ ci_id <$> s)
  then Throw "E11000 duplicate key error: id"
  else Ok (doc, s ++ [doc]).

(** [cartItemSchema.statics.addToCart] *)
Definition addToCart (now : nat) (cartItemData : obj) (s : store)
  : result (CartItem * store) :=
  create now cartItemData s.

(** The update document [{ ...updates, updatedAt: new Date() }] after the
    casts of the schema: for every data path, the value to set, if the
    update holds the path.  No validator runs. *)
Record update : Type := mkUpdate {
  u_userEmail : option string;
  u_id : option string;
  u_name : option string;
  u_quantity : option Q;
  u_price : option Q;
  u_currency : option string;
  u_image : option string;
  u_finalImage : option string;
  u_originalImageUrl : option string;
  u_specs : option value;
  u_configuration : option value
}.

(** The cast of one path of an update: an absent key sets nothing. *)
Definition castPath {A} (cast : value -> result A) (v : option value) : result (option A) :=
  match v with
  | None => Ok None
  | Some x => a ← cast x; Ok (Some a)
  end.

Definition castUpdate (updates : obj) : result update :=
  userEmail ← castPath castString (updates !! "userEmail");
  id ← castPath castString (updates !! "id");
  name ← castPath castString (updates !! "name");
  quantity ← castPath castNumber (updates !! "quantity");
  price ← castPath castNumber (updates !! "price");
  currency ← castPath castString (updates !! "currency");
  image ← castPath castString (updates !! "image");
  finalImage ← castPath castString (updates !! "finalImage");
  originalImageUrl ← castPath castString (updates !! "originalImageUrl");
  specs ← castPath setSpecs (updates !! "specs");
  configuration ← castPath setConfiguration (updates !! "configuration");
  Ok {| u_userEmail := userEmail; u_id := id; u_name := name;
        u_quantity := quantity; u_price := price; u_currency := currency;
        u_image := image; u_finalImage := finalImage;
        u_originalImageUrl := originalImageUrl;
        u_specs := specs; u_configuration := configuration |}.

(** [this.findOne({ id, userEmail })] *)
Definition findOne (id userEmail : option string) (s : store) : option CartItem :=
  snd <$> list_find (selects id userEmail) s.

(** [$set] of the cast update on a stored document: a path that the
    update does not hold keeps its value, [createdAt] is kept and
    [updatedAt] is set. *)
Definition applyUpdate (now : nat) (u : update) (doc : CartItem) : CartItem :=
  {| ci_userEmail := default (ci_userEmail doc) (u_userEmail u);
     ci_id := default (ci_id doc) (u_id u);
     ci_name := default (ci_name doc) (u_name u);
     ci_quantity := default (ci_quantity doc) (u_quantity u);
     ci_price := default (ci_price doc) (u_price u);
     ci_currency := default (ci_currency doc) (u_currency u);
     ci_image := default (ci_image doc) (u_image u);
     ci_finalImage := default (ci_finalImage doc) (u_finalImage u);
     ci_originalImageUrl := default (ci_originalImageUrl doc) (u_originalImageUrl u);
     ci_specs := default (ci_specs doc) (u_specs u);
     ci_configuration := match u_configuration u with
                         | Some c => Some c
                         | None => ci_configuration doc
                         end;
     ci_createdAt := ci_createdAt doc; ci_updatedAt := now |}.

(** [cartItemSchema.statics.updateCartItem]:
    [this.findOneAndUpdate({ id, userEmail }, { ...updates, updatedAt }, { new: true })].
    The update is cast before the query runs.  The first selected
    document is updated in place and returned; the unique index refuses
    an update that would give it the id of another document. *)
Definition updateCartItem (id userEmail : option string) (updates : obj)
    (now : nat) (s : store) : result (option CartItem * store) :=
  u ← castUpdate updates;
  match list_find (selects id userEmail) s with
  | None => Ok (None, s)
  | Some (i, doc) =>
      let doc' := applyUpdate now u doc in
      if bool_decide (ci_id doc' ∈ ci_id <$> delete i s)
      then Throw "E11000 duplicate key error: id"
      else Ok (Some doc', <[i := doc']> s)
  end.

(** [cartItemSchema.statics.removeFromCart]:
    [this.findOneAndDelete({ id, userEmail })] *)
Definition removeFromCart (id userEmail : option string) (s : store)
  : option CartItem * store :=
  match list_find (selects id userEmail) s with
  | None => (None, s)
  | Some (i, doc) => (Some doc, delete i s)
  end.

(** [cartItemSchema.statics.getUserCart]:
    [this.find({ userEmail }).sort({ createdAt: -1 })] *)
Definition newerFirst (a b : CartItem) : Prop :=
  (ci_createdAt b ≤ ci_createdAt a)%nat.

#[export] Instance newerFirst_dec a b : Decision (newerFirst a b) :=
  decide (ci_createdAt b ≤ ci_createdAt a)%nat.

Definition getUserCart (userEmail : string) (s : store) : list CartItem :=
  merge_sort newerFirst (filter (fun doc => ci_userEmail doc = userEmail) s).

(** *** [router.post('/')]: add an item to the cart *)

Definition serverError {A} (what : string) : response A :=
  Resp 500 (Failure ("Server error while " +:+ what)).

Definition addOrUpdateItem (now : nat) (reqBody : obj) (s : store)
  : response (option CartItem) * store :=
  match sanitizeCartPayload reqBody false with
  | Throw validationError => (Resp 400 (Failure validationError), s)
  | Ok processedData =>
      let attempt : result (response (option CartItem) * store) :=
        id ← castFilter (processedData !! "id");
        userEmail ← castFilter (processedData !! "userEmail");
        match findOne id userEmail s with
        | Some existingItem =>
            '(updatedItem, s') ← updateCartItem id userEmail processedData now s;
            Ok (Resp 200 (Success "Cart item updated successfully" updatedItem), s')
        | None =>
            '(newCartItem, s') ← addToCart now processedData s;
            Ok (Resp 201 (Success "Item added to cart successfully" (Some newCartItem)), s')
        end in
      match attempt with
      | Ok out => out
      | Throw _ => (serverError "adding item to cart", s)
      end
  end.

(** [router.get('/:userEmail')] *)
Definition listCart (userEmail : string) (s : store) : response (list CartItem) :=
  Resp 200 (Success "" (getUserCart userEmail s)).

(** *** [router.delete('/:id')]: remove an item from the cart *)

Section Cleanup.

(** The imported [deleteImage]; [Throw] is a rejected promise.  The route
    is stated for any implementation of it. *)
Variable deleteImage : string -> result bool.

(** The body of the [try] block that cleans up the stored images. *)
Definition cleanupImages (deletedItem : CartItem) : result unit :=
  _ ← (if truthy (Some (VStr (ci_finalImage deletedItem)))
       then deleteImage (ci_finalImage deletedItem) else Ok true);
  _ ← (if truthy (Some (VStr (ci_originalImageUrl deletedItem)))
       then deleteImage (ci_originalImageUrl deletedItem) else Ok true);
  Ok ().

(** The third component is what the route writes with [console.error]. *)
Definition removeItem (id : string) (userEmail : option value) (s : store)
  : response (option CartItem) * store * list string :=
  if negb (truthy userEmail) then
    (Resp 400 (Failure "User email is required"), s, [])
  else
    match castFilter userEmail with
    | Throw e =>
        (serverError "removing item from cart", s,
         ["Error removing item from cart: " +:+ e])
    | Ok owner =>
        match removeFromCart (Some id) owner s with
        | (None, s') => (Resp 404 (Failure "Cart item not found"), s', [])
        | (Some deletedItem, s') =>
            let logged :=
              match cleanupImages deletedItem with
              | Ok _ => []
              | Throw cleanupError => ["Error cleaning up images: " +:+ cleanupError]
              end in
            (Resp 200 (Success "Item removed from cart successfully" (Some deletedItem)),
             s', logged)
        end
    end.

End Cleanup.

(** *** [router.get('/summary/:userEmail')] *)

Record cartSummary : Type := mkSummary {
  itemCount : number;
  totalPrice : number;
  currency : string
}.

(** [cartItems.reduce((acc, item) => ..., { itemCount: 0, totalPrice: 0 })]:
    [acc.itemCount += item.quantity] and
    [acc.totalPrice += item.price * item.quantity], item after item. *)
Definition reduceSummary (cartItems : list CartItem) : number * number :=
  foldl (fun acc item =>
           (jsAdd acc.1 (ci_quantity item),
            jsAdd acc.2 (jsMul (ci_price item) (ci_quantity item))))
        (Finite 0, Finite 0) cartItems.

Definition getCartSummary (userEmail : string) (s : store) : response cartSummary :=
  let cartItems := getUserCart userEmail s in
  let summary := reduceSummary cartItems in
  Resp 200 (Success ""
    {| itemCount := summary.1;
       totalPrice := summary.2;
       currency := match cartItems with
                   | first :: _ => ci_currency first
                   | [] => "USD"
                   end |}).

(** *** Vocabulary of the properties *)

(** The requests that change the cart, and the store after a sequence of
    them. *)
Inductive request : Type :=
| Post (now : nat) (reqBody : obj)
| Delete (id : string) (userEmail : option value).

Definition handle (deleteImage : string -> result bool) (s : store) (req : request)
  : store :=
  match req with
  | Post now reqBody => (addOrUpdateItem now reqBody s).2
  | Delete id userEmail => (removeItem deleteImage id userEmail s).1.2
  end.

Definition run (deleteImage : string -> result bool) (reqs : list request) (s : store)
  : store :=
  foldl (handle deleteImage) s reqs.

(** The same body submitted again at each of the given times. *)
Definition resubmit (reqBody : obj) (times : list nat) (s : store) : store :=
  foldl (fun st now => (addOrUpdateItem now reqBody st).2) s times.

(** Every String or Number path of the schema that the payload supplies
    is stored with the supplied value: a string or a number as it is,
    another value as the storage layer casts it. *)
Definition storedAs (payload : obj) (item : CartItem) : Prop :=
  (∀ v, payload !! "userEmail" = Some v → castString v = Ok (ci_userEmail item)) ∧
  (∀ v, payload !! "id" = Some v → castString v = Ok (ci_id item)) ∧
  (∀ v, payload !! "name" = Some v → castString v = Ok (ci_name item)) ∧
  (∀ v, payload !! "quantity" = Some v → castNumber v = Ok (ci_quantity item)) ∧
  (∀ v, payload !! "price" = Some v → castNumber v = Ok (ci_price item)) ∧
  (∀ v, payload !! "currency" = Some v → castString v = Ok (ci_currency item)) ∧
  (∀ v, payload !! "image" = Some v → castString v = Ok (ci_image item)) ∧
  (∀ v, payload !! "finalImage" = Some v → castString v = Ok (ci_finalImage item)) ∧
  (∀ v, payload !! "originalImageUrl" = Some v →
        castString v = Ok (ci_originalImageUrl item)).

(** A path of the schema that an update does not hold keeps its stored
    value in the updated item, and so does the time of creation. *)
Definition keptWhereAbsent (updates : obj) (old item : CartItem) : Prop :=
  (updates !! "name" = None → ci_name item = ci_name old) ∧
  (updates !! "quantity" = None → ci_quantity item = ci_quantity old) ∧
  (updates !! "price" = None → ci_price item = ci_price old) ∧
  (updates !! "currency" = None → ci_currency item = ci_currency old) ∧
  (updates !! "image" = None → ci_image item = ci_image old) ∧
  (updates !! "finalImage" = None → ci_finalImage item = ci_finalImage old) ∧
  (updates !! "originalImageUrl" = None →
   ci_originalImageUrl item = ci_originalImageUrl old) ∧
  (updates !! "specs" = None → ci_specs item = ci_specs old) ∧
  (updates !! "configuration" = None → ci_configuration item = ci_configuration old) ∧
  ci_createdAt item = ci_createdAt old.

(** A new document has the default of the schema where its payload holds
    no value for a path that has one. *)
Definition defaultsWhereAbsent (payload : obj) (item : CartItem) : Prop :=
  (payload !! "name" = None → ci_name item = "Custom Mousepad") ∧
  (payload !! "quantity" = None → ci_quantity item = 1%Q) ∧
  (payload !! "currency" = None → ci_currency item = "USD").

(** *** [router.put('/:id')]: update an item of the cart *)

(** [const { userEmail, ...updates } = req.body]: the owner is read from
    the body and is no part of the update, which is sanitized as a
    partial payload. *)
Definition updateItem (now : nat) (id : string) (reqBody : obj) (s : store)
  : response (option CartItem) * store :=
  let userEmail := reqBody !! "userEmail" in
  let updates := delete "userEmail" reqBody in
  if negb (truthy userEmail) then
    (Resp 400 (Failure "User email is required"), s)
  else
    match sanitizeCartPayload updates true with
    | Throw validationError => (Resp 400 (Failure validationError), s)
    | Ok processedUpdates =>
        let attempt : result (response (option CartItem) * store) :=
          owner ← castFilter userEmail;
          '(updatedItem, s') ← updateCartItem (Some id) owner processedUpdates now s;
          match updatedItem with
          | None => Ok (Resp 404 (Failure "Cart item not found"), s')
          | Some _ =>
              Ok (Resp 200 (Success "Cart item updated successfully" updatedItem), s')
          end in
        match attempt with
        | Ok out => out
        | Throw _ => (serverError "updating cart item", s)
        end
    end.

(** *** [router.delete('/clear/:userEmail')]: clear the cart of an owner *)

(** [cartItemSchema.statics.clearUserCart]: [this.deleteMany({ userEmail })];
    the first component is [deletedCount]. *)
Definition clearUserCart (userEmail : string) (s : store) : nat * store :=
  (length (filter (fun doc => ci_userEmail doc = userEmail) s),
   filter (fun doc => ci_userEmail doc ≠ userEmail) s).

Section Clearing.

Variable deleteImage : string -> result bool.

(** [for (const item of cartItems) { ... }] in the [try] block: the
    first rejection ends the loop. *)
Fixpoint cleanupAll (cartItems : list CartItem) : result unit :=
  match cartItems with
  | [] => Ok ()
  | item :: rest => _ ← cleanupImages deleteImage item; cleanupAll rest
  end.

(** The data of the reply is [deletedCount]; the third component is what
    the route writes with [console.error]. *)
Definition clearCart (userEmail : string) (s : store)
  : response nat * store * list string :=
  let cartItems := getUserCart userEmail s in
  let '(deletedCount, s') := clearUserCart userEmail s in
  let logged :=
    match cleanupAll cartItems with
    | Ok _ => []
    | Throw cleanupError => ["Error cleaning up images: " +:+ cleanupError]
    end in
  (Resp 200 (Success "Cart cleared successfully" deletedCount), s', logged).

End Clearing.

(** *** [router.get('/admin/all')] *)

(** [CartItem.find({}).sort({ createdAt: -1 })] *)
Definition listAll (s : store) : response (list CartItem) :=
  Resp 200 (Success "" (merge_sort newerFirst s)).

(** *** The requests of all the routes that write to the cart *)

Inductive call : Type :=
| CallPost (now : nat) (reqBody : obj)
| CallPut (now : nat) (id : string) (reqBody : obj)
| CallDelete (id : string) (userEmail : option value)
| CallClear (userEmail : string).

Definition serve (deleteImage : string -> result bool) (s : store) (c : call) : store :=
  match c with
  | CallPost now reqBody => (addOrUpdateItem now reqBody s).2
  | CallPut now id reqBody => (updateItem now id reqBody s).2
  | CallDelete id userEmail => (removeItem deleteImage id userEmail s).1.2
  | CallClear userEmail => (clearCart deleteImage userEmail s).1.2
  end.

Definition serveAll (deleteImage : string -> result bool) (calls : list call) (s : store)
  : store :=
  foldl (serve deleteImage) s calls.

End Storage.

Definition imageFields : list string := ["image"; "finalImage"; "originalImageUrl"].

(** The verdict of the reject-inline strategy on a full payload: the
    error of the first image field, in the order [image], [finalImage],
    [originalImageUrl], whose supplied value is no string or begins with
    the inline-data prefix; when there is none, that of the first image
    field that is missing. *)
Definition suppliedVerdict (payload : obj) (field : string) : option string :=
  if truthy (payload !! field) then
    match payload !! field with
    | Some (VStr s) =>
        if startsWith s "data:" then Some (field +:+ " must be uploaded before saving")
        else None
    | _ => Some (field +:+ " must be a string URL")
    end
  else None.

Definition missingVerdict (payload : obj) (field : string) : option string :=
  if truthy (payload !! field) then None else Some (field +:+ " is required").

Definition rejection (payload : obj) : option string :=
  head (omap (suppliedVerdict payload) imageFields
        ++ omap (missingVerdict payload) imageFields).

(** A hosted image: a non-empty string that does not start with the
    inline-data prefix. *)
Definition hosted (v : option value) : Prop :=
  ∃ s, v = Some (VStr s) ∧ truthy v = true ∧ startsWith s "data:" = false.

(** A configuration without embedded image data: no [uploadedImages], no
    [logoFile], and image settings with no field besides [zoom],
    [position], [adjustments], [filter] and [crop]. *)
Definition cleanConfiguration (c : obj) : Prop :=
  c !! "uploadedImages" = None ∧
  c !! "logoFile" = None ∧
  (truthy (c !! "imageSettings") = true →
   ∃ settings, c !! "imageSettings" = Some (VObj settings) ∧
     ∀ k, k ∉ imageSettingsFields → settings !! k = None).

(** [Σ] over a list of whole numbers. *)
Definition sumZ (l : list Z) : Z := foldr Z.add 0%Z l.

(** An item without inline image data: none of its three images begins
    with the inline-data prefix. *)
Definition noInlineImage (item : CartItem) : Prop :=
  startsWith (ci_image item) "data:" = false ∧
  startsWith (ci_finalImage item) "data:" = false ∧
  startsWith (ci_originalImageUrl item) "data:" = false.

End Cart.

(** ** Orders of the user-id variant
    (the order model, the cart item model with [userId], the order routes) *)

Module Checkout.

(** A stored cart item of the schema with [userId]. *)
Record CartItem : Type := mkCartItem {
  ci_id : string;                 (* [_id.toString()] *)
  ci_userId : string;
  ci_name : string;
  ci_quantity : Q;
  ci_price : Q;
  ci_currency : string;
  ci_finalImage : string;
  ci_originalImageUrl : string;
  ci_mousepadType : string;
  ci_mousepadSize : string;
  ci_thickness : string;
  ci_status : string
}.

(** An entry of [items] of an order. *)
Record OrderItem : Type := mkOrderItem {
  oi_cartItemId : string;
  oi_name : string;
  oi_quantity : Q;
  oi_price : Q;
  oi_currency : string;
  oi_finalImage : string;
  oi_originalImageUrl : string;
  oi_mousepadType : string;
  oi_mousepadSize : string;
  oi_thickness : string
}.

Record Address : Type := mkAddress {
  street : option string;
  city : option string;
  state : option string;
  zipCode : option string;
  country : string
}.

Record CustomerInfo : Type := mkCustomerInfo {
  firstName : option string;
  lastName : option string;
  email : option string;
  phone : option string;
  address : Address;
  additionalNotes : string
}.

(** A stored document of [orderSchema]. *)
Record Order : Type := mkOrder {
  o_id : string;                  (* [_id.toString()] *)
  o_userId : string;
  o_items : list OrderItem;
  o_subtotal : Q;
  o_shipping : Q;
  o_tax : Q;
  o_total : Q;
  o_currency : string;
  o_customerInfo : CustomerInfo;
  o_status : string;
  o_paymentStatus : string;
  o_paymentTransactionId : option string;
  o_createdAt : nat;
  o_updatedAt : nat
}.

(** What the mailer answers. *)
Record sendResult : Type := mkSendResult {
  success : bool;
  messageId : option string;
  message : option string;
  error : option string
}.

(** [try { c } catch (error) { handler(error) }] *)
Definition try_catch {A} (c : result A) (handler : string -> result A) : result A :=
  match c with
  | Ok a => Ok a
  | Throw e => handler e
  end.

(** [a || b] *)
Definition orElse (a : option value) (b : value) : value :=
  match a with
  | Some x => if truthy a then x else b
  | None => b
  end.

(** [v.k], which throws when [v] is [null] or [undefined]. *)
Definition member (v : option value) (k : string) : result (option value) :=
  match v with
  | None => Throw ("Cannot read properties of undefined (reading '" +:+ k +:+ "')")
  | Some VNull => Throw ("Cannot read properties of null (reading '" +:+ k +:+ "')")
  | Some x => Ok (getprop x k)
  end.

(** [cartItem => ({ cartItemId: item.cartItemId, name: cartItem.name, ... })] *)
Definition snapshot (cartItemId : string) (cartItem : CartItem) : OrderItem :=
  {| oi_cartItemId := cartItemId;
     oi_name := ci_name cartItem;
     oi_quantity := ci_quantity cartItem;
     oi_price := ci_price cartItem;
     oi_currency := ci_currency cartItem;
     oi_finalImage := ci_finalImage cartItem;
     oi_originalImageUrl := ci_originalImageUrl cartItem;
     oi_mousepadType := ci_mousepadType cartItem;
     oi_mousepadSize := ci_mousepadSize cartItem;
     oi_thickness := ci_thickness cartItem |}.

(** [cartItems.find(ci => ci._id.toString() === item.cartItemId)]: strict
    equality holds for a string only. *)
Definition findCartItem (cartItems : list CartItem) (cartItemId : option value)
  : option CartItem :=
  match cartItemId with
  | Some (VStr s) => snd <$> list_find (fun ci => ci_id ci = s) cartItems
  | _ => None
  end.

(** One entry of [orderData.items]; reading [cartItem.name] of a cart
    item that was not found throws. *)
Definition snapshotItem (cartItems : list CartItem) (item : value) : result OrderItem :=
  cartItemId ← member (Some item) "cartItemId";
  match findCartItem cartItems cartItemId, cartItemId with
  | Some cartItem, Some (VStr s) => Ok (snapshot s cartItem)
  | _, _ => Throw "Cannot read properties of undefined (reading 'name')"
  end.

(** [xs.map(f)] for an [f] that may throw. *)
Fixpoint mapM {A B} (f : A -> result B) (xs : list A) : result (list B) :=
  match xs with
  | [] => Ok []
  | x :: rest => y ← f x; ys ← mapM f rest; Ok (y :: ys)
  end.

(** The derived order [status] of a payment status: the fields of
    [updateData] besides [paymentTransactionId]. *)
Definition derivedStatus (status : option value) : option string :=
  match status with
  | Some (VStr s) =>
      if String.eqb s "completed" then Some "processing"
      else if String.eqb s "failed" then Some "paymentFailed"
      else None
  | _ => None
  end.

(** The order of the listings: [.sort({ createdAt: -1 })] *)
Definition newerOrderFirst (a b : Order) : Prop :=
  (o_createdAt b ≤ o_createdAt a)%nat.

#[export] Instance newerOrderFirst_dec a b : Decision (newerOrderFirst a b) :=
  decide (o_createdAt b ≤ o_createdAt a)%nat.

(** [a || b] of two values that may be [undefined]. *)
Definition orUndefined (a b : option value) : option value :=
  if truthy a then a else b.

(** [s === v] for a string [s]: strict equality holds for the same
    string only. *)
Definition strictEq (s : string) (v : value) : bool :=
  match v with
  | VStr t => String.eqb s t
  | _ => false
  end.

(** The middleware [getUserId] before a handler [next], which finds the
    user id in [req.userId]:
    [req.body.userId || req.query.userId || req.headers['x-user-id']]. *)
Definition getUserId {A} (reqBody query headers : obj) (next : value -> response A)
  : response A :=
  let userId :=
    orUndefined (orUndefined (reqBody !! "userId") (query !! "userId"))
                (headers !! "x-user-id") in
  match userId with
  | Some u =>
      if negb (truthy userId) then Resp 400 (Failure "User ID is required")
      else next u
  | None => Resp 400 (Failure "User ID is required")
  end.

Section Routes.

(** What the storage layer makes of a value that is not of the type of
    its path, and what it makes of any value sent for an ObjectId;
    [None] is a cast error. *)
Variable convertString : value -> option string.
Variable convertNumber : value -> option Q.
Variable convertObjectId : value -> option string.

(** The errors that the validation chain of a route reports for a
    request body; none when the body passes. *)
Variable validateOrder : obj -> list string.
Variable validatePayment : obj -> list string.

(** [process.env.NODE_ENV === 'production'] *)
Variable production : bool.

(** The cast of a String path.  The cast keeps [null], for which the
    typed store has no place: the model refuses it. *)
Definition castString (v : value) : result string :=
  match v with
  | VStr s => Ok s
  | VNull => Throw "null"
  | _ => match convertString v with
         | Some s => Ok s
         | None => Throw "Cast to String failed"
         end
  end.

(** The cast of a Number path, with the same treatment of [null]. *)
Definition castNumber (v : value) : result Q :=
  match v with
  | VNum q => Ok q
  | VNull => Throw "null"
  | _ => match convertNumber v with
         | Some q => Ok q
         | None => Throw "Cast to Number failed"
         end
  end.

Definition castObjectId (v : option value) : result (option string) :=
  match v with
  | None => Ok None
  | Some VNull => Ok None
  | Some x => match convertObjectId x with
              | Some oid => Ok (Some oid)
              | None => Throw "Cast to ObjectId failed"
              end
  end.

Definition castOptional (v : option value) : result (option string) :=
  match v with
  | None => Ok None
  | Some VNull => Ok None
  | Some x => s ← castString x; Ok (Some s)
  end.

(** [required: true, min: 0] on a Number path of the order. *)
Definition amount (path : string) (v : value) : result Q :=
  q ← castNumber v;
  if Qle_bool 0 q then Ok q
  else Throw ("Path `" +:+ path +:+ "` is less than minimum allowed value.").

(** [CartItem.find({ _id: { $in: cartItemIds }, userId: userId })] *)
Definition findOwned (cartItemIds : list (option value)) (userId : string)
    (carts : list CartItem) : result (list CartItem) :=
  ids ← mapM castObjectId cartItemIds;
  Ok (filter (fun ci => Some (ci_id ci) ∈ ids ∧ ci_userId ci = userId) carts).

(** The [customerInfo] of [orderData], cast by the schema. *)
Definition customerInfoOf (customerInfo : option value) : result CustomerInfo :=
  firstName ← member customerInfo "firstName";
  lastName ← member customerInfo "lastName";
  email ← member customerInfo "email";
  phone ← member customerInfo "phone";
  address ← member customerInfo "address";
  street ← member address "street";
  city ← member address "city";
  state ← member address "state";
  zipCode ← member address "zipCode";
  country ← member address "country";
  additionalNotes ← member customerInfo "additionalNotes";
  firstName ← castOptional firstName;
  lastName ← castOptional lastName;
  email ← castOptional email;
  phone ← castOptional phone;
  street ← castOptional street;
  city ← castOptional city;
  state ← castOptional state;
  zipCode ← castOptional zipCode;
  country ← castString (orElse country (VStr "United States"));
  additionalNotes ← castString (orElse additionalNotes (VStr ""));
  Ok {| firstName := firstName; lastName := lastName; email := email; phone := phone;
        address := {| street := street; city := city; state := state;
                      zipCode := zipCode; country := country |};
        additionalNotes := additionalNotes |}.

(** The error text of a 500 reply. *)
Definition failure500 {A} (what : string) (e : string) : response A :=
  Resp 500 (Failure (if production then "Server error while " +:+ what else e)).

(** The rest of [orderData] beside its items, and
    [Order.createOrder(orderData)]: the casts and validators of the order
    schema, and the insert.  [newId] is the [_id] that the storage layer
    generates for the new document. *)
Definition saveOrder (now : nat) (newId : string) (userId : string) (reqBody : obj)
    (orderItems : list OrderItem) (orders : list Order)
  : result (response Order * list Order) :=
  customerInfo ← customerInfoOf (reqBody !! "customerInfo");
  subtotal ← amount "subtotal" (orElse (reqBody !! "subtotal") (VNum 0));
  shipping ← amount "shipping" (orElse (reqBody !! "shipping") (VNum 0));
  tax ← amount "tax" (orElse (reqBody !! "tax") (VNum 0));
  total ← amount "total" (orElse (reqBody !! "total") (VNum 0));
  currency ← castString (orElse (reqBody !! "currency") (VStr "USD"));
  _ ← (if bool_decide (currency ∈ ["USD"; "SGD"]) then Ok ()
       else Throw "`currency` is not a valid enum value");
  _ ← (if bool_decide (newId ∈ o_id <$> orders)
       then Throw "E11000 duplicate key error: _id" else Ok ());
  let order :=
    {| o_id := newId; o_userId := userId; o_items := orderItems;
       o_subtotal := subtotal; o_shipping := shipping; o_tax := tax;
       o_total := total; o_currency := currency;
       o_customerInfo := customerInfo;
       o_status := "pending"; o_paymentStatus := "pending";
       o_paymentTransactionId := None;
       o_createdAt := now; o_updatedAt := now |} in
  Ok (Resp 201 (Success "Order created successfully" order), orders ++ [order]).

(** [router.post('/')]: create an order from the checkout. *)
Definition createOrder (now : nat) (newId : string) (userId : string) (reqBody : obj)
    (carts : list CartItem) (orders : list Order)
  : response Order * list Order :=
  if bool_decide (validateOrder reqBody ≠ []) then
    (Resp 400 (Invalid (validateOrder reqBody)), orders)
  else
    let attempt : result (response Order * list Order) :=
      items ← match reqBody !! "items" with
              | Some (VArr items) => Ok items
              | _ => Throw "items.map is not a function"
              end;
      cartItemIds ← mapM (fun item => member (Some item) "cartItemId") items;
      cartItems ← findOwned cartItemIds userId carts;
      if bool_decide (length cartItems ≠ length cartItemIds) then
        Ok (Resp 400 (Failure "Some cart items do not belong to you or do not exist"),
            orders)
      else
        orderItems ← mapM (snapshotItem cartItems) items;
        saveOrder now newId userId reqBody orderItems orders in
    match attempt with
    | Ok out => out
    | Throw e => (failure500 "creating order" e, orders)
    end.

(** [orderSchema.statics.getOrderById]: [this.findOne({ _id: orderId })] *)
Definition getOrderById (orderId : string) (orders : list Order)
  : result (option (nat * Order)) :=
  oid ← castObjectId (Some (VStr orderId));
  Ok (list_find (fun o => oid = Some (o_id o)) orders).

(** [Order.findByIdAndUpdate(order._id, { $set: updateData }, { new: true })]
    for the [updateData] of the payment route. *)
Definition applyPayment (now : nat) (status paymentTransactionId : option value)
    (order : Order) : result Order :=
  paymentStatus ← match status with
                  | None => Ok (o_paymentStatus order)
                  | Some x => castString x
                  end;
  transaction ← (if truthy paymentTransactionId
                 then castOptional paymentTransactionId
                 else Ok (o_paymentTransactionId order));
  Ok {| o_id := o_id order; o_userId := o_userId order; o_items := o_items order;
        o_subtotal := o_subtotal order; o_shipping := o_shipping order;
        o_tax := o_tax order; o_total := o_total order;
        o_currency := o_currency order; o_customerInfo := o_customerInfo order;
        o_status := default (o_status order) (derivedStatus status);
        o_paymentStatus := paymentStatus;
        o_paymentTransactionId := transaction;
        o_createdAt := o_createdAt order; o_updatedAt := now |}.

Section Payment.

(** The imported [sendOrderConfirmationEmail]; [Throw] is a rejected
    promise.  The route is stated for any implementation of it. *)
Variable notifier : option Order -> result sendResult.

(** [router.patch('/:_id/payment-status')] of the user-id variant.  The
    third component is what the route writes with [console.error]. *)
Definition updatePaymentStatus (now : nat) (userId : string) (_id : string)
    (reqBody : obj) (orders : list Order)
  : response Order * list Order * list string :=
  if bool_decide (validatePayment reqBody ≠ []) then
    (Resp 400 (Invalid (validatePayment reqBody)), orders, [])
  else
    let status := reqBody !! "status" in
    let paymentTransactionId := reqBody !! "paymentTransactionId" in
    let attempt : result (response Order * list Order * list string) :=
      found ← getOrderById _id orders;
      match found with
      | None => Ok (Resp 404 (Failure "Order not found"), orders, [])
      | Some (i, order) =>
          if bool_decide (o_userId order ≠ userId) then
            Ok (Resp 403 (Failure "Not authorized to update this order"), orders, [])
          else
            updatedOrder ← applyPayment now status paymentTransactionId order;
            let logged :=
              match notifier (Some updatedOrder) with
              | Ok _ => []
              | Throw err => ["Failed to send order confirmation email: " +:+ err]
              end in
            Ok (Resp 200 (Success "Order payment status updated successfully" updatedOrder),
                <[i := updatedOrder]> orders, logged)
      end in
    match attempt with
    | Ok out => out
    | Throw e =>
        (failure500 "updating order payment status" e, orders,
         ["Error updating order payment status: " +:+ e])
    end.

End Payment.

(** [orderSchema.statics.getUserOrders]:
    [this.find({ userId: userId }).sort({ createdAt: -1 })] *)
Definition getUserOrders (userId : value) (orders : list Order) : result (list Order) :=
  owner ← castOptional (Some userId);
  Ok (merge_sort newerOrderFirst (filter (fun o => owner = Some (o_userId o)) orders)).

(** [router.get('/')] of the user-id variant: the orders of the user. *)
Definition listOrders (reqBody query headers : obj) (orders : list Order)
  : response (list Order) :=
  getUserId reqBody query headers (fun userId =>
    match getUserOrders userId orders with
    | Ok found => Resp 200 (Success "" found)
    | Throw e => failure500 "fetching orders" e
    end).

(** [router.get('/admin/all')]: [Order.find({}).sort({ createdAt: -1 })] *)
Definition listAllOrders (orders : list Order) : response (list Order) :=
  Resp 200 (Success "" (merge_sort newerOrderFirst orders)).

(** [router.get('/admin/:_id')] *)
Definition getOrderAdmin (_id : string) (orders : list Order) : response Order :=
  match getOrderById _id orders with
  | Ok None => Resp 404 (Failure "Order not found")
  | Ok (Some (_, order)) => Resp 200 (Success "" order)
  | Throw e => failure500 "fetching order" e
  end.

(** [router.get('/:_id')] of the user-id variant. *)
Definition getOrder (reqBody query headers : obj) (_id : string) (orders : list Order)
  : response Order :=
  getUserId reqBody query headers (fun userId =>
    match getOrderById _id orders with
    | Ok None => Resp 404 (Failure "Order not found")
    | Ok (Some (_, order)) =>
        if negb (strictEq (o_userId order) userId) then
          Resp 403 (Failure "Not authorized to access this order")
        else Resp 200 (Success "" order)
    | Throw e => failure500 "fetching order" e
    end).

End Routes.

(** *** The order confirmation mailer ([sendOrderConfirmationEmail]) *)

Record emailConfig : Type := mkEmailConfig {
  enabled : bool;
  apiKey : string;
  senderName : string;
  senderEmail : string;
  adminEmail : string
}.

(** [sendSmtpEmail] *)
Record smtpEmail : Type := mkSmtpEmail {
  subject : string;
  htmlContent : string;
  sender : string * string;
  to : list string
}.

(** [config/email.js] *)
Definition emailConfigOf (env : gmap string string) : emailConfig :=
  {| enabled := negb (bool_decide (env !! "EMAIL_ENABLED" = Some "false"));
     apiKey := envOr env "BREVO_API_KEY" "";
     senderName := envOr env "EMAIL_FROM_NAME" "Mousepad Store";
     senderEmail := envOr env "EMAIL_FROM" "noreply@mousepad.com";
     adminEmail := envOr env "ADMIN_EMAIL" "admin@mousepad.com" |}.

Section Mailer.

Variable config : emailConfig.

(** [fs.readFileSync(templatePath, 'utf8')] *)
Variable readFileSync : result string.

(** The formatting of the order into the subject and the HTML of the
    message (dates, currency amounts, the template placeholders), which
    may throw. *)
Variable compose : string -> option Order -> result (string * string).

(** [apiInstance.sendTransacEmail(sendSmtpEmail)]: the message id, or a
    rejection. *)
Variable sendTransacEmail : smtpEmail -> result string.

(** [loadEmailTemplate]: [null] when the file cannot be read. *)
Definition loadEmailTemplate : option string :=
  match readFileSync with
  | Ok contents => Some contents
  | Throw _ => None
  end.

Definition sendOrderConfirmationEmail (order : option Order) : result sendResult :=
  if negb (enabled config) then
    Ok {| success := false; messageId := None;
          message := Some "Email service is disabled"; error := None |}
  else if negb (truthy (Some (VStr (apiKey config)))) then
    Ok {| success := false; messageId := None;
          message := Some "Email API key not configured"; error := None |}
  else
    try_catch
      (template ← match loadEmailTemplate with
                  | Some t => if truthy (Some (VStr t)) then Ok t
                              else Throw "Failed to load email template"
                  | None => Throw "Failed to load email template"
                  end;
       '(subjectLine, html) ← compose template order;
       let sendSmtpEmail :=
         {| subject := subjectLine; htmlContent := html;
            sender := (senderName config, senderEmail config);
            to := [adminEmail config] |} in
       sent ← sendTransacEmail sendSmtpEmail;
       Ok {| success := true; messageId := Some sent;
             message := Some "Email sent successfully"; error := None |})
      (fun errorMessage =>
         Ok {| success := false; messageId := None; message := None;
               error := Some (if truthy (Some (VStr errorMessage))
                              then errorMessage
                              else "Failed to send email") |}).

End Mailer.

End Checkout.

(** ** Configuration of the API ([config/api.js]) *)

Module ApiConfig.

Record cookieOptions : Type := mkCookieOptions {
  httpOnly : bool;
  maxAge : N;
  domain : string;
  secure : bool;
  sameSite : string
}.

(** [process.env.NODE_ENV !== 'production'] *)
Definition isDevelopment (env : gmap string string) : bool :=
  negb (bool_decide (env !! "NODE_ENV" = Some "production")).

Definition COOKIE_DOMAIN (env : gmap string string) : string :=
  match env !! "COOKIE_DOMAIN" with
  | Some d => if negb (String.eqb d "") then d
              else if isDevelopment env then ".vos.local" else ".evogearstudio.com"
  | None => if isDevelopment env then ".vos.local" else ".evogearstudio.com"
  end.

(** [getCookieOptions] *)
Definition getCookieOptions (env : gmap string string) : cookieOptions :=
  let maxAge := (7 * 24 * 60 * 60 * 1000)%N in
  if isDevelopment env then
    {| httpOnly := true; maxAge := maxAge; domain := COOKIE_DOMAIN env;
       secure := true; sameSite := "none" |}
  else
    let apiIsHttps := negb (bool_decide (env !! "API_IS_HTTPS" = Some "false")) in
    if apiIsHttps then
      {| httpOnly := true; maxAge := maxAge; domain := COOKIE_DOMAIN env;
         secure := true; sameSite := "none" |}
    else
      {| httpOnly := true; maxAge := maxAge; domain := COOKIE_DOMAIN env;
         secure := false; sameSite := "lax" |}.

End ApiConfig.

(** ** The origins that the server admits ([server.js]) *)

Module Server.

(** White space of a string of code units below 256: tab, line feed,
    vertical tab, form feed, carriage return, space, no-break space. *)
Definition isSpace (c : ascii) : bool :=
  bool_decide (nat_of_ascii c ∈ [9; 10; 11; 12; 13; 32; 160]%nat).

Fixpoint trimStart (s : string) : string :=
  match s with
  | EmptyString => EmptyString
  | String c rest => if isSpace c then trimStart rest else s
  end.

(** [s.trimEnd()]: the characters of [s] up to its last character that
    is no white space. *)
Fixpoint trimEnd (s : string) : string :=
  match s with
  | EmptyString => EmptyString
  | String c rest =>
      match trimEnd rest with
      | EmptyString => if isSpace c then EmptyString else String c EmptyString
      | kept => String c kept
      end
  end.

(** [s.trim()] *)
Definition trim (s : string) : string := trimEnd (trimStart s).

(** [getCorsOrigins] of the serverless variant:
    [process.env.CORS_ORIGIN?.split(',') || [...]], each origin trimmed. *)
Definition getCorsOrigins (env : gmap string string) : list string :=
  trim <$> match env !! "CORS_ORIGIN" with
           | Some listed => split ","%char listed
           | None => ["http://localhost:3000"; "https://evogear.rtnglobal.co";
                      "https://www.evogearstudio.com"]
           end.

(** The [origin] callback of the serverless variant: [true] is
    [callback(null, true)]. *)
Definition admitsOrigin (env : gmap string string) (origin : option string) : bool :=
  let allowedOrigins := getCorsOrigins env in
  match origin with
  | None => true
  | Some o =>
      if negb (truthy (Some (VStr o))) || bool_decide (o ∈ allowedOrigins) then true
      else true
  end.

(** An entry of [CORS_ORIGINS] of [config/api.js]: a string or a regular
    expression, which is given by its source. *)
Inductive allowedOrigin : Type :=
| Literal (allowed : string)
| Pattern (source : string).

(** [CORS_ORIGINS]: the entries that are not falsy. *)
Definition CORS_ORIGINS (env : gmap string string) : list allowedOrigin :=
  match env !! "CORS_ORIGIN" with
  | Some o => if String.eqb o "" then [] else [Literal o]
  | None => []
  end ++
  [Literal "http://localhost:3000";
   Literal "https://evogear.rtnglobal.co";
   Literal "https://vos.local";
   Literal "https://api.vos.local";
   Pattern "^https?:\/\/(.*\.)?vos\.local$";
   Pattern "^https?:\/\/(.*\.)?evogearstudio\.com$";
   Pattern "^https?:\/\/(.*\.)?evogear\.rtnglobal\.co$"].

Section Origins.

(** [pattern.test(origin)] for a regular expression given by its
    source. *)
Variable regexTest : string -> string -> bool.

(** The [origin] callback of the server with orders: [true] is
    [callback(null, true)], [false] is
    [callback(new Error('Not allowed by CORS'))]. *)
Definition admitsOriginStrict (env : gmap string string) (origin : option string) : bool :=
  match origin with
  | None => true
  | Some o =>
      if negb (truthy (Some (VStr o))) then true
      else
        let isAllowed :=
          existsb (fun allowed =>
                     match allowed with
                     | Literal a => String.eqb o a || includes o a
                     | Pattern source => regexTest source o
                     end)
                  (CORS_ORIGINS env) in
        if isAllowed then true
        else if includes o ".evogearstudio.com" || includes o "evogearstudio.com" ||
                includes o ".vos.local" || includes o "vos.local"
             then true
             else false
  end.

End Origins.

End Server.

(** ** Validation of the owner's address (the [validateUserEmail]
    middleware) *)

Module Validate.

(** The regular expressions of the middleware: a character, one or more
    characters of a class, a sequence. *)
Inductive regex : Type :=
| Char (c : ascii)
| Many1 (class : ascii -> bool)
| Seq (r1 r2 : regex).

(** One or more characters of [class] at the start of [s], then [k] on
    the rest. *)
Fixpoint many1 (class : ascii -> bool) (k : string -> bool) (s : string) : bool :=
  match s with
  | EmptyString => false
  | String c rest => class c && (many1 class k rest || k rest)
  end.

(** A match of [r] at the start of [s], then [k] on the rest. *)
Fixpoint accept (r : regex) (k : string -> bool) (s : string) : bool :=
  match r with
  | Char c =>
      match s with
      | String c' rest => Ascii.eqb c c' && k rest
      | EmptyString => false
      end
  | Many1 class => many1 class k s
  | Seq r1 r2 => accept r1 (accept r2 k) s
  end.

(** [/^r$/.test(s)] *)
Definition test (r : regex) (s : string) : bool :=
  accept r (fun rest => String.eqb rest "") s.

(** [[^\s@]] *)
Definition notSpaceAt (c : ascii) : bool :=
  negb (Server.isSpace c) && negb (Ascii.eqb c "@").

(** [/^[^\s@]+@[^\s@]+\.[^\s@]+$/] *)
Definition emailRegex : regex :=
  Seq (Many1 notSpaceAt)
      (Seq (Char "@")
           (Seq (Many1 notSpaceAt)
                (Seq (Char ".") (Many1 notSpaceAt)))).

(** [validateUserEmail] before a handler [next]. *)
Definition validateUserEmail {A} (userEmail : string) (next : response A) : response A :=
  if negb (truthy (Some (VStr userEmail))) then
    Resp 400 (Failure "User email is required")
  else if negb (test emailRegex userEmail) then
    Resp 400 (Failure "Invalid email format")
  else next.

(** A non-empty string of characters that are neither white space nor
    [@]. *)
Fixpoint allChars (class : ascii -> bool) (s : string) : bool :=
  match s with
  | EmptyString => true
  | String c rest => class c && allChars class rest
  end.

Definition plain (s : string) : Prop := s ≠ "" ∧ allChars notSpaceAt s = true.

End Validate.

(** ** Sample data

    A storage layer that converts nothing, a validation chain that
    accepts everything, and requests used to exercise the routes. *)

Module Samples.

Definition refuse {A : Type} : value -> option A := fun _ => None.

Definition acceptAll : obj -> list string := fun _ => [].

(** An ObjectId is sent as its string. *)
Definition objectIdOfString (v : value) : option string :=
  match v with
  | VStr s => Some s
  | _ => None
  end.

(** A storage layer that keeps a nested object as it is sent and refuses
    every other value; a new document needs its [specs]. *)
Definition keepObject (v : value) : result value :=
  match v with
  | VObj _ => Ok v
  | _ => Throw "Cast to Object failed"
  end.

Definition keepSpecs (v : option value) : result value :=
  match v with
  | Some x => keepObject x
  | None => Throw "Path `specs.type` is required."
  end.

Definition keepConfiguration (v : option value) : result (option value) :=
  match v with
  | Some x => c ← keepObject x; Ok (Some c)
  | None => Ok None
  end.

(** A storage layer that adds to the nested object of a new document the
    array paths of the schema that the object lacks, as empty arrays. *)
Definition withArrays (paths : list string) (o : obj) : obj :=
  foldr (fun path acc => match acc !! path with
                         | Some _ => acc
                         | None => <[path := VArr []]> acc
                         end) o paths.

Definition arraySpecs (v : option value) : result value :=
  match v with
  | Some (VObj o) => Ok (VObj (withArrays ["text"; "overlays"] o))
  | _ => Throw "Path `specs.type` is required."
  end.

Definition arrayConfiguration (v : option value) : result (option value) :=
  match v with
  | Some (VObj o) =>
      Ok (Some (VObj (withArrays ["textElements"; "imageTextOverlays"; "appliedOverlays";
                                  "uploadedImages"] o)))
  | Some _ => Throw "Cast to Object failed"
  | None =>
      Ok (Some (VObj (withArrays ["textElements"; "imageTextOverlays"; "appliedOverlays";
                                  "uploadedImages"] ∅)))
  end.

Definition specs : value :=
  VObj (list_to_map
          [("type", VStr "normal"); ("size", VStr "400x900"); ("thickness", VStr "3mm")]).

Definition hostedUrl : string :=
  "https://res.cloudinary.com/demo/image/upload/v1/mousepad/final/a1.jpg".

Definition cartFields (userEmail : string) : list (string * value) :=
  [("userEmail", VStr userEmail); ("id", VStr "a1");
   ("price", VNum 10); ("quantity", VNum 2); ("currency", VStr "USD");
   ("image", VStr hostedUrl); ("finalImage", VStr hostedUrl);
   ("originalImageUrl", VStr hostedUrl); ("specs", specs)].

(** A valid payload of owner [ann@example.com] with id [a1]. *)
Definition hostedBody : obj := list_to_map (cartFields "ann@example.com").

(** The same id sent by another owner. *)
Definition otherOwnerBody : obj := list_to_map (cartFields "bob@example.com").

(** Inline data in [finalImage], after an [image] that is not a string. *)
Definition inlineData : string := "data:image/png;base64,AAAA".

Definition inlineBody : obj :=
  <["image" := VNum 42]> (<["finalImage" := VStr inlineData]> hostedBody).

(** A payload with embedded image data in its configuration. *)
Definition embeddedFields : list (string * value) :=
  ("configuration",
   VObj (list_to_map
           [("mousepadType", VStr "normal");
            ("uploadedImages", VArr [VStr inlineData]);
            ("logoFile", VStr inlineData);
            ("imageSettings",
             VObj (list_to_map [("zoom", VNum 2); ("uploadedImage", VStr inlineData)]))]))
  :: cartFields "ann@example.com".

Definition embeddedBody : obj := list_to_map embeddedFields.

(** The item that the first sample payload creates at time 1, and the
    store that holds it. *)
Definition firstItem : Cart.CartItem :=
  {| Cart.ci_userEmail := "ann@example.com"; Cart.ci_id := "a1";
     Cart.ci_name := "Custom Mousepad"; Cart.ci_quantity := 2; Cart.ci_price := 10;
     Cart.ci_currency := "USD"; Cart.ci_image := hostedUrl;
     Cart.ci_finalImage := hostedUrl; Cart.ci_originalImageUrl := hostedUrl;
     Cart.ci_specs := specs;
     Cart.ci_configuration := None;
     Cart.ci_createdAt := 1; Cart.ci_updatedAt := 1 |}.

Definition oneItem : Cart.store := [firstItem].

(** A cart item of user [u1] and a checkout of it whose line also carries
    a price and a name of its own. *)
Definition cartItem1 : Checkout.CartItem :=
  {| Checkout.ci_id := "64b7f0c2a1b2c3d4e5f60001"; Checkout.ci_userId := "u1";
     Checkout.ci_name := "Custom Mousepad"; Checkout.ci_quantity := 2;
     Checkout.ci_price := 10; Checkout.ci_currency := "USD";
     Checkout.ci_finalImage := hostedUrl; Checkout.ci_originalImageUrl := hostedUrl;
     Checkout.ci_mousepadType := "normal"; Checkout.ci_mousepadSize := "400x900";
     Checkout.ci_thickness := "3mm"; Checkout.ci_status := "pending" |}.

Definition customer : value :=
  VObj (list_to_map
          [("firstName", VStr "Ann"); ("lastName", VStr "Lee");
           ("email", VStr "ann@example.com"); ("phone", VStr "555-0100");
           ("address",
            VObj (list_to_map
                    [("street", VStr "1 Main St"); ("city", VStr "Springfield");
                     ("state", VStr "IL"); ("zipCode", VStr "62701")]))]).

Definition orderLine : value :=
  VObj (list_to_map
          [("cartItemId", VStr "64b7f0c2a1b2c3d4e5f60001");
           ("price", VNum 0); ("name", VStr "free")]).

Definition checkoutBody : obj :=
  list_to_map
    [("items", VArr [orderLine]); ("subtotal", VNum 20); ("total", VNum 20);
     ("customerInfo", customer)].

(** A checkout that names a cart item nobody owns. *)
Definition strayBody : obj :=
  <["items" := VArr [VObj (list_to_map [("cartItemId", VStr "64b7f0c2a1b2c3d4e5f60002")])]]>
    checkoutBody.

(** The order that the sample checkout creates at time 5. *)
Definition placedOrder : Checkout.Order :=
  {| Checkout.o_id := "64b7f0c2a1b2c3d4e5f6aaaa"; Checkout.o_userId := "u1";
     Checkout.o_items :=
       [Checkout.snapshot "64b7f0c2a1b2c3d4e5f60001" cartItem1];
     Checkout.o_subtotal := 20; Checkout.o_shipping := 0; Checkout.o_tax := 0;
     Checkout.o_total := 20; Checkout.o_currency := "USD";
     Checkout.o_customerInfo :=
       {| Checkout.firstName := Some "Ann"; Checkout.lastName := Some "Lee";
          Checkout.email := Some "ann@example.com"; Checkout.phone := Some "555-0100";
          Checkout.address :=
            {| Checkout.street := Some "1 Main St"; Checkout.city := Some "Springfield";
               Checkout.state := Some "IL"; Checkout.zipCode := Some "62701";
               Checkout.country := "United States" |};
          Checkout.additionalNotes := "" |};
     Checkout.o_status := "pending"; Checkout.o_paymentStatus := "pending";
     Checkout.o_paymentTransactionId := None;
     Checkout.o_createdAt := 5; Checkout.o_updatedAt := 5 |}.

Definition paymentBody : obj := list_to_map [("status", VStr "completed")].

(** An update of the quantity by the owner of the first item, and the
    item that it leaves at time 2. *)
Definition quantityPut : obj :=
  list_to_map [("userEmail", VStr "ann@example.com"); ("quantity", VNum 5)].

Definition updatedItem : Cart.CartItem :=
  {| Cart.ci_userEmail := "ann@example.com"; Cart.ci_id := "a1";
     Cart.ci_name := "Custom Mousepad"; Cart.ci_quantity := 5; Cart.ci_price := 10;
     Cart.ci_currency := "USD"; Cart.ci_image := hostedUrl;
     Cart.ci_finalImage := hostedUrl; Cart.ci_originalImageUrl := hostedUrl;
     Cart.ci_specs := specs;
     Cart.ci_configuration := None;
     Cart.ci_createdAt := 1; Cart.ci_updatedAt := 2 |}.

(** An update with inline data in [finalImage]. *)
Definition inlinePut : obj :=
  list_to_map [("userEmail", VStr "ann@example.com"); ("finalImage", VStr inlineData)].

(** A storage layer that turns a boolean into its name. *)
Definition booleanString (v : value) : option string :=
  match v with
  | VBool true => Some "true"
  | VBool false => Some "false"
  | _ => None
  end.

(** An update that sends [false] for the image, and the item that it
    leaves at time 2 under that storage layer. *)
Definition falsePut : obj :=
  list_to_map [("userEmail", VStr "ann@example.com"); ("image", VBool false)].

Definition falseItem : Cart.CartItem :=
  {| Cart.ci_userEmail := "ann@example.com"; Cart.ci_id := "a1";
     Cart.ci_name := "Custom Mousepad"; Cart.ci_quantity := 2; Cart.ci_price := 10;
     Cart.ci_currency := "USD"; Cart.ci_image := "false";
     Cart.ci_finalImage := hostedUrl; Cart.ci_originalImageUrl := hostedUrl;
     Cart.ci_specs := specs;
     Cart.ci_configuration := None;
     Cart.ci_createdAt := 1; Cart.ci_updatedAt := 2 |}.

(** A request of user [u1], and a checkout that names the cart item
    twice. *)
Definition userRequest : obj := list_to_map [("userId", VStr "u1")].

(** A request of another user. *)
Definition otherRequest : obj := list_to_map [("userId", VStr "u2")].

Definition repeatedBody : obj := <["items" := VArr [orderLine; orderLine]]> checkoutBody.

(** The placed order after the sample payment at time 9. *)
Definition paidOrder : Checkout.Order :=
  {| Checkout.o_id := "64b7f0c2a1b2c3d4e5f6aaaa"; Checkout.o_userId := "u1";
     Checkout.o_items :=
       [Checkout.snapshot "64b7f0c2a1b2c3d4e5f60001" cartItem1];
     Checkout.o_subtotal := 20; Checkout.o_shipping := 0; Checkout.o_tax := 0;
     Checkout.o_total := 20; Checkout.o_currency := "USD";
     Checkout.o_customerInfo := Checkout.o_customerInfo placedOrder;
     Checkout.o_status := "processing"; Checkout.o_paymentStatus := "completed";
     Checkout.o_paymentTransactionId := None;
     Checkout.o_createdAt := 5; Checkout.o_updatedAt := 9 |}.

(** The parts of the sample URL before [upload]. *)
Definition hostedPrefix : list string :=
  ["https:"; ""; "res.cloudinary.com"; "demo"; "image"].

(** An image type, and a media store that accepts every upload. *)
Definition mainImage : Uploads.imageType :=
  {| Uploads.folder := "mousepad/main";
     Uploads.transformation := list_to_map [("quality", VStr "auto")] |}.

Definition uploadOk (file folder : string) (transformation : obj) : result string :=
  Ok ("https://res.cloudinary.com/demo/image/upload/" +:+ folder +:+ "/a1.jpg").

(** A hosted URL without the [upload] part, and a regular expression
    engine that matches nothing. *)
Definition strayUrl : string := "https://res.cloudinary.com/demo/a1.jpg".

Definition matchNothing (pattern origin : string) : bool := false.

End Samples.

(** * Properties *)

#[local] Arguments truthy : simpl never.

(** ** Sequencing in [result] *)

Lemma bind_Ok {A B} (c : result A) (k : A → result B) (b : B) :
  c ≫= k = Ok b ↔ ∃ a, c = Ok a ∧ k a = Ok b.
Proof.
  destruct c as [a|m]; simpl.
  - split; [eauto|]. by intros (? & [= <-] & ?).
  - split; [done|]. by intros (? & ? & ?).
Qed.

Lemma bind_Throw {A B} (c : result A) (k : A → result B) (m : string) :
  c ≫= k = Throw m ↔ c = Throw m ∨ ∃ a, c = Ok a ∧ k a = Throw m.
Proof.
  destruct c as [a|m']; simpl.
  - split; [eauto|]. by intros [?|(? & [= <-] & ?)].
  - split; [intros [= <-]; auto|]. by intros [[= ->]|(? & ? & ?)].
Qed.


(** Splits a hypothesis [x ← c; k = Ok b] into its steps. *)
Ltac unbind H :=
  repeat match type of H with
         | _ ≫= _ = Ok _ =>
             let a := fresh "a" in
             let Ha := fresh "Ha" in
             apply bind_Ok in H as (a & Ha & H)
         end.

(** ** The sanitizer *)

Lemma assign_lookup (k : string) (o : obj) : assign k (o !! k) o = o.
Proof.
  unfold assign. destruct (o !! k) eqn:E.
  - by apply insert_id.
  - by apply delete_id.
Qed.

Lemma ensureHostedImage_Ok v field allowMissing r :
  ensureHostedImage v field allowMissing = Ok r →
  r = v ∧ (if truthy v then Cart.hosted v else allowMissing = true).
Proof.
  unfold ensureHostedImage. destruct (truthy v) eqn:T; simpl.
  - destruct v as [[]|]; try discriminate.
    destruct (startsWith s "data:") eqn:P; [discriminate|].
    intros [= <-]. split; [done|]. by exists s.
  - destruct allowMissing; [|discriminate]. by intros [= <-].
Qed.

Lemma checkSupplied_Ok f partial o o' :
  checkSupplied f partial o = Ok o' →
  o' = o ∧ (truthy (o !! f) = true → Cart.hosted (o !! f)).
Proof.
  unfold checkSupplied. intros H. unbind H. injection H as <-.
  destruct (truthy (o !! f)) eqn:T.
  - apply ensureHostedImage_Ok in Ha as [-> Hh]. rewrite T in Hh.
    by rewrite assign_lookup.
  - injection Ha as <-. by rewrite assign_lookup.
Qed.

Lemma checkRequired_Ok f o o' :
  checkRequired f o = Ok o' → o' = o ∧ Cart.hosted (o !! f).
Proof.
  unfold checkRequired. intros H. unbind H. injection H as <-.
  apply ensureHostedImage_Ok in Ha as [-> Hh].
  rewrite assign_lookup. split; [done|].
  by destruct (truthy (o !! f)).
Qed.

(** A payload passes the full check exactly when its three image fields
    are hosted; the result is the clone with the configuration reduced. *)
Lemma sanitize_full_Ok payload sanitized :
  sanitizeCartPayload payload false = Ok sanitized →
  Cart.hosted (clonePayload payload !! "image") ∧
  Cart.hosted (clonePayload payload !! "finalImage") ∧
  Cart.hosted (clonePayload payload !! "originalImageUrl") ∧
  sanitized = stripEmbedded (reduceImageSettings (clonePayload payload)).
Proof.
  unfold sanitizeCartPayload. cbn zeta. intros H. unbind H.
  apply checkSupplied_Ok in Ha as [-> _].
  apply checkSupplied_Ok in Ha0 as [-> _].
  apply checkSupplied_Ok in Ha1 as [-> _].
  simpl in Ha2. unbind Ha2.
  apply checkRequired_Ok in Ha as [-> H1].
  apply checkRequired_Ok in Ha0 as [-> H2].
  apply checkRequired_Ok in Ha2 as [-> H3].
  by injection H as <-.
Qed.

Lemma ensureHostedImage_hosted v field allowMissing :
  Cart.hosted v → ensureHostedImage v field allowMissing = Ok v.
Proof.
  intros (s & -> & T & Hn). unfold ensureHostedImage. by rewrite T, Hn.
Qed.

Lemma sanitize_full_intro payload :
  Cart.hosted (clonePayload payload !! "image") →
  Cart.hosted (clonePayload payload !! "finalImage") →
  Cart.hosted (clonePayload payload !! "originalImageUrl") →
  sanitizeCartPayload payload false
  = Ok (stripEmbedded (reduceImageSettings (clonePayload payload))).
Proof.
  intros H1 H2 H3.
  assert (∀ f o, Cart.hosted (o !! f) → checkSupplied f false o = Ok o) as Hs.
  { intros f o H. unfold checkSupplied.
    destruct H as (s & E & T & Hn). rewrite T.
    rewrite (ensureHostedImage_hosted (o !! f) f false) by by exists s.
    simpl. by rewrite assign_lookup. }
  assert (∀ f o, Cart.hosted (o !! f) → checkRequired f o = Ok o) as Hr.
  { intros f o H. unfold checkRequired.
    rewrite (ensureHostedImage_hosted (o !! f) f false) by done.
    simpl. by rewrite assign_lookup. }
  unfold sanitizeCartPayload. cbn zeta.
  rewrite (Hs "image") by done. cbn [mbind result_bind].
  rewrite (Hs "finalImage") by done. cbn [mbind result_bind].
  rewrite (Hs "originalImageUrl") by done. cbn [mbind result_bind negb].
  rewrite (Hr "image") by done. cbn [mbind result_bind].
  rewrite (Hr "finalImage") by done. cbn [mbind result_bind].
  rewrite (Hr "originalImageUrl") by done. done.
Qed.

Lemma sanitize_partial_Ok payload sanitized :
  sanitizeCartPayload payload true = Ok sanitized →
  sanitized = stripEmbedded (reduceImageSettings (clonePayload payload)).
Proof.
  unfold sanitizeCartPayload. cbn zeta. intros H. unbind H.
  apply checkSupplied_Ok in Ha as [-> _].
  apply checkSupplied_Ok in Ha0 as [-> _].
  apply checkSupplied_Ok in Ha1 as [-> _].
  simpl in Ha2. injection Ha2 as <-.
  by injection H as <-.
Qed.

(** The reduction of the configuration leaves every other key alone. *)
Lemma reduce_strip_other (o : obj) k :
  k ≠ "configuration" →
  stripEmbedded (reduceImageSettings o) !! k = o !! k.
Proof.
  intros Hk. unfold stripEmbedded.
  assert (reduceImageSettings o !! k = o !! k) as Hr.
  { unfold reduceImageSettings.
    destruct (truthy (imageSettingsOf o)); [|done].
    destruct (o !! "configuration"); [|done].
    destruct (imageSettingsOf o); [|done].
    by rewrite lookup_insert_ne. }
  destruct (truthy (reduceImageSettings o !! "configuration")); [|done].
  destruct (reduceImageSettings o !! "configuration"); [|done].
  by rewrite lookup_insert_ne.
Qed.

Lemma pickImageSettings_lookup s k :
  pickImageSettings s !! k =
  if bool_decide (k ∈ imageSettingsFields) then getprop s k else None.
Proof.
  unfold pickImageSettings, imageSettingsFields. simpl.
  assert (∀ (j : string) (o : obj),
            assign j (getprop s j) o !! k = if decide (j = k) then getprop s k else o !! k)
    as Ha.
  { intros j o. unfold assign. destruct (decide (j = k)) as [->|Hne].
    - destruct (getprop s k); [by rewrite lookup_insert_eq|by rewrite lookup_delete_eq].
    - destruct (getprop s j); [by rewrite lookup_insert_ne|by rewrite lookup_delete_ne]. }
  rewrite !Ha, lookup_empty.
  case_bool_decide as Hin.
  - repeat case_decide; try done. exfalso.
    rewrite !elem_of_cons, elem_of_nil in Hin. intuition congruence.
  - repeat case_decide; try done; subst; exfalso; apply Hin;
      rewrite !elem_of_cons; tauto.
Qed.

(** Cloning a parsed body gives the body back. *)
Lemma stringify_json v : json v → stringify v = Some v.
Proof.
  induction 1 as [| | | |l _ IH|o _ IH]; simpl; try done.
  - f_equal. f_equal. apply list_eq. intros i. rewrite list_lookup_fmap.
    destruct (l !! i) as [v|] eqn:E; [|done]. simpl. by rewrite (IH i v E).
  - f_equal. f_equal. apply map_eq. intros k. rewrite lookup_omap.
    destruct (o !! k) as [v|] eqn:E; [|done]. simpl. by apply (IH k).
Qed.

Lemma clonePayload_json payload : json (VObj payload) → clonePayload payload = payload.
Proof. intros H. apply stringify_json in H. simpl in H. by injection H. Qed.

Lemma clonePayload_str payload k s :
  payload !! k = Some (VStr s) → clonePayload payload !! k = Some (VStr s).
Proof. intros H. unfold clonePayload. by rewrite lookup_omap, H. Qed.


Lemma sanitized_configuration_obj (o c : obj) :
  o !! "configuration" = Some (VObj c) →
  stripEmbedded (reduceImageSettings o) !! "configuration"
  = Some (VObj (reducedConfiguration c)).
Proof.
  intros Hc. unfold stripEmbedded, reduceImageSettings, imageSettingsOf, reducedConfiguration.
  rewrite Hc. simpl.
  destruct (c !! "imageSettings") as [original|] eqn:E.
  - destruct (truthy (Some original)) eqn:T.
    + rewrite lookup_insert_eq.
      assert (truthy (Some (VObj (<["imageSettings" := VObj (pickImageSettings original)]> c)))
              = true) as -> by done.
      simpl. by rewrite lookup_insert_eq.
    + rewrite Hc. assert (truthy (Some (VObj c)) = true) as -> by done.
      simpl. by rewrite lookup_insert_eq.
  - assert (truthy None = false) as -> by done.
    rewrite Hc. assert (truthy (Some (VObj c)) = true) as -> by done.
    simpl. by rewrite lookup_insert_eq.
Qed.

Lemma sanitized_configuration_other (o : obj) :
  (∀ c, o !! "configuration" ≠ Some (VObj c)) →
  stripEmbedded (reduceImageSettings o) = o.
Proof.
  intros Hc.
  assert (reduceImageSettings o = o) as ->.
  { unfold reduceImageSettings, imageSettingsOf.
    destruct (o !! "configuration") as [[]|] eqn:E; try done.
    by destruct (Hc o0). }
  unfold stripEmbedded.
  destruct (o !! "configuration") as [v|] eqn:E; [|done].
  destruct (truthy (Some v)); [|done].
  apply insert_id. rewrite E. f_equal.
  destruct v; try done. by destruct (Hc o0).
Qed.

Lemma reducedConfiguration_clean c : Cart.cleanConfiguration (reducedConfiguration c).
Proof.
  unfold Cart.cleanConfiguration, reducedConfiguration. split_and!.
  - rewrite lookup_delete_ne by done. by rewrite lookup_delete_eq.
  - by rewrite lookup_delete_eq.
  - rewrite !lookup_delete_ne by done.
    destruct (c !! "imageSettings") as [original|] eqn:E.
    + destruct (truthy (Some original)) eqn:T.
      * rewrite lookup_insert_eq. intros _. eexists. split; [done|].
        intros k Hk. rewrite pickImageSettings_lookup. by rewrite bool_decide_eq_false_2.
      * rewrite E. congruence.
    + rewrite E. done.
Qed.

Lemma reducedConfiguration_other c k :
  k ∉ ["imageSettings"; "uploadedImages"; "logoFile"] →
  reducedConfiguration c !! k = c !! k.
Proof.
  rewrite !not_elem_of_cons. intros (H1 & H2 & H3 & _).
  unfold reducedConfiguration. rewrite !lookup_delete_ne by done.
  destruct (c !! "imageSettings") as [original|]; [|done].
  destruct (truthy (Some original)); [|done].
  by rewrite lookup_insert_ne.
Qed.

Lemma reducedConfiguration_imageSettings c :
  reducedConfiguration c !! "imageSettings" =
  match c !! "imageSettings" with
  | Some original =>
      if truthy (Some original) then Some (VObj (pickImageSettings original))
      else Some original
  | None => None
  end.
Proof.
  unfold reducedConfiguration. rewrite !lookup_delete_ne by done.
  destruct (c !! "imageSettings") as [original|] eqn:E; [|done].
  destruct (truthy (Some original)); [|done].
  by rewrite lookup_insert_eq.
Qed.

(** ** The cart store *)

#[local] Arguments Cart.applyUpdate : simpl never.

Section CartProperties.

Import Cart.

Variable convertString : value → option string.
Variable convertNumber : value → option Q.
Variable newSpecs : option value → result value.
Variable newConfiguration : option value → result (option value).
Variable setSpecs : value → result value.
Variable setConfiguration : value → result value.

#[local] Abbreviation castString := (castString convertString).
#[local] Abbreviation castNumber := (castNumber convertNumber).
#[local] Abbreviation castFilter := (castFilter convertString).
#[local] Abbreviation newDocument :=
  (newDocument convertString convertNumber newSpecs newConfiguration).
#[local] Abbreviation castUpdate :=
  (castUpdate convertString convertNumber setSpecs setConfiguration).
#[local] Abbreviation updateCartItem :=
  (updateCartItem convertString convertNumber setSpecs setConfiguration).
#[local] Abbreviation addOrUpdateItem :=
  (addOrUpdateItem convertString convertNumber newSpecs newConfiguration
     setSpecs setConfiguration).
#[local] Abbreviation resubmit :=
  (resubmit convertString convertNumber newSpecs newConfiguration setSpecs setConfiguration).
#[local] Abbreviation run :=
  (run convertString convertNumber newSpecs newConfiguration setSpecs setConfiguration).
#[local] Abbreviation storedAs := (storedAs convertString convertNumber).
#[local] Abbreviation removeItem := (removeItem convertString).

Lemma castFilter_Some v s :
  castFilter v = Ok (Some s) ↔ ∃ x, v = Some x ∧ castString x = Ok s.
Proof.
  unfold Cart.castFilter. split.
  - destruct v as [x|]; [|done]. intros H. exists x. split; [done|].
    destruct x; try done;
      apply bind_Ok in H as (s' & Hs & [= <-]); done.
  - intros (x & -> & Hx).
    destruct x; try done; by rewrite Hx.
Qed.

Lemma requiredString_present path dflt x s :
  requiredString convertString path dflt (Some x) = Ok s → castString x = Ok s.
Proof.
  unfold requiredString. intros H.
  apply bind_Ok in H as (s' & Hs & H).
  destruct (String.eqb s' ""); [done|]. by injection H as <-.
Qed.

Lemma requiredString_required path x s :
  requiredString convertString path None x = Ok s →
  ∃ v, x = Some v ∧ castString v = Ok s ∧ s ≠ "".
Proof.
  unfold requiredString. intros H.
  apply bind_Ok in H as (s' & Hs & H).
  destruct (String.eqb s' "") eqn:E; [done|]. injection H as <-.
  apply String.eqb_neq in E.
  destruct x as [v|]; [|done]. eauto.
Qed.

Lemma requiredNumber_present path dflt m x q :
  requiredNumber convertNumber path dflt m (Some x) = Ok q → castNumber x = Ok q.
Proof.
  unfold requiredNumber. intros H.
  apply bind_Ok in H as (q' & Hq & H).
  destruct (Qle_bool m q'); [|done]. by injection H as <-.
Qed.

(** What [create] stores for a payload. *)
Lemma newDocument_Ok now data doc :
  newDocument now data = Ok doc →
  castFilter (data !! "id") = Ok (Some (ci_id doc)) ∧
  castFilter (data !! "userEmail") = Ok (Some (ci_userEmail doc)) ∧
  ci_createdAt doc = now ∧ ci_updatedAt doc = now ∧
  newSpecs (data !! "specs") = Ok (ci_specs doc) ∧
  newConfiguration (data !! "configuration") = Ok (ci_configuration doc) ∧
  storedAs data doc.
Proof.
  unfold Cart.newDocument. intros H.
  apply bind_Ok in H as (userEmail & HuserEmail & H).
  apply bind_Ok in H as (id & Hid & H).
  apply bind_Ok in H as (name & Hname & H).
  apply bind_Ok in H as (quantity & Hquantity & H).
  apply bind_Ok in H as (price & Hprice & H).
  apply bind_Ok in H as (currency & Hcurrency & H).
  apply bind_Ok in H as (image & Himage & H).
  apply bind_Ok in H as (finalImage & HfinalImage & H).
  apply bind_Ok in H as (originalImageUrl & HoriginalImageUrl & H).
  apply bind_Ok in H as (specs & Hspecs & H).
  apply bind_Ok in H as (configuration & Hconfiguration & H).
  injection H as <-. simpl.
  pose proof HuserEmail as HuserEmail'. pose proof Hid as Hid'.
  apply requiredString_required in HuserEmail' as (ve & Eve & Hve & _).
  apply requiredString_required in Hid' as (vi & Evi & Hvi & _).
  split_and!; try done.
  - apply castFilter_Some. eauto.
  - apply castFilter_Some. eauto.
  - unfold Cart.storedAs. simpl. split_and!.
    + intros v Ev. congruence.
    + intros v Ev. congruence.
    + intros v Ev. rewrite Ev in Hname. by apply requiredString_present in Hname.
    + intros v Ev. rewrite Ev in Hquantity. by apply requiredNumber_present in Hquantity.
    + intros v Ev. rewrite Ev in Hprice. by apply requiredNumber_present in Hprice.
    + intros v Ev. rewrite Ev in Hcurrency.
      apply bind_Ok in Hcurrency as (c & Hc & Hcurrency).
      unfold checkEnum in Hcurrency. case_bool_decide; [|done]. by injection Hcurrency as <-.
    + intros v Ev. rewrite Ev in Himage. by apply requiredString_present in Himage.
    + intros v Ev. rewrite Ev in HfinalImage. by apply requiredString_present in HfinalImage.
    + intros v Ev. rewrite Ev in HoriginalImageUrl.
      by apply requiredString_present in HoriginalImageUrl.
Qed.

(** The defaults of a new document. *)
Lemma newDocument_defaults now data doc :
  newDocument now data = Ok doc → defaultsWhereAbsent data doc.
Proof.
  unfold Cart.newDocument. intros H.
  apply bind_Ok in H as (userEmail & HuserEmail & H).
  apply bind_Ok in H as (id & Hid & H).
  apply bind_Ok in H as (name & Hname & H).
  apply bind_Ok in H as (quantity & Hquantity & H).
  apply bind_Ok in H as (price & Hprice & H).
  apply bind_Ok in H as (currency & Hcurrency & H).
  apply bind_Ok in H as (image & Himage & H).
  apply bind_Ok in H as (finalImage & HfinalImage & H).
  apply bind_Ok in H as (originalImageUrl & HoriginalImageUrl & H).
  apply bind_Ok in H as (specs & Hspecs & H).
  apply bind_Ok in H as (configuration & Hconfiguration & H).
  injection H as <-. unfold defaultsWhereAbsent. simpl. split_and!; intros Ev.
  - rewrite Ev in Hname. by injection Hname as <-.
  - rewrite Ev in Hquantity. by injection Hquantity as <-.
  - rewrite Ev in Hcurrency. by injection Hcurrency as <-.
Qed.

(** *** The cast of an update *)

Lemma castPath_Ok {A} (cast : value → result A) v r :
  castPath cast v = Ok r ↔
  (v = None ∧ r = None) ∨ ∃ x a, v = Some x ∧ cast x = Ok a ∧ r = Some a.
Proof.
  unfold castPath. destruct v as [x|].
  - rewrite bind_Ok. split.
    + intros (a & Ha & [= <-]). right. eauto.
    + intros [[? _]|(x' & a & [= <-] & Ha & ->)]; [done|]. eauto.
  - split.
    + intros [= <-]. by left.
    + intros [[_ ->]|(x' & a & ? & _)]; done.
Qed.

Lemma castPath_absent {A} (cast : value → result A) v r :
  castPath cast v = Ok r → v = None → r = None.
Proof. intros H ->. by injection H. Qed.

Lemma castPath_present {A} (cast : value → result A) v r x :
  castPath cast v = Ok r → v = Some x → ∃ a, cast x = Ok a ∧ r = Some a.
Proof.
  intros H ->. apply castPath_Ok in H as [[? _]|(x' & a & [= <-] & Ha & ->)]; [done|].
  eauto.
Qed.

(** The steps of the cast of an update. *)
Lemma castUpdate_Ok updates u :
  castUpdate updates = Ok u ↔
  castPath castString (updates !! "userEmail") = Ok (u_userEmail u) ∧
  castPath castString (updates !! "id") = Ok (u_id u) ∧
  castPath castString (updates !! "name") = Ok (u_name u) ∧
  castPath castNumber (updates !! "quantity") = Ok (u_quantity u) ∧
  castPath castNumber (updates !! "price") = Ok (u_price u) ∧
  castPath castString (updates !! "currency") = Ok (u_currency u) ∧
  castPath castString (updates !! "image") = Ok (u_image u) ∧
  castPath castString (updates !! "finalImage") = Ok (u_finalImage u) ∧
  castPath castString (updates !! "originalImageUrl") = Ok (u_originalImageUrl u) ∧
  castPath setSpecs (updates !! "specs") = Ok (u_specs u) ∧
  castPath setConfiguration (updates !! "configuration") = Ok (u_configuration u).
Proof.
  unfold Cart.castUpdate. split.
  - intros H.
    apply bind_Ok in H as (? & H1 & H). apply bind_Ok in H as (? & H2 & H).
    apply bind_Ok in H as (? & H3 & H). apply bind_Ok in H as (? & H4 & H).
    apply bind_Ok in H as (? & H5 & H). apply bind_Ok in H as (? & H6 & H).
    apply bind_Ok in H as (? & H7 & H). apply bind_Ok in H as (? & H8 & H).
    apply bind_Ok in H as (? & H9 & H). apply bind_Ok in H as (? & H10 & H).
    apply bind_Ok in H as (? & H11 & H).
    injection H as <-. by split_and!.
  - intros (H1 & H2 & H3 & H4 & H5 & H6 & H7 & H8 & H9 & H10 & H11).
    rewrite H1, H2, H3, H4, H5, H6, H7, H8, H9, H10, H11.
    cbn [mbind result_bind]. by destruct u.
Qed.

(** Where an update holds a String or Number path, the updated document
    has its cast; the key and the time of creation are kept where it
    does not. *)
Lemma applyUpdate_storedAs now updates u doc :
  castUpdate updates = Ok u → storedAs updates (applyUpdate now u doc).
Proof.
  intros (H1 & H2 & H3 & H4 & H5 & H6 & H7 & H8 & H9 & _)%castUpdate_Ok.
  unfold Cart.storedAs, applyUpdate. simpl.
  split_and!; intros v Ev.
  - destruct (castPath_present _ _ _ v H1 Ev) as (a & Ha & ->). done.
  - destruct (castPath_present _ _ _ v H2 Ev) as (a & Ha & ->). done.
  - destruct (castPath_present _ _ _ v H3 Ev) as (a & Ha & ->). done.
  - destruct (castPath_present _ _ _ v H4 Ev) as (a & Ha & ->). done.
  - destruct (castPath_present _ _ _ v H5 Ev) as (a & Ha & ->). done.
  - destruct (castPath_present _ _ _ v H6 Ev) as (a & Ha & ->). done.
  - destruct (castPath_present _ _ _ v H7 Ev) as (a & Ha & ->). done.
  - destruct (castPath_present _ _ _ v H8 Ev) as (a & Ha & ->). done.
  - destruct (castPath_present _ _ _ v H9 Ev) as (a & Ha & ->). done.
Qed.

Lemma applyUpdate_nested now updates u doc :
  castUpdate updates = Ok u →
  (∀ v, updates !! "specs" = Some v → setSpecs v = Ok (ci_specs (applyUpdate now u doc))) ∧
  (updates !! "specs" = None → ci_specs (applyUpdate now u doc) = ci_specs doc) ∧
  (∀ v, updates !! "configuration" = Some v →
        ∃ c, setConfiguration v = Ok c ∧
             ci_configuration (applyUpdate now u doc) = Some c) ∧
  (updates !! "configuration" = None →
   ci_configuration (applyUpdate now u doc) = ci_configuration doc).
Proof.
  intros (_ & _ & _ & _ & _ & _ & _ & _ & _ & H10 & H11)%castUpdate_Ok.
  unfold applyUpdate. simpl. split_and!.
  - intros v Ev. destruct (castPath_present _ _ _ v H10 Ev) as (a & Ha & ->). done.
  - intros Ev. by rewrite (castPath_absent _ _ _ H10 Ev).
  - intros v Ev. destruct (castPath_present _ _ _ v H11 Ev) as (a & Ha & ->). eauto.
  - intros Ev. by rewrite (castPath_absent _ _ _ H11 Ev).
Qed.

(** A path that the update does not hold keeps its value. *)
Lemma applyUpdate_kept now updates u doc :
  castUpdate updates = Ok u → keptWhereAbsent updates doc (applyUpdate now u doc).
Proof.
  intros (_ & _ & H3 & H4 & H5 & H6 & H7 & H8 & H9 & H10 & H11)%castUpdate_Ok.
  unfold keptWhereAbsent, applyUpdate. simpl. split_and!; try done; intros Ev.
  - by rewrite (castPath_absent _ _ _ H3 Ev).
  - by rewrite (castPath_absent _ _ _ H4 Ev).
  - by rewrite (castPath_absent _ _ _ H5 Ev).
  - by rewrite (castPath_absent _ _ _ H6 Ev).
  - by rewrite (castPath_absent _ _ _ H7 Ev).
  - by rewrite (castPath_absent _ _ _ H8 Ev).
  - by rewrite (castPath_absent _ _ _ H9 Ev).
  - by rewrite (castPath_absent _ _ _ H10 Ev).
  - by rewrite (castPath_absent _ _ _ H11 Ev).
Qed.

Lemma applyUpdate_key now updates u doc :
  castUpdate updates = Ok u →
  (updates !! "id" = None → ci_id (applyUpdate now u doc) = ci_id doc) ∧
  (∀ v, updates !! "id" = Some v → castString v = Ok (ci_id (applyUpdate now u doc))) ∧
  (updates !! "userEmail" = None →
   ci_userEmail (applyUpdate now u doc) = ci_userEmail doc) ∧
  (∀ v, updates !! "userEmail" = Some v →
        castString v = Ok (ci_userEmail (applyUpdate now u doc))) ∧
  ci_createdAt (applyUpdate now u doc) = ci_createdAt doc ∧
  ci_updatedAt (applyUpdate now u doc) = now.
Proof.
  intros Hu. pose proof (applyUpdate_storedAs now updates u doc Hu) as (S1 & S2 & _).
  apply castUpdate_Ok in Hu as (H1 & H2 & _).
  split_and!; try done.
  - intros Ev. unfold applyUpdate. simpl. by rewrite (castPath_absent _ _ _ H2 Ev).
  - intros Ev. unfold applyUpdate. simpl. by rewrite (castPath_absent _ _ _ H1 Ev).
Qed.

(** *** The store under the POST route *)

Lemma getUserCart_Permutation owner (s : store) :
  getUserCart owner s ≡ₚ filter (λ d, ci_userEmail d = owner) s.
Proof. apply merge_sort_Permutation. Qed.

Lemma elem_of_getUserCart owner (s : store) d :
  d ∈ getUserCart owner s ↔ ci_userEmail d = owner ∧ d ∈ s.
Proof. by rewrite getUserCart_Permutation, list_elem_of_filter. Qed.

Lemma filter_none {A} (P : A → Prop) `{∀ x, Decision (P x)} (l : list A) :
  (∀ x, x ∈ l → ¬ P x) → filter P l = [].
Proof.
  induction l as [|x l IH]; [done|]. intros Hl.
  rewrite filter_cons_False by (apply Hl; left).
  apply IH. intros y Hy. apply Hl. by right.
Qed.

(** In a store with unique ids, the documents with the id of a stored
    document are that document alone. *)
Lemma filter_unique_id (Q : CartItem → Prop) `{∀ x, Decision (Q x)} (s : store) d :
  unique_ids s → d ∈ s → Q d →
  filter (λ x, ci_id x = ci_id d ∧ Q x) s = [d].
Proof.
  unfold unique_ids. intros Hs Hd HQ.
  induction s as [|x s IH]; [by apply elem_of_nil in Hd|].
  rewrite fmap_cons, NoDup_cons in Hs. destruct Hs as [Hx Hs].
  apply elem_of_cons in Hd as [->|Hd].
  - rewrite filter_cons_True by done. f_equal.
    apply filter_none. intros y Hy [Hid _]. apply Hx.
    rewrite <- Hid. by apply list_elem_of_fmap_2.
  - rewrite filter_cons_False; [by apply IH|].
    intros [Hid _]. apply Hx. rewrite Hid. by apply list_elem_of_fmap_2.
Qed.

Lemma listed_once owner (s : store) d :
  unique_ids s → d ∈ s → ci_userEmail d = owner →
  filter (λ x, ci_id x = ci_id d) (getUserCart owner s) = [d].
Proof.
  intros Hs Hd Ho. apply Permutation_singleton_r.
  rewrite getUserCart_Permutation, list_filter_filter.
  by rewrite (filter_unique_id (λ x, ci_userEmail x = owner)).
Qed.

Lemma update_ids (s : store) i existing updated :
  s !! i = Some existing → ci_id updated = ci_id existing →
  ci_id <$> <[i := updated]> s = ci_id <$> s.
Proof.
  intros Hi Hid. rewrite list_fmap_insert. apply list_insert_id.
  rewrite list_lookup_fmap, Hi. simpl. congruence.
Qed.

Lemma create_unique (s : store) doc :
  unique_ids s → ci_id doc ∉ (ci_id <$> s) → unique_ids (s ++ [doc]).
Proof.
  unfold unique_ids. intros Hs Hd. rewrite fmap_app. apply NoDup_app.
  split_and!; [done| |apply NoDup_singleton].
  intros x Hx Hx'. apply list_elem_of_singleton in Hx'. by subst.
Qed.

(** The outcomes of the POST route. *)
Lemma addOrUpdateItem_inv now reqBody (s : store) r s' :
  addOrUpdateItem now reqBody s = (r, s') →
  (∃ m, sanitizeCartPayload reqBody false = Throw m ∧
        r = Resp 400 (Failure m) ∧ s' = s) ∨
  (∃ processedData, sanitizeCartPayload reqBody false = Ok processedData ∧
     ((r = serverError "adding item to cart" ∧ s' = s) ∨
      (∃ id owner i existing u,
         castFilter (processedData !! "id") = Ok id ∧
         castFilter (processedData !! "userEmail") = Ok owner ∧
         list_find (selects id owner) s = Some (i, existing) ∧
         castUpdate processedData = Ok u ∧
         (ci_id (applyUpdate now u existing) ∉ (ci_id <$> delete i s)) ∧
         r = Resp 200 (Success "Cart item updated successfully"
                         (Some (applyUpdate now u existing))) ∧
         s' = <[i := applyUpdate now u existing]> s) ∨
      (∃ id owner doc,
         castFilter (processedData !! "id") = Ok id ∧
         castFilter (processedData !! "userEmail") = Ok owner ∧
         list_find (selects id owner) s = None ∧
         newDocument now processedData = Ok doc ∧
         (ci_id doc ∉ (ci_id <$> s)) ∧
         r = Resp 201 (Success "Item added to cart successfully" (Some doc)) ∧
         s' = s ++ [doc]))).
Proof.
  unfold Cart.addOrUpdateItem.
  destruct (sanitizeCartPayload reqBody false) as [pd|m] eqn:Es.
  2:{ intros [= <- <-]. left. eauto. }
  intros H. right. exists pd. split; [done|].
  destruct (castFilter (pd !! "id")) as [id|] eqn:Eid; simpl in H.
  2:{ injection H as <- <-. by left. }
  destruct (castFilter (pd !! "userEmail")) as [owner|] eqn:Eo; simpl in H.
  2:{ injection H as <- <-. by left. }
  unfold findOne, Cart.updateCartItem, addToCart, create in H.
  destruct (list_find (selects id owner) s) as [[i existing]|] eqn:Ef; simpl in H.
  - destruct (castUpdate pd) as [u|] eqn:Eu; simpl in H.
    2:{ injection H as <- <-. by left. }
    case_bool_decide as Hd; simpl in H.
    { injection H as <- <-. by left. }
    injection H as <- <-. right. left.
    exists id, owner, i, existing, u. by split_and!.
  - destruct (newDocument now pd) as [doc|] eqn:En; simpl in H.
    2:{ injection H as <- <-. by left. }
    case_bool_decide as Hd; simpl in H.
    { injection H as <- <-. by left. }
    injection H as <- <-. right. right.
    exists id, owner, doc. by split_and!.
Qed.

(** An update through the POST route keeps the id and the owner of the
    document it finds. *)
Lemma update_keeps_key now processedData id owner (s : store) i existing u :
  castFilter (processedData !! "id") = Ok id →
  castFilter (processedData !! "userEmail") = Ok owner →
  list_find (selects id owner) s = Some (i, existing) →
  castUpdate processedData = Ok u →
  s !! i = Some existing ∧
  id = Some (ci_id existing) ∧ owner = Some (ci_userEmail existing) ∧
  ci_id (applyUpdate now u existing) = ci_id existing ∧
  ci_userEmail (applyUpdate now u existing) = ci_userEmail existing.
Proof.
  intros Eid Eo Ef Eu.
  apply list_find_Some in Ef as (Hi & [-> ->] & _).
  apply castFilter_Some in Eid as (x & Ex & Hx).
  apply castFilter_Some in Eo as (y & Ey & Hy).
  destruct (applyUpdate_key now processedData u existing Eu) as (_ & Hid & _ & Hemail & _).
  specialize (Hid x Ex). specialize (Hemail y Ey).
  split_and!; try done; congruence.
Qed.

(** The POST route keeps the ids of the store unique. *)
Lemma addOrUpdateItem_unique now reqBody (s : store) :
  unique_ids s → unique_ids (addOrUpdateItem now reqBody s).2.
Proof.
  intros Hs. destruct (addOrUpdateItem now reqBody s) as [r s'] eqn:E. simpl.
  apply addOrUpdateItem_inv in E
    as [(m & _ & _ & ->)|(pd & _ & [[_ ->]|[H|H]])]; try done.
  - destruct H as (id & owner & i & existing & u & Eid & Eo & Ef & Eu & _ & _ & ->).
    destruct (update_keeps_key now _ _ _ _ _ _ _ Eid Eo Ef Eu) as (Hi & _ & _ & Hid & _).
    unfold unique_ids. by rewrite (update_ids s i existing _).
  - destruct H as (id & owner & doc & _ & _ & _ & _ & Hd & _ & ->).
    by apply create_unique.
Qed.

Lemma delete_fresh (s : store) i d :
  unique_ids s → s !! i = Some d → ci_id d ∉ (ci_id <$> delete i s).
Proof.
  unfold unique_ids. intros Hs Hi.
  rewrite <- (take_drop_middle s i d Hi) in Hs.
  rewrite delete_take_drop. rewrite fmap_app, fmap_cons in Hs. rewrite fmap_app.
  apply NoDup_app in Hs as (_ & H1 & H2). apply NoDup_cons in H2 as [H2 _].
  intros [Hin|Hin]%elem_of_app; [|done].
  apply (H1 _ Hin). left.
Qed.

Lemma unique_ids_delete (s : store) i : unique_ids s → unique_ids (delete i s).
Proof.
  unfold unique_ids. intros Hs. rewrite list_fmap_delete.
  eapply sublist_NoDup; [done|]. apply sublist_delete.
Qed.

Lemma unique_ids_inj (s : store) d1 d2 :
  unique_ids s → d1 ∈ s → d2 ∈ s → ci_id d1 = ci_id d2 → d1 = d2.
Proof.
  unfold unique_ids. intros Hs [i Hi]%list_elem_of_lookup [j Hj]%list_elem_of_lookup Hid.
  assert (i = j) as ->.
  { apply (NoDup_lookup (ci_id <$> s) i j (ci_id d1) Hs).
    - by rewrite list_lookup_fmap, Hi.
    - by rewrite list_lookup_fmap, Hj, Hid. }
  congruence.
Qed.

(** A submission that finds its item and whose payload can be cast as an
    update is answered with 200: the item is overwritten in place. *)
Lemma addOrUpdateItem_update now reqBody processedData id owner (s : store) i existing u :
  unique_ids s →
  sanitizeCartPayload reqBody false = Ok processedData →
  castFilter (processedData !! "id") = Ok (Some id) →
  castFilter (processedData !! "userEmail") = Ok (Some owner) →
  s !! i = Some existing → ci_id existing = id → ci_userEmail existing = owner →
  castUpdate processedData = Ok u →
  addOrUpdateItem now reqBody s
  = (Resp 200 (Success "Cart item updated successfully"
                 (Some (applyUpdate now u existing))),
     <[i := applyUpdate now u existing]> s) ∧
  ci_id (applyUpdate now u existing) = id ∧
  ci_userEmail (applyUpdate now u existing) = owner.
Proof.
  intros Hs Es Eid Eo Hi Hid Ho Eu.
  assert (existing ∈ s) as Hex by by apply list_elem_of_lookup_2 in Hi.
  destruct (list_find_elem_of (selects (Some id) (Some owner)) s existing Hex)
    as [[j found] Ef]; [by subst|].
  destruct (update_keeps_key now _ _ _ _ _ _ _ Eid Eo Ef Eu)
    as (Hj & [= Hid'] & [= Ho'] & Hu1 & Hu2).
  assert (found = existing) as ->.
  { apply (unique_ids_inj s); [done|by apply list_elem_of_lookup_2 in Hj|done|congruence]. }
  assert (j = i) as ->.
  { apply (NoDup_lookup (ci_id <$> s) j i (ci_id existing) Hs);
      by rewrite list_lookup_fmap, ?Hi, ?Hj. }
  split_and!; [|congruence..].
  unfold Cart.addOrUpdateItem. rewrite Es, Eid. simpl. rewrite Eo. simpl.
  unfold findOne, Cart.updateCartItem. rewrite Ef.
  cbn [fmap option_fmap option_map snd]. rewrite Eu.
  cbn [mbind result_bind].
  rewrite bool_decide_eq_false_2; [done|].
  rewrite Hu1. by apply delete_fresh.
Qed.

(** Submitting the same body again, any number of times, keeps the one
    item of the pair, stored as the payload says. *)
Lemma resubmit_stable reqBody processedData id owner u times (s : store) item :
  sanitizeCartPayload reqBody false = Ok processedData →
  castFilter (processedData !! "id") = Ok (Some id) →
  castFilter (processedData !! "userEmail") = Ok (Some owner) →
  castUpdate processedData = Ok u →
  unique_ids s →
  item ∈ s → ci_id item = id → ci_userEmail item = owner →
  ∃ item',
    item' ∈ resubmit reqBody times s ∧
    ci_id item' = id ∧ ci_userEmail item' = owner ∧
    (times = [] ∧ item' = item ∨
     ∃ now old, item' = applyUpdate now u old) ∧
    unique_ids (resubmit reqBody times s) ∧
    length (resubmit reqBody times s) = length s.
Proof.
  intros Es Eid Eo Eu. revert s item.
  induction times as [|now times IH]; intros s item Hs Hin Hid Ho.
  - exists item. split_and!; try done. by left.
  - apply list_elem_of_lookup in Hin as [i Hi].
    destruct (addOrUpdateItem_update now reqBody processedData id owner s i item u)
      as (E & Hu1 & Hu2); try done.
    assert (unique_ids (<[i := applyUpdate now u item]> s)) as Hs'.
    { unfold unique_ids. rewrite (update_ids s i item); [done..|congruence]. }
    destruct (IH (<[i := applyUpdate now u item]> s) (applyUpdate now u item))
      as (item' & H1 & H2 & H3 & H4 & H5 & H6); try done.
    { apply list_elem_of_lookup. exists i. apply list_lookup_insert_eq.
      by apply lookup_lt_Some in Hi. }
    unfold Cart.resubmit in *. simpl. rewrite E. simpl.
    exists item'. split_and!; try done.
    + right. destruct H4 as [[_ ->]|H4]; [by eauto|done].
    + by rewrite H6, length_insert.
Qed.

(** *** The store under the DELETE route *)

Lemma removeItem_store deleteImage id userEmail (s : store) :
  (removeItem deleteImage id userEmail s).1.2 = s ∨
  ∃ i, (removeItem deleteImage id userEmail s).1.2 = delete i s.
Proof.
  unfold Cart.removeItem, removeFromCart.
  destruct (negb (truthy userEmail)); [by left|].
  destruct (Cart.castFilter convertString userEmail) as [owner|]; [|by left].
  destruct (list_find _ s) as [[i d]|]; [|by left].
  right. by exists i.
Qed.

Lemma removeItem_unique deleteImage id userEmail (s : store) :
  unique_ids s → unique_ids (removeItem deleteImage id userEmail s).1.2.
Proof.
  intros Hs. destruct (removeItem_store deleteImage id userEmail s) as [->|[i ->]];
    [done|by apply unique_ids_delete].
Qed.

(** Every store that the routes build from the empty store has unique
    ids. *)
Lemma run_unique deleteImage reqs (s : store) :
  unique_ids s → unique_ids (run deleteImage reqs s).
Proof.
  unfold run. revert s. induction reqs as [|req reqs IH]; intros s Hs; [done|].
  simpl. apply IH. destruct req as [now reqBody|id userEmail]; simpl.
  - by apply addOrUpdateItem_unique.
  - by apply removeItem_unique.
Qed.

End CartProperties.
(** ** Updates of a stored document *)

Section Updates.

Import Cart.

Variable convertString : value → option string.
Variable convertNumber : value → option Q.
Variable setSpecs : value → result value.
Variable setConfiguration : value → result value.

#[local] Abbreviation castFilter := (castFilter convertString).
#[local] Abbreviation castUpdate :=
  (castUpdate convertString convertNumber setSpecs setConfiguration).
#[local] Abbreviation updateCartItem :=
  (updateCartItem convertString convertNumber setSpecs setConfiguration).
#[local] Abbreviation updateItem :=
  (updateItem convertString convertNumber setSpecs setConfiguration).

(** The outcomes of [updateCartItem]. *)
Lemma updateCartItem_inv id owner updates now (s : store) found s' :
  updateCartItem id owner updates now s = Ok (found, s') →
  ∃ u, castUpdate updates = Ok u ∧
    ((found = None ∧ s' = s ∧ list_find (selects id owner) s = None) ∨
     (∃ i old,
        found = Some (applyUpdate now u old) ∧ s' = <[i := applyUpdate now u old]> s ∧
        list_find (selects id owner) s = Some (i, old) ∧
        ci_id (applyUpdate now u old) ∉ (ci_id <$> delete i s))).
Proof.
  unfold Cart.updateCartItem. intros H.
  apply bind_Ok in H as (u & Hu & H). exists u. split; [done|].
  destruct (list_find (selects id owner) s) as [[i old]|] eqn:E.
  - cbn zeta in H. case_bool_decide as Hd; [done|]. injection H as <- <-.
    right. by exists i, old.
  - injection H as <- <-. by left.
Qed.

Lemma updateCartItem_Throw id owner updates now (s : store) e :
  updateCartItem id owner updates now s = Throw e →
  (∃ e', castUpdate updates = Throw e') ∨
  (∃ u i old, castUpdate updates = Ok u ∧
     list_find (selects id owner) s = Some (i, old) ∧
     ci_id (applyUpdate now u old) ∈ (ci_id <$> delete i s)).
Proof.
  unfold Cart.updateCartItem.
  destruct (castUpdate updates) as [u|e'] eqn:Eu; [|by eauto].
  cbn [mbind result_bind]. intros H. right.
  destruct (list_find (selects id owner) s) as [[i old]|]; [|done].
  cbn zeta in H. case_bool_decide as Hd; [|done]. by exists u, i, old.
Qed.

(** A document at another place than the deleted one is still there. *)
Lemma elem_of_delete_other {A} (l : list A) j n z :
  n ≠ j → l !! n = Some z → z ∈ delete j l.
Proof.
  intros Hn Hz. apply list_elem_of_lookup.
  destruct (decide (n < j)%nat).
  - exists n. by rewrite list_lookup_delete_lt.
  - exists (n - 1)%nat. rewrite list_lookup_delete_ge by lia.
    by replace (S (n - 1)) with n by lia.
Qed.

(** Replacing a document by one whose id no other document has keeps
    the ids unique. *)
Lemma unique_ids_insert (s : store) i item :
  unique_ids s → ci_id item ∉ (ci_id <$> delete i s) → unique_ids (<[i := item]> s).
Proof.
  unfold unique_ids. intros Hs Hn.
  destruct (decide (i < length s)%nat) as [Hi|Hi].
  - destruct (lookup_lt_is_Some_2 s i Hi) as [old Hold].
    rewrite insert_take_drop by done. rewrite delete_take_drop in Hn.
    rewrite <- (take_drop_middle s i old Hold) in Hs.
    rewrite !fmap_app, fmap_cons in *.
    rewrite <- Permutation_middle in Hs. rewrite <- Permutation_middle.
    apply NoDup_cons in Hs as [_ Hs]. by apply NoDup_cons.
  - by rewrite list_insert_ge by lia.
Qed.

(** The outcomes of the PUT route. *)
Lemma updateItem_inv now id reqBody (s : store) r s' :
  updateItem now id reqBody s = (r, s') →
  (truthy (reqBody !! "userEmail") = false ∧
   r = Resp 400 (Failure "User email is required") ∧ s' = s) ∨
  (truthy (reqBody !! "userEmail") = true ∧
   ((∃ m, sanitizeCartPayload (delete "userEmail" reqBody) true = Throw m ∧
          r = Resp 400 (Failure m) ∧ s' = s) ∨
    (∃ processedUpdates,
       sanitizeCartPayload (delete "userEmail" reqBody) true = Ok processedUpdates ∧
       ((r = serverError "updating cart item" ∧ s' = s ∧
         ((∃ e, castFilter (reqBody !! "userEmail") = Throw e) ∨
          (∃ e, castUpdate processedUpdates = Throw e) ∨
          (∃ owner u i old, castFilter (reqBody !! "userEmail") = Ok owner ∧
             castUpdate processedUpdates = Ok u ∧
             list_find (selects (Some id) owner) s = Some (i, old) ∧
             ci_id (applyUpdate now u old) ∈ (ci_id <$> delete i s)))) ∨
        (∃ owner u, castFilter (reqBody !! "userEmail") = Ok owner ∧
           castUpdate processedUpdates = Ok u ∧
           list_find (selects (Some id) owner) s = None ∧
           r = Resp 404 (Failure "Cart item not found") ∧ s' = s) ∨
        (∃ owner u i old,
           castFilter (reqBody !! "userEmail") = Ok owner ∧
           castUpdate processedUpdates = Ok u ∧
           list_find (selects (Some id) owner) s = Some (i, old) ∧
           (ci_id (applyUpdate now u old) ∉ (ci_id <$> delete i s)) ∧
           r = Resp 200 (Success "Cart item updated successfully"
                           (Some (applyUpdate now u old))) ∧
           s' = <[i := applyUpdate now u old]> s))))).
Proof.
  unfold Cart.updateItem. cbn zeta.
  destruct (truthy (reqBody !! "userEmail")) eqn:T; cbn [negb].
  2: { intros [= <- <-]. by left. }
  intros H. right. split; [done|].
  destruct (sanitizeCartPayload (delete "userEmail" reqBody) true)
    as [processedUpdates|m] eqn:Es.
  2: { injection H as <- <-. left. by exists m. }
  right. exists processedUpdates. split; [done|].
  destruct (castFilter (reqBody !! "userEmail")) as [owner|e] eqn:Eo;
    cbn [mbind result_bind] in H.
  2: { injection H as <- <-. left. split_and!; [done..|]. left. by exists e. }
  destruct (updateCartItem (Some id) owner processedUpdates now s)
    as [[found s'']|e] eqn:Eu; cbn [mbind result_bind] in H.
  2: { injection H as <- <-. left. split_and!; [done..|]. right.
       apply updateCartItem_Throw in Eu as [[e' He']|(u & i & old & Hu & Hf & Hd)].
       - left. by exists e'.
       - right. by exists owner, u, i, old. }
  apply updateCartItem_inv in Eu
    as (u & Hu & [(-> & -> & Hf)|(i & old & -> & -> & Hf & Hid)]).
  - injection H as <- <-. right. left. by exists owner, u.
  - injection H as <- <-. right. right. by exists owner, u, i, old.
Qed.

End Updates.

Section Upsert.

Import Cart.

Variable convertString : value → option string.
Variable convertNumber : value → option Q.
Variable newSpecs : option value → result value.
Variable newConfiguration : option value → result (option value).
Variable setSpecs : value → result value.
Variable setConfiguration : value → result value.

#[local] Abbreviation castFilter := (castFilter convertString).
#[local] Abbreviation newDocument :=
  (newDocument convertString convertNumber newSpecs newConfiguration).
#[local] Abbreviation castUpdate :=
  (castUpdate convertString convertNumber setSpecs setConfiguration).
#[local] Abbreviation addOrUpdateItem :=
  (addOrUpdateItem convertString convertNumber newSpecs newConfiguration
     setSpecs setConfiguration).
#[local] Abbreviation resubmit :=
  (resubmit convertString convertNumber newSpecs newConfiguration setSpecs setConfiguration).
#[local] Abbreviation storedAs := (storedAs convertString convertNumber).

(** C1 (as amended).  Take a payload whose keys are data paths of the
    schema, that passes the sanitizer, names its owner and its id by
    strings, and that the storage layer accepts both as a new document
    and as an update, in a store where no other owner holds the id.  The
    POST route then leaves exactly one cart item for the pair (owner,
    id).  When an item of the pair exists the route answers 200 and
    overwrites it in place with the update; otherwise it answers 201 and
    adds the new document.  Either way the listing of the owner's cart
    then holds exactly one item with that id; its String and Number
    fields are those of the sanitized payload, and its [specs] and
    [configuration] are what the storage layer makes of the payload's.
    A path that the payload omits keeps its stored value in an update
    and has the default of the schema in a new document.
    This stays so however many times the same body is submitted again:
    the listing keeps exactly one such item, the store keeps its length,
    and every further submission is answered with 200 and overwrites
    that item in place with the update. *)
Theorem addOrUpdateItem_upsert now reqBody (s : store) processedData owner id doc u :
  unique_ids s →
  onlyDataPaths reqBody →
  sanitizeCartPayload reqBody false = Ok processedData →
  processedData !! "userEmail" = Some (VStr owner) →
  processedData !! "id" = Some (VStr id) →
  newDocument now processedData = Ok doc →
  castUpdate processedData = Ok u →
  (∀ d, d ∈ s → ci_id d = id → ci_userEmail d = owner) →
  ∃ r item s',
    addOrUpdateItem now reqBody s = (r, s') ∧
    ((∃ i old,
        s !! i = Some old ∧ ci_id old = id ∧ ci_userEmail old = owner ∧
        r = Resp 200 (Success "Cart item updated successfully" (Some item)) ∧
        item = applyUpdate now u old ∧
        s' = <[i := item]> s ∧
        (∀ v, processedData !! "specs" = Some v → setSpecs v = Ok (ci_specs item)) ∧
        (∀ v, processedData !! "configuration" = Some v →
              ∃ c, setConfiguration v = Ok c ∧ ci_configuration item = Some c) ∧
        keptWhereAbsent processedData old item ∧ ci_updatedAt item = now)
     ∨
     ((∀ d, d ∈ s → ci_id d ≠ id) ∧
      r = Resp 201 (Success "Item added to cart successfully" (Some item)) ∧
      item = doc ∧
      s' = s ++ [item] ∧
      newSpecs (processedData !! "specs") = Ok (ci_specs item) ∧
      newConfiguration (processedData !! "configuration") = Ok (ci_configuration item) ∧
      defaultsWhereAbsent processedData item ∧
      ci_createdAt item = now ∧ ci_updatedAt item = now)) ∧
    unique_ids s' ∧
    filter (λ d, ci_id d = id) (getUserCart owner s') = [item] ∧
    storedAs processedData item ∧
    ∀ times,
      ∃ position item',
        resubmit reqBody times s' !! position = Some item' ∧
        filter (λ d, ci_id d = id) (getUserCart owner (resubmit reqBody times s'))
        = [item'] ∧
        storedAs processedData item' ∧
        length (resubmit reqBody times s') = length s' ∧
        ∀ now',
          addOrUpdateItem now' reqBody (resubmit reqBody times s')
          = (Resp 200 (Success "Cart item updated successfully"
                         (Some (applyUpdate now' u item'))),
             <[position := applyUpdate now' u item']> (resubmit reqBody times s')).
Proof.
  intros Hs _ Es Eowner Eid Edoc Eu Hother.
  assert (castFilter (processedData !! "id") = Ok (Some id)) as Fid by by rewrite Eid.
  assert (castFilter (processedData !! "userEmail") = Ok (Some owner)) as Fo
    by by rewrite Eowner.
  (* what holds for every store that has the item of the pair *)
  assert (∀ (s' : store) item,
            unique_ids s' → item ∈ s' → ci_id item = id → ci_userEmail item = owner →
            storedAs processedData item →
            ∀ times,
              ∃ position item',
                resubmit reqBody times s' !! position = Some item' ∧
                filter (λ d, ci_id d = id) (getUserCart owner (resubmit reqBody times s'))
                = [item'] ∧
                storedAs processedData item' ∧
                length (resubmit reqBody times s') = length s' ∧
                ∀ now',
                  addOrUpdateItem now' reqBody (resubmit reqBody times s')
                  = (Resp 200 (Success "Cart item updated successfully"
                                 (Some (applyUpdate now' u item'))),
                     <[position := applyUpdate now' u item']> (resubmit reqBody times s')))
    as Hagain.
  { intros s' item Hs' Hin Hid Ho Hst times.
    destruct (resubmit_stable convertString convertNumber newSpecs newConfiguration
                setSpecs setConfiguration reqBody processedData id owner u times s' item)
      as (item' & H1 & H2 & H3 & H4 & H5 & H6); try done.
    pose proof H1 as Hin'. apply list_elem_of_lookup in H1 as [i' Hi'].
    exists i', item'. split_and!; [done| | |done|].
    - rewrite <- H2. by apply listed_once.
    - destruct H4 as [[_ ->]|(now0 & old & ->)]; [done|].
      by apply (applyUpdate_storedAs convertString convertNumber setSpecs setConfiguration).
    - intros now'.
      by destruct (addOrUpdateItem_update convertString convertNumber newSpecs
                     newConfiguration setSpecs setConfiguration
                     now' reqBody processedData id owner (resubmit reqBody times s')
                     i' item' u) as (E & _). }
  destruct (list_find (λ d, ci_id d = id) s) as [[i old]|] eqn:Ef.
  - (* the item exists: update *)
    apply list_find_Some in Ef as (Hi & Hid & _).
    assert (old ∈ s) as Hin by by apply list_elem_of_lookup_2 in Hi.
    pose proof (Hother old Hin Hid) as Ho.
    destruct (addOrUpdateItem_update convertString convertNumber newSpecs
                newConfiguration setSpecs setConfiguration
                now reqBody processedData id owner s i old u) as (E & Hu1 & Hu2); try done.
    destruct (applyUpdate_nested convertString convertNumber setSpecs setConfiguration
                now processedData u old Eu) as (N1 & _ & N2 & _).
    assert (unique_ids (<[i := applyUpdate now u old]> s)) as Hs'.
    { unfold unique_ids. rewrite (update_ids s i old); [done..|congruence]. }
    assert (applyUpdate now u old ∈ <[i := applyUpdate now u old]> s) as Hin'.
    { apply list_elem_of_lookup. exists i. apply list_lookup_insert_eq.
      by apply lookup_lt_Some in Hi. }
    assert (storedAs processedData (applyUpdate now u old)) as Hst
      by by apply (applyUpdate_storedAs convertString convertNumber setSpecs setConfiguration).
    eexists _, (applyUpdate now u old), _. split; [exact E|].
    split_and!; try done.
    + left. exists i, old. split_and!; try done.
      by apply (applyUpdate_kept convertString convertNumber setSpecs setConfiguration).
    + rewrite <- Hu1. by apply listed_once.
    + by apply (Hagain _ (applyUpdate now u old)).
  - (* no item has the id: create *)
    pose proof Ef as Hnone. apply list_find_None in Hnone. rewrite Forall_forall in Hnone.
    destruct (newDocument_Ok convertString convertNumber newSpecs newConfiguration
                now processedData doc Edoc) as (Did & Do & Dca & Dua & Dsp & Dc & Dst).
    pose proof (newDocument_defaults convertString convertNumber newSpecs newConfiguration
                  now processedData doc Edoc) as Ddef.
    rewrite Fid in Did. injection Did as Did. rewrite Fo in Do. injection Do as Do.
    assert (ci_id doc ∉ ci_id <$> s) as Hfresh.
    { intros (d & Hd & Hin)%list_elem_of_fmap_1. apply (Hnone d Hin). congruence. }
    assert (addOrUpdateItem now reqBody s
            = (Resp 201 (Success "Item added to cart successfully" (Some doc)), s ++ [doc]))
      as E.
    { unfold Cart.addOrUpdateItem. rewrite Es, Fid. simpl. rewrite Fo. simpl.
      unfold findOne, addToCart, create.
      assert (list_find (selects (Some id) (Some owner)) s = None) as ->.
      { apply list_find_None, Forall_forall. intros d Hd [[= H1] _].
        by apply (Hnone d Hd). }
      simpl. rewrite Edoc. simpl. by rewrite bool_decide_eq_false_2. }
    assert (unique_ids (s ++ [doc])) as Hs' by by apply create_unique.
    assert (doc ∈ s ++ [doc]) as Hin' by (apply elem_of_app; right; left).
    eexists _, doc, _. split; [exact E|].
    split_and!; try done.
    + right. by split_and!.
    + rewrite Did. by apply listed_once.
    + by apply (Hagain _ doc).
Qed.

End Upsert.

Section UniqueIds.

Import Cart.

Variable convertString : value → option string.
Variable convertNumber : value → option Q.
Variable newSpecs : option value → result value.
Variable newConfiguration : option value → result (option value).
Variable setSpecs : value → result value.
Variable setConfiguration : value → result value.

#[local] Abbreviation newDocument :=
  (newDocument convertString convertNumber newSpecs newConfiguration).
#[local] Abbreviation addOrUpdateItem :=
  (addOrUpdateItem convertString convertNumber newSpecs newConfiguration
     setSpecs setConfiguration).
#[local] Abbreviation run :=
  (run convertString convertNumber newSpecs newConfiguration setSpecs setConfiguration).

(** C9.  In every store that the POST and DELETE routes build from the
    empty store, the [id] of a cart item is unique across the whole store,
    whatever the owners: two items at different positions have different
    ids.  A POST whose payload carries the id of an item of another owner
    is refused by the unique index: the route answers 500 and the store is
    unchanged. *)
Theorem id_unique_across_owners deleteImage reqs (s : store) :
  s = run deleteImage reqs [] →
  unique_ids s ∧
  (∀ i j d1 d2, s !! i = Some d1 → s !! j = Some d2 → i ≠ j → ci_id d1 ≠ ci_id d2) ∧
  (∀ now reqBody processedData id owner other,
     sanitizeCartPayload reqBody false = Ok processedData →
     castFilter convertString (processedData !! "id") = Ok (Some id) →
     castFilter convertString (processedData !! "userEmail") = Ok (Some owner) →
     other ∈ s → ci_id other = id → ci_userEmail other ≠ owner →
     addOrUpdateItem now reqBody s
     = (serverError "adding item to cart", s)).
Proof.
  intros ->.
  set (s := run deleteImage reqs []).
  assert (unique_ids s) as Hs by (apply run_unique; apply NoDup_nil_2).
  split_and!; [done| |].
  - intros i j d1 d2 Hi Hj Hne Hid. apply Hne.
    apply (NoDup_lookup (ci_id <$> s) i j (ci_id d1) Hs).
    + by rewrite list_lookup_fmap, Hi.
    + by rewrite list_lookup_fmap, Hj, Hid.
  - intros now reqBody pd id owner other Es Eid Eo Hother Hid Hown.
    assert (list_find (selects (Some id) (Some owner)) s = None) as Ef.
    { apply list_find_None, Forall_forall. intros d Hd [[= H1] [= H2]].
      apply Hown. rewrite H2.
      by rewrite (unique_ids_inj s other d Hs Hother Hd) by congruence. }
    unfold Cart.addOrUpdateItem. rewrite Es, Eid. simpl. rewrite Eo. simpl.
    unfold findOne, addToCart, create. rewrite Ef. simpl.
    destruct (newDocument now pd) as [doc|] eqn:En; [|done].
    simpl. apply newDocument_Ok in En as (Hid' & _).
    rewrite Eid in Hid'. injection Hid' as Hid'.
    rewrite bool_decide_eq_true_2; [done|].
    rewrite <- Hid', <- Hid. by apply list_elem_of_fmap_2.
Qed.

End UniqueIds.

Section RemoveItem.

Import Cart.

Variable convertString : value → option string.

(** C6.  A DELETE that finds the item of its owner removes it from the
    store and answers 200 with the removed document, whatever the cleanup
    of the images does: the reply and the resulting store are the same for
    every behaviour of the imported [deleteImage], failing and throwing
    ones included,
    the listing of the owner's cart no longer holds an item with that id,
    and with the repository's [deleteImage], which turns every failure of
    the media store into [false], the route does not even log a cleanup
    error. *)
Theorem removeItem_regardless_of_cleanup
    (imported : string → result bool) id userEmail owner (s : store) doc :
  unique_ids s →
  truthy userEmail = true →
  castFilter convertString userEmail = Ok (Some owner) →
  doc ∈ s → ci_id doc = id → ci_userEmail doc = owner →
  ∃ i logged,
    s !! i = Some doc ∧
    removeItem convertString imported id userEmail s
    = (Resp 200 (Success "Item removed from cart successfully" (Some doc)),
       delete i s, logged) ∧
    (doc ∉ delete i s) ∧
    (∀ d, d ∈ getUserCart owner (delete i s) → ci_id d ≠ id) ∧
    (∀ d, d ∈ s → d ≠ doc → d ∈ delete i s) ∧
    (∀ other,
       (removeItem convertString other id userEmail s).1
       = (removeItem convertString imported id userEmail s).1) ∧
    (∀ destroy,
       removeItem convertString (λ url, Ok (deleteImage destroy url)) id userEmail s
       = (Resp 200 (Success "Item removed from cart successfully" (Some doc)),
          delete i s, [])).
Proof.
  intros Hs Ht Eo Hdoc Hid Hown.
  destruct (list_find_elem_of (selects (Some id) (Some owner)) s doc Hdoc)
    as [[i found] Ef]; [by subst|].
  pose proof Ef as Ef'. apply list_find_Some in Ef' as (Hi & [[= H1] [= H2]] & _).
  assert (found = doc) as ->.
  { apply (unique_ids_inj s); [done|by apply list_elem_of_lookup_2 in Hi|done|congruence]. }
  assert (∀ f, removeItem convertString f id userEmail s
               = (Resp 200 (Success "Item removed from cart successfully" (Some doc)),
                  delete i s,
                  match cleanupImages f doc with
                  | Ok _ => []
                  | Throw cleanupError => ["Error cleaning up images: " +:+ cleanupError]
                  end)) as E.
  { intros f. unfold Cart.removeItem, removeFromCart. by rewrite Ht, Eo, Ef. }
  pose proof (delete_fresh s i doc Hs Hi) as Hfresh.
  exists i. eexists. split_and!.
  - done.
  - apply E.
  - intros Hin. apply Hfresh. by apply list_elem_of_fmap_2.
  - intros d [_ Hd]%elem_of_getUserCart Hd'. apply Hfresh.
    rewrite Hid, <- Hd'. by apply list_elem_of_fmap_2.
  - intros d Hd Hne. rewrite (delete_Permutation s i doc Hi) in Hd.
    apply elem_of_cons in Hd as [->|Hd]; done.
  - intros f. by rewrite !E.
  - intros destroy. rewrite E. repeat f_equal.
    unfold cleanupImages.
    destruct (truthy (Some (VStr (ci_finalImage doc))));
      destruct (truthy (Some (VStr (ci_originalImageUrl doc)))); done.
Qed.

End RemoveItem.

(** ** The cart summary *)

(** *** Double arithmetic on whole numbers *)

(** A whole number from 0 to 2^53 is a double: rounding leaves it as it
    is, so sums and products of such numbers are exact as long as they
    stay in that range. *)
Lemma roundHalfEven_Z (q : Q) (m : Z) : (q == inject_Z m)%Q → roundHalfEven q = m.
Proof.
  intros H. unfold roundHalfEven.
  assert (Qfloor q = m) as -> by by rewrite H, Qfloor_Z.
  assert ((q - inject_Z m ?= 1 # 2)%Q = Lt) as ->; [|done].
  rewrite H. apply (proj1 (Qlt_alt _ _)). ring_simplify. reflexivity.
Qed.

Lemma floorLog2_Z (n : Z) : (0 < n)%Z → floorLog2 (inject_Z n) = Z.log2 n.
Proof.
  intros Hn. unfold floorLog2, inject_Z. cbn [Qnum Qden].
  change (Z.log2 1) with 0%Z. rewrite Z.sub_0_r.
  pose proof (Z.log2_nonneg n) as Hl.
  destruct (Z.leb_spec 0 (Z.log2 n)) as [_|]; [|lia].
  destruct (Z.leb_spec (1 * 2 ^ Z.log2 n) n) as [|Hlt]; [done|].
  pose proof (Z.log2_spec n Hn). lia.
Qed.

Lemma pow2_neg (k : Z) : (0 <= k)%Z → (pow2 (- k) == / inject_Z (2 ^ k))%Q.
Proof.
  intros Hk. unfold pow2. rewrite Qpower_opp. apply Qinv_comp.
  symmetry. by apply (Zpower_Qpower 2 k).
Qed.

Lemma Qred_Z (n : Z) : Qred (inject_Z n) = inject_Z n.
Proof.
  unfold Qred, inject_Z.
  pose proof (Z.ggcd_gcd n 1) as Hg. pose proof (Z.ggcd_correct_divisors n 1) as Hd.
  destruct (Z.ggcd n 1) as [g [r1 r2]]. simpl in *.
  rewrite Z.gcd_1_r in Hg. subst g. destruct Hd as [H1 H2].
  assert (r1 = n) as -> by lia. assert (r2 = 1%Z) as -> by lia. done.
Qed.

Lemma round64_Z (n : Z) : (0 <= n <= 2 ^ 53)%Z → round64 (inject_Z n) = Finite (inject_Z n).
Proof.
  intros Hn.
  destruct (decide (n = 0%Z)) as [->|Hne]; [done|].
  destruct (decide (n = (2 ^ 53)%Z)) as [->|Hmax]; [by vm_compute|].
  assert (0 < n < 2 ^ 53)%Z as Hr by lia. clear Hn Hne Hmax.
  unfold round64.
  assert (Qeq_bool (inject_Z n) 0 = false) as ->.
  { apply not_true_is_false. intros H%Qeq_bool_iff.
    unfold Qeq, inject_Z in H. simpl in H. lia. }
  assert (Qabs (inject_Z n) = inject_Z n) as ->.
  { unfold Qabs, inject_Z. by rewrite Z.abs_eq by lia. }
  rewrite floorLog2_Z by lia.
  assert (Z.log2 n < 53)%Z as Hl by (apply Z.log2_lt_pow2; lia).
  pose proof (Z.log2_nonneg n) as Hl0.
  rewrite Z.max_l by lia.
  set (k := (52 - Z.log2 n)%Z).
  assert (Z.log2 n - 52 = - k)%Z as -> by (unfold k; lia).
  assert (0 <= k)%Z as Hk by (unfold k; lia).
  assert (0 < 2 ^ k)%Z as Hp by (apply Z.pow_pos_nonneg; lia).
  assert (¬ (inject_Z (2 ^ k) == 0)%Q) as Hnz.
  { unfold Qeq, inject_Z. simpl. lia. }
  rewrite (roundHalfEven_Z _ (n * 2 ^ k)).
  2:{ rewrite pow2_neg by done. rewrite inject_Z_mult. field. done. }
  assert (Qred (inject_Z (n * 2 ^ k) * pow2 (- k)) = inject_Z n) as ->.
  { rewrite <- (Qred_Z n).
    apply Qred_complete. rewrite pow2_neg by done. rewrite inject_Z_mult. field. done. }
  assert (Qle_bool (pow2 1024) (Qabs (inject_Z n)) = false) as ->; [|done].
  apply not_true_is_false. intros H%Qle_bool_iff.
  assert (Qabs (inject_Z n) = inject_Z n) as Ha.
  { unfold Qabs, inject_Z. by rewrite Z.abs_eq by lia. }
  rewrite Ha in H. unfold pow2 in H.
  rewrite <- (Zpower_Qpower 2 1024) in H by lia.
  rewrite <- Zle_Qle in H.
  assert (2 ^ 53 < 2 ^ 1024)%Z by (apply Z.pow_lt_mono_r; lia). lia.
Qed.

Lemma jsAdd_Z (a b : Z) :
  (0 <= a)%Z → (0 <= b)%Z → (a + b <= 2 ^ 53)%Z →
  jsAdd (Finite (inject_Z a)) (Finite (inject_Z b)) = Finite (inject_Z (a + b)).
Proof.
  intros Ha Hb Hab. unfold jsAdd.
  assert ((inject_Z a + inject_Z b)%Q = inject_Z (a + b)) as ->.
  { unfold Qplus, inject_Z. simpl. f_equal. lia. }
  apply round64_Z. lia.
Qed.

Lemma jsMul_Z (a b : Z) :
  (0 <= a)%Z → (0 <= b)%Z → (a * b <= 2 ^ 53)%Z →
  jsMul (Finite (inject_Z a)) (Finite (inject_Z b)) = Finite (inject_Z (a * b)).
Proof.
  intros Ha Hb Hab. unfold jsMul.
  assert ((inject_Z a * inject_Z b)%Q = inject_Z (a * b)) as -> by done.
  apply round64_Z. lia.
Qed.

(** *** The summary route *)

Section Summary.

Import Cart.

Lemma reduceSummary_from (l : list CartItem) (count total : number) :
  foldl (λ acc item,
           (jsAdd acc.1 (ci_quantity item),
            jsAdd acc.2 (jsMul (ci_price item) (ci_quantity item))))
        (count, total) l
  = (foldl (λ count item, jsAdd count (ci_quantity item)) count l,
     foldl (λ total item, jsAdd total (jsMul (ci_price item) (ci_quantity item))) total l).
Proof.
  revert count total. induction l as [|d l IH]; intros count total; [done|].
  cbn [foldl fst snd]. apply IH.
Qed.

Lemma sumZ_Permutation (l k : list Z) : l ≡ₚ k → sumZ l = sumZ k.
Proof.
  unfold sumZ. induction 1 as [|x l k _ IH|x y l|l k m _ IH1 _ IH2]; simpl; lia.
Qed.

Lemma sumZ_nonneg (l : list Z) : Forall (λ x, 0 ≤ x)%Z l → (0 ≤ sumZ l)%Z.
Proof. unfold sumZ. induction 1 as [|x l Hx _ IH]; simpl; lia. Qed.

(** The two folds of the summary over items with whole quantities and
    prices. *)
Lemma count_exact (quantity : CartItem → Z) (l : list CartItem) (count : Z) :
  (∀ d, d ∈ l → ci_quantity d = inject_Z (quantity d) ∧ (0 ≤ quantity d)%Z) →
  (0 ≤ count)%Z → (count + sumZ (quantity <$> l) ≤ 2 ^ 53)%Z →
  foldl (λ count item, jsAdd count (ci_quantity item)) (Finite (inject_Z count)) l
  = Finite (inject_Z (count + sumZ (quantity <$> l))).
Proof.
  revert count. induction l as [|d l IH]; intros count Hl Hc Hs.
  - simpl. by rewrite Z.add_0_r.
  - destruct (Hl d) as [Hq Hq0]; [left|].
    assert (0 ≤ sumZ (quantity <$> l))%Z as Hrest.
    { apply sumZ_nonneg, Forall_fmap, Forall_forall. intros x Hx.
      apply Hl. by right. }
    rewrite fmap_cons in Hs. unfold sumZ in Hs. cbn [foldr] in Hs. fold (sumZ (quantity <$> l)) in Hs.
    cbn [foldl]. rewrite Hq, jsAdd_Z by lia.
    rewrite IH; [|intros x Hx; apply Hl; by right|lia..].
    rewrite fmap_cons. unfold sumZ. cbn [foldr]. do 2 f_equal. lia.
Qed.

Lemma total_exact (quantity price : CartItem → Z) (l : list CartItem) (total : Z) :
  (∀ d, d ∈ l → ci_quantity d = inject_Z (quantity d) ∧ ci_price d = inject_Z (price d) ∧
                (0 ≤ quantity d)%Z ∧ (0 ≤ price d)%Z) →
  (0 ≤ total)%Z → (total + sumZ ((λ d, price d * quantity d)%Z <$> l) ≤ 2 ^ 53)%Z →
  foldl (λ total item, jsAdd total (jsMul (ci_price item) (ci_quantity item)))
        (Finite (inject_Z total)) l
  = Finite (inject_Z (total + sumZ ((λ d, price d * quantity d)%Z <$> l))).
Proof.
  revert total. induction l as [|d l IH]; intros total Hl Hc Hs.
  - simpl. by rewrite Z.add_0_r.
  - destruct (Hl d) as (Hq & Hp & Hq0 & Hp0); [left|].
    assert (0 ≤ sumZ ((λ d, price d * quantity d)%Z <$> l))%Z as Hrest.
    { apply sumZ_nonneg, Forall_fmap, Forall_forall. intros x Hx. simpl.
      destruct (Hl x) as (_ & _ & ? & ?); [by right|]. lia. }
    rewrite fmap_cons in Hs. unfold sumZ in Hs. cbn [foldr] in Hs.
    fold (sumZ ((λ d, price d * quantity d)%Z <$> l)) in Hs.
    assert (0 ≤ price d * quantity d)%Z by lia.
    cbn [foldl]. rewrite Hq, Hp, jsMul_Z, jsAdd_Z by lia.
    rewrite IH; [|intros x Hx; apply Hl; by right|lia..].
    rewrite fmap_cons. unfold sumZ. cbn [foldr]. do 2 f_equal. lia.
Qed.

(** The totals of a cart of whole quantities and prices. *)
Lemma reduceSummary_exact (quantity price : CartItem → Z) userEmail (s : store) :
  (∀ d, d ∈ s → ci_userEmail d = userEmail →
        ci_quantity d = inject_Z (quantity d) ∧ ci_price d = inject_Z (price d) ∧
        (0 ≤ quantity d)%Z ∧ (0 ≤ price d)%Z) →
  (sumZ (quantity <$> filter (λ d, ci_userEmail d = userEmail) s) ≤ 2 ^ 53)%Z →
  (sumZ ((λ d, price d * quantity d)%Z <$> filter (λ d, ci_userEmail d = userEmail) s)
   ≤ 2 ^ 53)%Z →
  reduceSummary (getUserCart userEmail s)
  = (Finite (inject_Z (sumZ (quantity <$> filter (λ d, ci_userEmail d = userEmail) s))),
     Finite (inject_Z (sumZ ((λ d, price d * quantity d)%Z
                             <$> filter (λ d, ci_userEmail d = userEmail) s)))).
Proof.
  intros Hwhole Hcount Htotal.
  pose proof (getUserCart_Permutation userEmail s) as Hp.
  assert (∀ d, d ∈ getUserCart userEmail s →
               ci_quantity d = inject_Z (quantity d) ∧ ci_price d = inject_Z (price d) ∧
               (0 ≤ quantity d)%Z ∧ (0 ≤ price d)%Z) as Hl.
  { intros d Hd. rewrite Hp in Hd. apply list_elem_of_filter in Hd as [Ho Hd]. auto. }
  rewrite <- (sumZ_Permutation _ _ (fmap_Permutation quantity _ _ Hp)) in Hcount |- *.
  rewrite <- (sumZ_Permutation _ _
                (fmap_Permutation (λ d, price d * quantity d)%Z _ _ Hp)) in Htotal |- *.
  unfold reduceSummary. rewrite reduceSummary_from. f_equal.
  - change (Finite 0) with (Finite (inject_Z 0)).
    rewrite (count_exact quantity); [done| |done|lia].
    intros d Hd. destruct (Hl d Hd) as (? & _ & ? & _). done.
  - change (Finite 0) with (Finite (inject_Z 0)).
    rewrite (total_exact quantity price); [done|done|done|lia].
Qed.

(** C7.  The summary of an owner's cart is answered with 200.  Its
    [itemCount] is the sum of the quantities of the owner's cart items
    and its [totalPrice] the sum of price × quantity over them, both as
    the route computes them: in the order of the listed cart, each
    product and each partial sum rounded to a double.  Its [currency] is
    that of the first item of the listed cart.  The listed cart holds the
    items of the owner and no other; for an owner without items the
    summary is 0, 0 and USD.  When the quantities and the prices of the
    owner's items are whole numbers, not negative, with sums of at most
    2^53, no rounding occurs: [itemCount] and [totalPrice] are exactly
    the sums, whatever the order of the items. *)
Theorem getCartSummary_totals userEmail (s : store) :
  ∃ summary,
    getCartSummary userEmail s = Resp 200 (Success "" summary) ∧
    itemCount summary
    = foldl (λ count item, jsAdd count (ci_quantity item)) 0 (getUserCart userEmail s) ∧
    totalPrice summary
    = foldl (λ total item, jsAdd total (jsMul (ci_price item) (ci_quantity item)))
            0 (getUserCart userEmail s) ∧
    currency summary = match getUserCart userEmail s with
                       | first :: _ => ci_currency first
                       | [] => "USD"
                       end ∧
    getUserCart userEmail s ≡ₚ filter (λ d, ci_userEmail d = userEmail) s ∧
    (filter (λ d, ci_userEmail d = userEmail) s = [] →
     summary = {| itemCount := 0; totalPrice := 0; currency := "USD" |}) ∧
    (∀ quantity price : CartItem → Z,
       (∀ d, d ∈ s → ci_userEmail d = userEmail →
             ci_quantity d = inject_Z (quantity d) ∧ ci_price d = inject_Z (price d) ∧
             (0 ≤ quantity d)%Z ∧ (0 ≤ price d)%Z) →
       (sumZ (quantity <$> filter (λ d, ci_userEmail d = userEmail) s) ≤ 2 ^ 53)%Z →
       (sumZ ((λ d, price d * quantity d)%Z <$> filter (λ d, ci_userEmail d = userEmail) s)
        ≤ 2 ^ 53)%Z →
       itemCount summary
       = Finite (inject_Z (sumZ (quantity <$> filter (λ d, ci_userEmail d = userEmail) s))) ∧
       totalPrice summary
       = Finite (inject_Z (sumZ ((λ d, price d * quantity d)%Z
                                 <$> filter (λ d, ci_userEmail d = userEmail) s)))).
Proof.
  unfold getCartSummary, reduceSummary. rewrite reduceSummary_from.
  eexists. split; [done|]. cbn [itemCount totalPrice currency fst snd].
  split_and!; try done.
  - apply getUserCart_Permutation.
  - intros Hempty. unfold getUserCart. by rewrite Hempty.
  - intros quantity price Hwhole Hcount Htotal.
    pose proof (reduceSummary_exact quantity price userEmail s Hwhole Hcount Htotal) as H.
    unfold reduceSummary in H. rewrite reduceSummary_from in H.
    split; [exact (f_equal fst H)|exact (f_equal snd H)].
Qed.

End Summary.

(** ** Rejection of inline images *)

Lemma startsWith_data_truthy s :
  startsWith s "data:" = true → truthy (Some (VStr s)) = true.
Proof. by destruct s. Qed.

(** The check of a supplied field, by its verdict. *)
Lemma checkSupplied_verdict f (o : obj) :
  checkSupplied f false o
  = match Cart.suppliedVerdict o f with
    | Some m => Throw m
    | None => Ok o
    end.
Proof.
  unfold checkSupplied, Cart.suppliedVerdict, ensureHostedImage.
  destruct (truthy (o !! f)) eqn:T; cbn [negb].
  - destruct (o !! f) as [[| | |s| | |]|] eqn:E; cbn [mbind result_bind]; try done.
    + destruct (startsWith s "data:"); cbn [mbind result_bind]; [done|].
      by rewrite <- E, assign_lookup.
  - cbn [mbind result_bind]. by rewrite assign_lookup.
Qed.

(** The check of a required field whose supplied value passed. *)
Lemma checkRequired_verdict f (o : obj) :
  Cart.suppliedVerdict o f = None →
  checkRequired f o
  = match Cart.missingVerdict o f with
    | Some m => Throw m
    | None => Ok o
    end.
Proof.
  unfold checkRequired, Cart.suppliedVerdict, Cart.missingVerdict, ensureHostedImage.
  destruct (truthy (o !! f)) eqn:T; cbn [negb]; [|done].
  destruct (o !! f) as [[| | |s| | |]|] eqn:E; try done.
  destruct (startsWith s "data:"); [done|]. intros _.
  cbn [mbind result_bind]. by rewrite <- E, assign_lookup.
Qed.

(** The full check throws the verdict on the clone of the payload, and
    accepts the payload when there is none. *)
Lemma sanitize_full_rejection payload :
  sanitizeCartPayload payload false
  = match Cart.rejection (clonePayload payload) with
    | Some m => Throw m
    | None => Ok (stripEmbedded (reduceImageSettings (clonePayload payload)))
    end.
Proof.
  unfold sanitizeCartPayload, Cart.rejection, Cart.imageFields. cbn zeta.
  set (o := clonePayload payload).
  cbn [omap list_omap].
  rewrite (checkSupplied_verdict "image" o).
  destruct (Cart.suppliedVerdict o "image") as [m1|] eqn:E1; [done|].
  cbn [mbind result_bind]. rewrite (checkSupplied_verdict "finalImage" o).
  destruct (Cart.suppliedVerdict o "finalImage") as [m2|] eqn:E2; [done|].
  cbn [mbind result_bind]. rewrite (checkSupplied_verdict "originalImageUrl" o).
  destruct (Cart.suppliedVerdict o "originalImageUrl") as [m3|] eqn:E3; [done|].
  cbn [mbind result_bind negb app]. rewrite (checkRequired_verdict "image" o E1).
  destruct (Cart.missingVerdict o "image") as [n1|]; [done|].
  cbn [mbind result_bind]. rewrite (checkRequired_verdict "finalImage" o E2).
  destruct (Cart.missingVerdict o "finalImage") as [n2|]; [done|].
  cbn [mbind result_bind]. rewrite (checkRequired_verdict "originalImageUrl" o E3).
  by destruct (Cart.missingVerdict o "originalImageUrl") as [n3|].
Qed.

(** The verdict of a payload with an inline image is that of a supplied
    value: of the first image field whose supplied value fails. *)
Lemma rejection_inline (o : obj) field inline :
  field ∈ Cart.imageFields →
  o !! field = Some (VStr inline) → startsWith inline "data:" = true →
  ∃ g m before after,
    Cart.imageFields = before ++ g :: after ∧
    (∀ f, f ∈ before → Cart.suppliedVerdict o f = None) ∧
    Cart.suppliedVerdict o g = Some m ∧
    Cart.rejection o = Some m.
Proof.
  intros Hf Ho Hd.
  assert (Cart.suppliedVerdict o field
          = Some (field +:+ " must be uploaded before saving")) as Hv.
  { unfold Cart.suppliedVerdict. by rewrite Ho, (startsWith_data_truthy _ Hd), Hd. }
  unfold Cart.rejection, Cart.imageFields in *. cbn [omap list_omap].
  destruct (Cart.suppliedVerdict o "image") as [m1|] eqn:E1.
  { exists "image", m1, [], ["finalImage"; "originalImageUrl"].
    split_and!; try done. by intros f ?%elem_of_nil. }
  destruct (Cart.suppliedVerdict o "finalImage") as [m2|] eqn:E2.
  { exists "finalImage", m2, ["image"], ["originalImageUrl"].
    split_and!; try done. by intros f ->%list_elem_of_singleton. }
  destruct (Cart.suppliedVerdict o "originalImageUrl") as [m3|] eqn:E3.
  { exists "originalImageUrl", m3, ["image"; "finalImage"], [].
    split_and!; try done.
    intros f Hin. rewrite !elem_of_cons, elem_of_nil in Hin.
    by destruct Hin as [->|[->|[]]]. }
  exfalso. rewrite !elem_of_cons, elem_of_nil in Hf.
  destruct Hf as [->|[->|[->|[]]]]; congruence.
Qed.

(** The verdict is that of the first image field whose supplied value
    fails. *)
Lemma rejection_first (o : obj) g before after error :
  Cart.imageFields = before ++ g :: after →
  (∀ f, f ∈ before → Cart.suppliedVerdict o f = None) →
  Cart.suppliedVerdict o g = Some error → Cart.rejection o = Some error.
Proof.
  intros Hsplit Hbefore Hg. unfold Cart.rejection. rewrite Hsplit.
  assert (omap (Cart.suppliedVerdict o) before = []) as Hnone.
  { clear Hsplit. induction before as [|f before IH]; [done|].
    cbn [omap list_omap]. rewrite (Hbefore f) by left.
    apply IH. intros f' Hf'. apply Hbefore. by right. }
  rewrite omap_app, Hnone. cbn [omap list_omap app]. by rewrite Hg.
Qed.

Section RejectInline.

Import Cart.

Variable convertString : value → option string.
Variable convertNumber : value → option Q.
Variable newSpecs : option value → result value.
Variable newConfiguration : option value → result (option value).
Variable setSpecs : value → result value.
Variable setConfiguration : value → result value.

#[local] Abbreviation addOrUpdateItem :=
  (addOrUpdateItem convertString convertNumber newSpecs newConfiguration
     setSpecs setConfiguration).

(** The images of an item stored for a sanitized payload are hosted. *)
Lemma storedAs_hosted (processedData : obj) item :
  hosted (processedData !! "image") → hosted (processedData !! "finalImage") →
  hosted (processedData !! "originalImageUrl") →
  storedAs convertString convertNumber processedData item →
  noInlineImage item.
Proof.
  intros (s1 & E1 & _ & N1) (s2 & E2 & _ & N2) (s3 & E3 & _ & N3)
    (_ & _ & _ & _ & _ & _ & S1 & S2 & S3).
  specialize (S1 _ E1). specialize (S2 _ E2). specialize (S3 _ E3).
  injection S1 as S1. injection S2 as S2. injection S3 as S3.
  unfold noInlineImage. by rewrite <- S1, <- S2, <- S3.
Qed.

(** C4 (as amended).  The POST route rejects a parsed payload exactly by
    the verdict on its image fields: when there is one the route answers
    400 with it and stores nothing.  A payload with an image field
    ([image], [finalImage], [originalImageUrl]) that is a string
    beginning with [data:] has a verdict, so it is rejected; the error is
    that of the first image field whose supplied value fails its check,
    ["<field> must be a string URL"] for a value that is no string and
    ["<field> must be uploaded before saving"] for a string that begins
    with [data:]; this is the error of every payload whose first truthy
    image field that is not a hosted string fails in one of these ways.  Every item that the route accepts, for a payload whose
    keys are data paths of the schema, has [image], [finalImage] and
    [originalImageUrl] values that do not begin with [data:]. *)
Theorem reject_inline_images now reqBody (s : store) :
  json (VObj reqBody) →
  (∀ error,
     rejection reqBody = Some error →
     addOrUpdateItem now reqBody s = (Resp 400 (Failure error), s)) ∧
  (∀ g before after,
     imageFields = before ++ g :: after →
     (∀ f, f ∈ before →
           truthy (reqBody !! f) = false ∨
           ∃ url, reqBody !! f = Some (VStr url) ∧ startsWith url "data:" = false) →
     truthy (reqBody !! g) = true →
     (∀ data, reqBody !! g = Some (VStr data) → startsWith data "data:" = true →
        addOrUpdateItem now reqBody s
        = (Resp 400 (Failure (g +:+ " must be uploaded before saving")), s)) ∧
     ((∀ t, reqBody !! g ≠ Some (VStr t)) →
      addOrUpdateItem now reqBody s
      = (Resp 400 (Failure (g +:+ " must be a string URL")), s))) ∧
  (∀ field inline,
     field ∈ imageFields →
     reqBody !! field = Some (VStr inline) →
     startsWith inline "data:" = true →
     ∃ g error before after,
       imageFields = before ++ g :: after ∧
       (∀ f, f ∈ before →
             truthy (reqBody !! f) = false ∨
             ∃ url, reqBody !! f = Some (VStr url) ∧ startsWith url "data:" = false) ∧
       truthy (reqBody !! g) = true ∧
       ((∃ data, reqBody !! g = Some (VStr data) ∧ startsWith data "data:" = true ∧
                 error = g +:+ " must be uploaded before saving") ∨
        ((∀ t, reqBody !! g ≠ Some (VStr t)) ∧ error = g +:+ " must be a string URL")) ∧
       addOrUpdateItem now reqBody s = (Resp 400 (Failure error), s)) ∧
  (onlyDataPaths reqBody →
   ∀ r s' message item,
     addOrUpdateItem now reqBody s = (r, s') →
     body r = Success message (Some item) →
     item ∈ s' ∧
     startsWith (ci_image item) "data:" = false ∧
     startsWith (ci_finalImage item) "data:" = false ∧
     startsWith (ci_originalImageUrl item) "data:" = false).
Proof.
  intros Hjson. pose proof (clonePayload_json reqBody Hjson) as Hclone.
  assert (∀ error, rejection reqBody = Some error →
            addOrUpdateItem now reqBody s = (Resp 400 (Failure error), s)) as Hreject.
  { intros error He. unfold Cart.addOrUpdateItem.
    by rewrite sanitize_full_rejection, Hclone, He. }
  split_and!; [done| | |].
  - intros g before after Hsplit Hbefore Hg.
    assert (∀ f, f ∈ before → suppliedVerdict reqBody f = None) as Hpass.
    { intros f Hf. unfold suppliedVerdict.
      destruct (Hbefore f Hf) as [->|(url & -> & Hu)]; [done|].
      rewrite Hu. by destruct (truthy (Some (VStr url))). }
    split.
    + intros data Hd Hp. apply Hreject.
      apply (rejection_first reqBody g before after); [done..|].
      unfold suppliedVerdict. by rewrite Hg, Hd, Hp.
    + intros Hn. apply Hreject.
      apply (rejection_first reqBody g before after); [done..|].
      unfold suppliedVerdict. rewrite Hg.
      destruct (reqBody !! g) as [[| | |t| | |]|]; try done. by destruct (Hn t).
  - intros field inline Hfield Hinline Hdata.
    destruct (rejection_inline reqBody field inline Hfield Hinline Hdata)
      as (g & error & before & after & Hsplit & Hbefore & Hg & Hrej).
    exists g, error, before, after. split_and!; [done| | | |by apply Hreject].
    + intros f Hf. specialize (Hbefore f Hf). unfold suppliedVerdict in Hbefore.
      destruct (truthy (reqBody !! f)); [|by left]. right.
      destruct (reqBody !! f) as [[| | |url| | |]|]; try done.
      destruct (startsWith url "data:") eqn:Hu; [done|]. by exists url.
    + unfold suppliedVerdict in Hg. by destruct (truthy (reqBody !! g)).
    + unfold suppliedVerdict in Hg. destruct (truthy (reqBody !! g)); [|done].
      destruct (reqBody !! g) as [[| | |data| | |]|];
        try (right; split; [done|congruence]).
      destruct (startsWith data "data:") eqn:Hd; [|done].
      left. exists data. split_and!; [done..|congruence].
  - intros _ r s' message item E Hbody.
    apply addOrUpdateItem_inv in E
      as [(m & _ & -> & _)|(pd & Es & [[-> _]|[H|H]])]; [done..| |].
    + destruct H as (id & owner & i & existing & u & Eid & Eo & Ef & Eu & _ & -> & ->).
      simpl in Hbody. injection Hbody as _ <-.
      apply list_find_Some in Ef as (Hi & _ & _).
      apply sanitize_full_Ok in Es as (H1 & H2 & H3 & ->).
      rewrite <- (reduce_strip_other _ "image") in H1 by done.
      rewrite <- (reduce_strip_other _ "finalImage") in H2 by done.
      rewrite <- (reduce_strip_other _ "originalImageUrl") in H3 by done.
      split.
      * apply list_elem_of_lookup. exists i. apply list_lookup_insert_eq.
        by apply lookup_lt_Some in Hi.
      * apply (storedAs_hosted _ _ H1 H2 H3).
        by apply (applyUpdate_storedAs convertString convertNumber setSpecs setConfiguration).
    + destruct H as (id & owner & doc & Eid & Eo & Ef & En & _ & -> & ->).
      simpl in Hbody. injection Hbody as _ <-.
      apply sanitize_full_Ok in Es as (H1 & H2 & H3 & ->).
      rewrite <- (reduce_strip_other _ "image") in H1 by done.
      rewrite <- (reduce_strip_other _ "finalImage") in H2 by done.
      rewrite <- (reduce_strip_other _ "originalImageUrl") in H3 by done.
      split; [apply elem_of_app; right; left|].
      apply (storedAs_hosted _ _ H1 H2 H3).
      by apply newDocument_Ok in En as (_ & _ & _ & _ & _ & _ & Hst).
Qed.

End RejectInline.

(** ** The sanitizer on its own results *)


(** A payload passes the partial check exactly when each image field it
    holds with a truthy value is hosted. *)
Lemma sanitize_partial_hosted payload sanitized f :
  sanitizeCartPayload payload true = Ok sanitized →
  f ∈ Cart.imageFields →
  truthy (clonePayload payload !! f) = true → Cart.hosted (clonePayload payload !! f).
Proof.
  unfold sanitizeCartPayload. cbn zeta. intros H Hf. unbind H.
  apply checkSupplied_Ok in Ha as [-> H1].
  apply checkSupplied_Ok in Ha0 as [-> H2].
  apply checkSupplied_Ok in Ha1 as [-> H3].
  unfold Cart.imageFields in Hf.
  rewrite !elem_of_cons, elem_of_nil in Hf.
  destruct Hf as [->|[->|[->|[]]]]; done.
Qed.

Lemma sanitize_partial_intro payload :
  (∀ f, f ∈ Cart.imageFields →
        truthy (clonePayload payload !! f) = true → Cart.hosted (clonePayload payload !! f)) →
  sanitizeCartPayload payload true
  = Ok (stripEmbedded (reduceImageSettings (clonePayload payload))).
Proof.
  intros Hh.
  assert (∀ f o, (truthy (o !! f) = true → Cart.hosted (o !! f)) →
                 checkSupplied f true o = Ok o) as Hs.
  { intros f o H. unfold checkSupplied. destruct (truthy (o !! f)) eqn:T.
    - rewrite (ensureHostedImage_hosted (o !! f) f true) by auto.
      simpl. by rewrite assign_lookup.
    - simpl. by rewrite assign_lookup. }
  unfold sanitizeCartPayload. cbn zeta.
  rewrite (Hs "image") by (apply Hh; set_solver). cbn [mbind result_bind].
  rewrite (Hs "finalImage") by (apply Hh; set_solver). cbn [mbind result_bind].
  rewrite (Hs "originalImageUrl") by (apply Hh; set_solver). done.
Qed.

(** An inline image in a payload makes both checks fail. *)
Lemma sanitize_inline_Throw payload partial f inline :
  f ∈ Cart.imageFields → payload !! f = Some (VStr inline) →
  startsWith inline "data:" = true →
  ∃ m, sanitizeCartPayload payload partial = Throw m.
Proof.
  intros Hf Hv Hp.
  destruct (sanitizeCartPayload payload partial) as [sanitized|m] eqn:E; [|by eexists].
  exfalso.
  assert (Cart.hosted (clonePayload payload !! f)) as (s & Hs & _ & Hn).
  { destruct partial.
    - apply (sanitize_partial_hosted _ _ f E Hf).
      rewrite (clonePayload_str _ _ _ Hv). by apply startsWith_data_truthy.
    - apply sanitize_full_Ok in E as (H1 & H2 & H3 & _).
      unfold Cart.imageFields in Hf. rewrite !elem_of_cons, elem_of_nil in Hf.
      destruct Hf as [->|[->|[->|[]]]]; done. }
  rewrite (clonePayload_str _ _ _ Hv) in Hs. injection Hs as <-. congruence.
Qed.

(** What the sanitizer leaves of a key that the payload does not hold. *)
Lemma sanitized_absent (payload : obj) k :
  payload !! k = None →
  stripEmbedded (reduceImageSettings (clonePayload payload)) !! k = None.
Proof.
  intros Hk.
  assert (clonePayload payload !! k = None) as Hc.
  { unfold clonePayload. by rewrite lookup_omap, Hk. }
  destruct (decide (k = "configuration")) as [->|Hne].
  - rewrite sanitized_configuration_other; [done|]. intros c. by rewrite Hc.
  - by rewrite reduce_strip_other.
Qed.

Lemma sanitized_number (payload : obj) k q :
  k ≠ "configuration" → payload !! k = Some (VNum q) →
  stripEmbedded (reduceImageSettings (clonePayload payload)) !! k = Some (VNum q).
Proof.
  intros Hne Hk. rewrite reduce_strip_other by done.
  unfold clonePayload. by rewrite lookup_omap, Hk.
Qed.



Lemma sanitized_as_insert (p c : obj) :
  p !! "configuration" = Some (VObj c) →
  stripEmbedded (reduceImageSettings p)
  = <["configuration" := VObj (reducedConfiguration c)]> p.
Proof.
  intros Hc. apply map_eq. intros k.
  destruct (decide (k = "configuration")) as [->|Hne].
  - by rewrite (sanitized_configuration_obj p c Hc), lookup_insert_eq.
  - by rewrite reduce_strip_other, lookup_insert_ne.
Qed.

Lemma pickImageSettings_again x :
  pickImageSettings (VObj (pickImageSettings x)) = pickImageSettings x.
Proof.
  apply map_eq. intros k. rewrite (pickImageSettings_lookup (VObj _)).
  case_bool_decide as Hk; simpl.
  - done.
  - by rewrite pickImageSettings_lookup, bool_decide_eq_false_2.
Qed.

Lemma reducedConfiguration_again c :
  reducedConfiguration (reducedConfiguration c) = reducedConfiguration c.
Proof.
  apply map_eq. intros k.
  destruct (decide (k ∈ ["imageSettings"; "uploadedImages"; "logoFile"])) as [Hk|Hk].
  - rewrite !elem_of_cons, elem_of_nil in Hk. destruct Hk as [->|[->|[->|[]]]].
    + rewrite (reducedConfiguration_imageSettings (reducedConfiguration c)).
      rewrite (reducedConfiguration_imageSettings c).
      destruct (c !! "imageSettings") as [original|]; [|done].
      destruct (truthy (Some original)) eqn:T.
      * assert (truthy (Some (VObj (pickImageSettings original))) = true) as -> by done.
        by rewrite pickImageSettings_again.
      * by rewrite T.
    + destruct (reducedConfiguration_clean (reducedConfiguration c)) as (-> & _).
      by destruct (reducedConfiguration_clean c) as (-> & _).
    + destruct (reducedConfiguration_clean (reducedConfiguration c)) as (_ & -> & _).
      by destruct (reducedConfiguration_clean c) as (_ & -> & _).
  - by rewrite !reducedConfiguration_other.
Qed.

Lemma sanitized_again (p : obj) :
  stripEmbedded (reduceImageSettings (stripEmbedded (reduceImageSettings p)))
  = stripEmbedded (reduceImageSettings p).
Proof.
  destruct (p !! "configuration") as [[| | | | |c|]|] eqn:E;
    try (rewrite (sanitized_configuration_other p); [|intros c'; by rewrite E];
         apply sanitized_configuration_other; intros c'; by rewrite E).
  rewrite (sanitized_as_insert p c E).
  rewrite (sanitized_as_insert _ (reducedConfiguration c)) by apply lookup_insert_eq.
  by rewrite insert_insert_eq, reducedConfiguration_again.
Qed.

Lemma json_lookup (o : obj) k v : json (VObj o) → o !! k = Some v → json v.
Proof. inversion 1 as [| | | | |o' Ho]; subst. apply Ho. Qed.

(** The sanitizer keeps a parsed body a JSON value, unless the image
    settings are an array (which has a [filter] that is a function). *)
Lemma sanitized_json (p : obj) :
  json (VObj p) →
  (∀ c l, p !! "configuration" = Some (VObj c) → c !! "imageSettings" ≠ Some (VArr l)) →
  json (VObj (stripEmbedded (reduceImageSettings p))).
Proof.
  intros Hp Harr.
  destruct (p !! "configuration") as [[| | | | |c|]|] eqn:E;
    try (rewrite (sanitized_configuration_other p); [done|intros c'; by rewrite E]).
  rewrite (sanitized_as_insert p c E).
  pose proof (json_lookup p _ _ Hp E) as Hc.
  constructor. intros k v Hk.
  destruct (decide (k = "configuration")) as [->|Hne].
  2: { rewrite lookup_insert_ne in Hk by done. by apply (json_lookup p k). }
  rewrite lookup_insert_eq in Hk. injection Hk as <-.
  constructor. intros j w Hj.
  destruct (decide (j ∈ ["imageSettings"; "uploadedImages"; "logoFile"])) as [Hin|Hin].
  2: { rewrite reducedConfiguration_other in Hj by done. by apply (json_lookup c j). }
  rewrite !elem_of_cons, elem_of_nil in Hin. destruct Hin as [->|[->|[->|[]]]].
  - rewrite reducedConfiguration_imageSettings in Hj.
    destruct (c !! "imageSettings") as [original|] eqn:Ei; [|done].
    pose proof (json_lookup c _ _ Hc Ei) as Ho.
    destruct (truthy (Some original)); [|by injection Hj as <-].
    injection Hj as <-. constructor. intros f x Hf.
    rewrite pickImageSettings_lookup in Hf. case_bool_decide; [|done].
    destruct original as [| | | |l|o|]; simpl in Hf; try done.
    + by destruct (Harr c l).
    + by apply (json_lookup o f).
  - by destruct (reducedConfiguration_clean c) as (Hu & _); rewrite Hu in Hj.
  - by destruct (reducedConfiguration_clean c) as (_ & Hl & _); rewrite Hl in Hj.
Qed.


(** ** C10: embedded image data in the configuration *)

Lemma json_insert (o : obj) k v : json (VObj o) → json v → json (VObj (<[k := v]> o)).
Proof.
  intros Ho Hv. constructor. intros k' v' Hk.
  destruct (decide (k' = k)) as [->|Hne].
  - rewrite lookup_insert_eq in Hk. by injection Hk as <-.
  - rewrite lookup_insert_ne in Hk by done. by apply (json_lookup o k').
Qed.

(** The reduced configuration does not depend on what the configuration
    holds under [uploadedImages] and [logoFile]. *)
Lemma reducedConfiguration_ext (c c2 : obj) :
  (∀ k, k ∉ ["uploadedImages"; "logoFile"] → c2 !! k = c !! k) →
  reducedConfiguration c2 = reducedConfiguration c.
Proof.
  intros H. apply map_eq. intros k.
  destruct (decide (k ∈ ["imageSettings"; "uploadedImages"; "logoFile"])) as [Hk|Hk].
  - rewrite !elem_of_cons, elem_of_nil in Hk. destruct Hk as [->|[->|[->|[]]]].
    + rewrite !reducedConfiguration_imageSettings. rewrite H; [done|].
      rewrite !not_elem_of_cons. split_and!; try done. apply not_elem_of_nil.
    + destruct (reducedConfiguration_clean c2) as (-> & _).
      by destruct (reducedConfiguration_clean c) as (-> & _).
    + destruct (reducedConfiguration_clean c2) as (_ & -> & _).
      by destruct (reducedConfiguration_clean c) as (_ & -> & _).
  - rewrite !reducedConfiguration_other by done. apply H.
    rewrite !not_elem_of_cons in Hk. destruct Hk as (_ & H2 & H3 & _).
    rewrite !not_elem_of_cons. split_and!; try done. apply not_elem_of_nil.
Qed.

(** The sanitized payload does not depend on them either. *)
Lemma sanitize_embedded_ext (payload c c2 : obj) partial sanitized :
  json (VObj payload) → json (VObj c2) →
  payload !! "configuration" = Some (VObj c) →
  (∀ k, k ∉ ["uploadedImages"; "logoFile"] → c2 !! k = c !! k) →
  sanitizeCartPayload payload partial = Ok sanitized →
  sanitizeCartPayload (<["configuration" := VObj c2]> payload) partial = Ok sanitized.
Proof.
  intros Hjson Hjson2 Hc Hext H.
  pose proof (clonePayload_json payload Hjson) as Hclone.
  pose proof (clonePayload_json _ (json_insert payload "configuration" _ Hjson Hjson2))
    as Hclone2.
  assert (stripEmbedded (reduceImageSettings (<["configuration" := VObj c2]> payload))
          = stripEmbedded (reduceImageSettings payload)) as Hsame.
  { rewrite (sanitized_as_insert payload c Hc).
    rewrite (sanitized_as_insert _ c2) by apply lookup_insert_eq.
    by rewrite insert_insert_eq, (reducedConfiguration_ext c c2). }
  assert (∀ f, f ∈ Cart.imageFields →
               (<["configuration" := VObj c2]> payload) !! f = payload !! f) as Hf.
  { intros f Hin. apply lookup_insert_ne.
    unfold Cart.imageFields in Hin. rewrite !elem_of_cons, elem_of_nil in Hin.
    intros <-. by destruct Hin as [?|[?|[?|[]]]]. }
  destruct partial.
  - rewrite sanitize_partial_intro.
    + rewrite Hclone2, Hsame. apply sanitize_partial_Ok in H. rewrite Hclone in H.
      by rewrite H.
    + intros f Hin. rewrite Hclone2, (Hf f Hin), <- Hclone.
      by apply (sanitize_partial_hosted payload sanitized).
  - apply sanitize_full_Ok in H as (H1 & H2 & H3 & ->). rewrite Hclone in *.
    rewrite sanitize_full_intro; [by rewrite Hclone2, Hsame|..];
      rewrite Hclone2, Hf; (done || set_solver).
Qed.

Section StripEmbedded.

Import Cart.

Variable convertString : value → option string.
Variable convertNumber : value → option Q.
Variable newSpecs : option value → result value.
Variable newConfiguration : option value → result (option value).
Variable setSpecs : value → result value.
Variable setConfiguration : value → result value.

#[local] Abbreviation addOrUpdateItem :=
  (addOrUpdateItem convertString convertNumber newSpecs newConfiguration
     setSpecs setConfiguration).
#[local] Abbreviation updateItem :=
  (updateItem convertString convertNumber setSpecs setConfiguration).

(** C10 (as amended).  For a parsed body, the sanitizer leaves every key
    but [configuration] unchanged.  Of a configuration that is an object
    it removes [uploadedImages] and [logoFile], replaces truthy image
    settings by an object with exactly the fields [zoom], [position],
    [adjustments], [filter] and [crop] read from them, and leaves the rest
    of the configuration unchanged; a configuration that is not an object
    passes unchanged.  What the configuration of the request holds under
    [uploadedImages] and [logoFile] has no effect on the sanitized
    payload, and the replies and the stores of the POST and PUT routes
    depend on the body through the sanitized payload only.  For a body
    whose keys are data paths of the schema, the configuration of an
    accepted item is what the storage layer makes of the sanitized
    configuration ([newConfiguration] for a created item,
    [setConfiguration] for an updated one), or the stored
    configuration where an update has none. *)
Theorem sanitize_strips_embedded_images now reqBody partial sanitized (s : store) :
  json (VObj reqBody) →
  sanitizeCartPayload reqBody partial = Ok sanitized →
  (∀ k, k ≠ "configuration" → sanitized !! k = reqBody !! k) ∧
  (∀ c, reqBody !! "configuration" = Some (VObj c) →
     sanitized !! "configuration" = Some (VObj (reducedConfiguration c)) ∧
     reducedConfiguration c !! "uploadedImages" = None ∧
     reducedConfiguration c !! "logoFile" = None ∧
     (∀ k, k ∉ ["imageSettings"; "uploadedImages"; "logoFile"] →
           reducedConfiguration c !! k = c !! k) ∧
     (∀ original, c !! "imageSettings" = Some original → truthy (Some original) = true →
        ∃ settings,
          reducedConfiguration c !! "imageSettings" = Some (VObj settings) ∧
          ∀ k, settings !! k
               = if bool_decide (k ∈ imageSettingsFields) then getprop original k else None) ∧
     (truthy (c !! "imageSettings") = false →
      reducedConfiguration c !! "imageSettings" = c !! "imageSettings")) ∧
  ((∀ c, reqBody !! "configuration" ≠ Some (VObj c)) →
   sanitized !! "configuration" = reqBody !! "configuration") ∧
  (∀ c c', reqBody !! "configuration" = Some (VObj c) → json (VObj c') →
     (∀ k, k ∉ ["uploadedImages"; "logoFile"] → c' !! k = c !! k) →
     sanitizeCartPayload (<["configuration" := VObj c']> reqBody) partial = Ok sanitized) ∧
  (partial = false →
   (∀ reqBody', sanitizeCartPayload reqBody' false = Ok sanitized →
      addOrUpdateItem now reqBody' s = addOrUpdateItem now reqBody s) ∧
   (onlyDataPaths reqBody →
    ∀ r s' message item,
      addOrUpdateItem now reqBody s = (r, s') →
      body r = Success message (Some item) →
      item ∈ s' ∧
      ((status r = 201%nat ∧
        newConfiguration (sanitized !! "configuration") = Ok (ci_configuration item)) ∨
       (status r = 200%nat ∧
        ((∃ v c, sanitized !! "configuration" = Some v ∧ setConfiguration v = Ok c ∧
                 ci_configuration item = Some c) ∨
         (sanitized !! "configuration" = None ∧
          ∃ old, old ∈ s ∧ ci_configuration item = ci_configuration old)))))) ∧
  (partial = true → reqBody !! "userEmail" = None →
   ∀ id userEmail,
     (∀ reqBody', sanitizeCartPayload (delete "userEmail" reqBody') true = Ok sanitized →
        reqBody' !! "userEmail" = Some userEmail →
        updateItem now id reqBody' s
        = updateItem now id (<["userEmail" := userEmail]> reqBody) s) ∧
     (onlyDataPaths reqBody →
      ∀ r s' message item,
        updateItem now id (<["userEmail" := userEmail]> reqBody) s = (r, s') →
        body r = Success message (Some item) →
        item ∈ s' ∧ status r = 200%nat ∧
        ((∃ v c, sanitized !! "configuration" = Some v ∧ setConfiguration v = Ok c ∧
                 ci_configuration item = Some c) ∨
         (sanitized !! "configuration" = None ∧
          ∃ old, old ∈ s ∧ ci_configuration item = ci_configuration old)))).
Proof.
  intros Hjson Es.
  assert (sanitized = stripEmbedded (reduceImageSettings reqBody)) as Hs.
  { rewrite <- (clonePayload_json reqBody Hjson).
    destruct partial; [by apply sanitize_partial_Ok|].
    by apply sanitize_full_Ok in Es as (_ & _ & _ & ->). }
  split_and!.
  - intros k Hk. rewrite Hs. by apply reduce_strip_other.
  - intros c Hc. split_and!.
    + rewrite Hs. by apply sanitized_configuration_obj.
    + apply reducedConfiguration_clean.
    + apply reducedConfiguration_clean.
    + apply reducedConfiguration_other.
    + intros original Ho T. rewrite reducedConfiguration_imageSettings, Ho, T.
      eexists. split; [done|]. apply pickImageSettings_lookup.
    + intros T. rewrite reducedConfiguration_imageSettings.
      destruct (c !! "imageSettings") as [original|]; [|done]. by rewrite T.
  - intros Hc. by rewrite Hs, sanitized_configuration_other.
  - intros c c' Hc Hj Hext. by apply (sanitize_embedded_ext reqBody c c').
  - intros ->. split.
    + intros reqBody' Es'. unfold Cart.addOrUpdateItem. by rewrite Es, Es'.
    + intros _ r s' message item E Hbody.
      apply addOrUpdateItem_inv in E
        as [(m & _ & -> & _)|(pd & Es' & [[-> _]|[H|H]])]; [done..| |].
      * destruct H as (id & owner & i & existing & u & _ & _ & Ef & Eu & _ & -> & ->).
        simpl in Hbody. injection Hbody as _ <-.
        rewrite Es in Es'. injection Es' as <-.
        apply list_find_Some in Ef as (Hi & _ & _).
        split; [apply list_elem_of_insert; by apply lookup_lt_Some in Hi|].
        right. split; [done|].
        destruct (applyUpdate_nested convertString convertNumber setSpecs setConfiguration
                    now sanitized u existing Eu) as (_ & _ & Hc1 & Hc2).
        destruct (sanitized !! "configuration") as [v|] eqn:Ev.
        -- left. destruct (Hc1 v eq_refl) as (c & Hc & Hi'). by exists v, c.
        -- right. split; [done|]. exists existing. split; [|by apply Hc2].
           by apply list_elem_of_lookup_2 in Hi.
      * destruct H as (id & owner & doc & _ & _ & _ & En & _ & -> & ->).
        simpl in Hbody. injection Hbody as _ <-.
        rewrite Es in Es'. injection Es' as <-.
        split; [apply elem_of_app; right; left|].
        left. split; [done|].
        by apply newDocument_Ok in En as (_ & _ & _ & _ & _ & Hc & _).
  - intros -> Hue id userEmail. split.
    + intros reqBody' Es' Hue'. unfold Cart.updateItem. cbn zeta.
      rewrite delete_insert_eq, (delete_id reqBody) by done.
      by rewrite Es, Es', Hue', lookup_insert_eq.
    + intros _ r s' message item E Hbody.
      apply updateItem_inv in E as [(_ & -> & _)|(_ & [(m & _ & -> & _)|(pd & Es' & H)])];
        [done..|].
      rewrite delete_insert_eq, (delete_id reqBody) in Es' by done.
      rewrite Es in Es'. injection Es' as <-.
      destruct H as [(-> & _)|[(owner & u & _ & _ & _ & -> & _)|H]]; [done..|].
      destruct H as (owner & u & i & old & _ & Eu & Ef & _ & -> & ->).
      simpl in Hbody. injection Hbody as _ <-.
      apply list_find_Some in Ef as (Hi & _ & _).
      split; [apply list_elem_of_insert; by apply lookup_lt_Some in Hi|].
      split; [done|].
      destruct (applyUpdate_nested convertString convertNumber setSpecs setConfiguration
                  now sanitized u old Eu) as (_ & _ & Hc1 & Hc2).
      destruct (sanitized !! "configuration") as [v|] eqn:Ev.
      * left. destruct (Hc1 v eq_refl) as (c & Hc & Hi'). by exists v, c.
      * right. split; [done|]. exists old. split; [|by apply Hc2].
        by apply list_elem_of_lookup_2 in Hi.
Qed.

End StripEmbedded.

(** ** Orders *)

Lemma mapM_Ok {A B} (f : A → result B) xs ys :
  Checkout.mapM f xs = Ok ys ↔ Forall2 (λ x y, f x = Ok y) xs ys.
Proof.
  revert ys. induction xs as [|x xs IH]; intros ys; simpl.
  - split; [intros [= <-]; constructor|by intros ->%Forall2_nil_inv_l].
  - split.
    + intros H. apply bind_Ok in H as (y & Hy & H).
      apply bind_Ok in H as (ys' & Hys & [= <-]).
      constructor; [done|by apply IH].
    + intros (y & ys' & Hy & Hys & ->)%Forall2_cons_inv_l.
      apply IH in Hys. by rewrite Hy, Hys.
Qed.

Section Orders.

Import Checkout.

Variable convertString : value → option string.
Variable convertNumber : value → option Q.
Variable convertObjectId : value → option string.
Variable validateOrder : obj → list string.
Variable validatePayment : obj → list string.
Variable production : bool.

#[local] Abbreviation createOrder :=
  (createOrder convertString convertNumber convertObjectId validateOrder production).
#[local] Abbreviation saveOrder := (saveOrder convertString convertNumber).
#[local] Abbreviation findOwned := (findOwned convertObjectId).

Lemma snapshotItem_Ok cartItems item entry :
  snapshotItem cartItems item = Ok entry →
  ∃ cartItem,
    cartItem ∈ cartItems ∧
    getprop item "cartItemId" = Some (VStr (ci_id cartItem)) ∧
    member (Some item) "cartItemId" = Ok (Some (VStr (ci_id cartItem))) ∧
    entry = snapshot (ci_id cartItem) cartItem.
Proof.
  unfold snapshotItem. intros H. apply bind_Ok in H as (cartItemId & Hm & H).
  unfold findCartItem in H.
  destruct cartItemId as [[]|]; try done.
  destruct (list_find (λ ci, ci_id ci = s) cartItems) as [[i cartItem]|] eqn:Ef; [|done].
  simpl in H. injection H as <-.
  apply list_find_Some in Ef as (Hi & <- & _).
  exists cartItem. split_and!; try done.
  - by apply list_elem_of_lookup_2 in Hi.
  - destruct item; simpl in Hm; first [discriminate|by injection Hm].
Qed.

Lemma findOwned_Ok cartItemIds userId carts cartItems :
  findOwned cartItemIds userId carts = Ok cartItems →
  ∀ cartItem, cartItem ∈ cartItems → cartItem ∈ carts ∧ ci_userId cartItem = userId.
Proof.
  unfold Checkout.findOwned. intros H. apply bind_Ok in H as (ids & _ & [= <-]).
  intros cartItem [[_ Hu] Hin]%list_elem_of_filter. done.
Qed.

(** The items of the request enter [saveOrder] through the snapshots
    only. *)
Lemma saveOrder_items now newId userId reqBody items orderItems orders :
  saveOrder now newId userId (<["items" := items]> reqBody) orderItems orders
  = saveOrder now newId userId reqBody orderItems orders.
Proof. unfold Checkout.saveOrder. by rewrite !lookup_insert_ne. Qed.

Lemma saveOrder_Ok now newId userId reqBody orderItems orders r orders' :
  saveOrder now newId userId reqBody orderItems orders = Ok (r, orders') →
  ∃ order,
    r = Resp 201 (Success "Order created successfully" order) ∧
    orders' = orders ++ [order] ∧
    o_items order = orderItems ∧ o_userId order = userId ∧ o_id order = newId ∧
    o_status order = "pending" ∧ o_paymentStatus order = "pending".
Proof.
  unfold Checkout.saveOrder. intros H.
  apply bind_Ok in H as (? & _ & H). apply bind_Ok in H as (? & _ & H).
  apply bind_Ok in H as (? & _ & H). apply bind_Ok in H as (? & _ & H).
  apply bind_Ok in H as (? & _ & H). apply bind_Ok in H as (? & _ & H).
  apply bind_Ok in H as (? & _ & H). apply bind_Ok in H as (? & _ & H).
  injection H as <- <-. eexists. by split_and!.
Qed.

(** The outcomes of the route that creates an order. *)
Lemma createOrder_inv now newId userId reqBody carts orders r orders' :
  createOrder now newId userId reqBody carts orders = (r, orders') →
  (orders' = orders ∧ status r ≠ 201%nat) ∨
  (∃ items cartItemIds cartItems orderItems,
     validateOrder reqBody = [] ∧
     reqBody !! "items" = Some (VArr items) ∧
     mapM (λ item, member (Some item) "cartItemId") items = Ok cartItemIds ∧
     findOwned cartItemIds userId carts = Ok cartItems ∧
     length cartItems = length cartItemIds ∧
     mapM (snapshotItem cartItems) items = Ok orderItems ∧
     saveOrder now newId userId reqBody orderItems orders = Ok (r, orders')).
Proof.
  unfold Checkout.createOrder. case_bool_decide as Hv.
  { intros [= <- <-]. by left. }
  destruct (reqBody !! "items") as [[]|] eqn:Ei; simpl;
    try (intros [= <- <-]; left; by destruct production).
  destruct (mapM _ l) as [cartItemIds|] eqn:Em; simpl;
    [|intros [= <- <-]; left; by destruct production].
  destruct (Checkout.findOwned _ cartItemIds userId carts) as [cartItems|] eqn:Ef; simpl;
    [|intros [= <- <-]; left; by destruct production].
  case_bool_decide as Hlen.
  { intros [= <- <-]. by left. }
  destruct (mapM (snapshotItem cartItems) l) as [orderItems|] eqn:Es; simpl;
    [|intros [= <- <-]; left; by destruct production].
  destruct (Checkout.saveOrder _ _ now newId userId reqBody orderItems orders)
    as [[r0 o0]|] eqn:Ev; simpl;
    [|intros [= <- <-]; left; by destruct production].
  intros [= <- <-]. right. exists l, cartItemIds, cartItems, orderItems. by split_and!.
Qed.

(** C2.  Every entry of the [items] of a created order belongs to a
    stored cart item of the requesting owner, the one whose [_id] the
    request line names: its [cartItemId] is that [_id], and its [name],
    [quantity], [price], [currency], [finalImage], [originalImageUrl],
    [mousepadType], [mousepadSize] and [thickness] are those of that
    record.  Nothing else of a request line reaches the order: a request
    whose lines name the same cart item ids, with any other fields,
    creates the same order. *)
Theorem createOrder_snapshot now newId userId reqBody carts orders message order orders' :
  createOrder now newId userId reqBody carts orders
  = (Resp 201 (Success message order), orders') →
  ∃ items,
    reqBody !! "items" = Some (VArr items) ∧
    orders' = orders ++ [order] ∧
    Forall2
      (λ item entry,
         ∃ cartItem,
           cartItem ∈ carts ∧ ci_userId cartItem = userId ∧
           getprop item "cartItemId" = Some (VStr (ci_id cartItem)) ∧
           oi_cartItemId entry = ci_id cartItem ∧
           oi_name entry = ci_name cartItem ∧
           oi_quantity entry = ci_quantity cartItem ∧
           oi_price entry = ci_price cartItem ∧
           oi_currency entry = ci_currency cartItem ∧
           oi_finalImage entry = ci_finalImage cartItem ∧
           oi_originalImageUrl entry = ci_originalImageUrl cartItem ∧
           oi_mousepadType entry = ci_mousepadType cartItem ∧
           oi_mousepadSize entry = ci_mousepadSize cartItem ∧
           oi_thickness entry = ci_thickness cartItem)
      items (o_items order) ∧
    ∀ tampered,
      Forall2 (λ item item', getprop item' "cartItemId" = getprop item "cartItemId")
              items tampered →
      validateOrder (<["items" := VArr tampered]> reqBody) = [] →
      createOrder now newId userId (<["items" := VArr tampered]> reqBody) carts orders
      = (Resp 201 (Success message order), orders').
Proof.
  intros E. pose proof E as E'.
  apply createOrder_inv in E' as [[_ H]|H]; [done|].
  destruct H as (items & cartItemIds & cartItems & orderItems
                 & Hv & Hitems & Hids & Hfind & Hlen & Hsnap & Hsave).
  pose proof Hsave as Hsave'.
  apply saveOrder_Ok in Hsave' as (order' & [= -> ->] & -> & Hoi & _).
  exists items. split_and!; [done|done| |].
  - rewrite Hoi. apply mapM_Ok in Hsnap.
    eapply Forall2_impl; [exact Hsnap|]. simpl.
    intros item entry (cartItem & Hin & Hget & _ & ->)%snapshotItem_Ok.
    destruct (findOwned_Ok _ _ _ _ Hfind cartItem Hin) as [Hc Hu].
    exists cartItem. by split_and!.
  - intros tampered Hsame Hv'.
    assert (∀ item item', (∃ entry, snapshotItem cartItems item = Ok entry) →
              getprop item' "cartItemId" = getprop item "cartItemId" →
              member (Some item') "cartItemId" = member (Some item) "cartItemId") as Hmember.
    { intros item item' [entry (cartItem & _ & Hget & Hm & _)%snapshotItem_Ok] Hg.
      rewrite Hm. rewrite Hget in Hg.
      destruct item'; simpl in Hg; try discriminate. simpl. by rewrite Hg. }
    assert (Forall2 (λ item item', (∃ entry, snapshotItem cartItems item = Ok entry) ∧
                       getprop item' "cartItemId" = getprop item "cartItemId")
                    items tampered) as Hboth.
    { apply mapM_Ok in Hsnap. clear -Hsnap Hsame. revert tampered Hsame.
      induction Hsnap as [|item entry items entries H1 _ IH]; intros tampered Hsame.
      - apply Forall2_nil_inv_l in Hsame as ->. constructor.
      - apply Forall2_cons_inv_l in Hsame as (item' & rest & H2 & H3 & ->).
        constructor; [by eauto|by apply IH]. }
    assert (mapM (λ item, member (Some item) "cartItemId") tampered = Ok cartItemIds) as Hids'.
    { apply mapM_Ok. apply mapM_Ok in Hids. clear -Hids Hboth Hmember.
      revert cartItemIds Hids. induction Hboth as [|item item' items tampered [H1 H2] _ IH];
        intros cartItemIds Hids.
      - apply Forall2_nil_inv_l in Hids as ->. constructor.
      - apply Forall2_cons_inv_l in Hids as (i0 & rest & H3 & H4 & ->).
        constructor; [|by apply IH]. by rewrite (Hmember item item'). }
    assert (mapM (snapshotItem cartItems) tampered = Ok orderItems) as Hsnap'.
    { apply mapM_Ok. apply mapM_Ok in Hsnap. clear -Hsnap Hboth Hmember.
      revert orderItems Hsnap. induction Hboth as [|item item' items tampered [H1 H2] _ IH];
        intros orderItems Hsnap.
      - apply Forall2_nil_inv_l in Hsnap as ->. constructor.
      - apply Forall2_cons_inv_l in Hsnap as (e0 & rest & H3 & H4 & ->).
        constructor; [|by apply IH].
        unfold snapshotItem in *. by rewrite (Hmember item item'). }
    unfold Checkout.createOrder.
    rewrite bool_decide_eq_false_2 by (rewrite Hv'; by intros H; apply H).
    rewrite lookup_insert_eq. cbn [mbind result_bind].
    rewrite Hids'. cbn [mbind result_bind]. rewrite Hfind. cbn [mbind result_bind].
    rewrite bool_decide_eq_false_2 by (rewrite Hlen; by intros H; apply H).
    rewrite Hsnap'. cbn [mbind result_bind]. rewrite saveOrder_items. by rewrite Hsave.
Qed.

(** C3.  When the number of cart items found for the requested ids and
    the requesting owner differs from the number of requested ids, the
    route answers 400 with its ownership error and stores no order.  An
    order is stored only with the answer 201, and then every requested id
    is the [_id] of a stored cart item of the requesting owner. *)
Theorem createOrder_all_or_nothing now newId userId reqBody carts orders r orders' :
  createOrder now newId userId reqBody carts orders = (r, orders') →
  (∀ items cartItemIds cartItems,
     validateOrder reqBody = [] →
     reqBody !! "items" = Some (VArr items) →
     mapM (λ item, member (Some item) "cartItemId") items = Ok cartItemIds →
     findOwned cartItemIds userId carts = Ok cartItems →
     length cartItems ≠ length cartItemIds →
     r = Resp 400 (Failure "Some cart items do not belong to you or do not exist") ∧
     orders' = orders) ∧
  (status r ≠ 201%nat → orders' = orders) ∧
  (status r = 201%nat →
   length orders' = S (length orders) ∧
   ∃ items,
     reqBody !! "items" = Some (VArr items) ∧
     ∀ item, item ∈ items →
       ∃ cartItem,
         cartItem ∈ carts ∧ ci_userId cartItem = userId ∧
         getprop item "cartItemId" = Some (VStr (ci_id cartItem))).
Proof.
  intros E. split_and!.
  - intros items cartItemIds cartItems Hv Hitems Hids Hfind Hlen.
    unfold Checkout.createOrder in E.
    rewrite bool_decide_eq_false_2 in E by (rewrite Hv; by intros H; apply H).
    rewrite Hitems in E. cbn [mbind result_bind] in E.
    rewrite Hids in E. cbn [mbind result_bind] in E.
    rewrite Hfind in E. cbn [mbind result_bind] in E.
    rewrite bool_decide_eq_true_2 in E by done.
    by injection E as <- <-.
  - intros Hst. apply createOrder_inv in E as [[-> _]|H]; [done|].
    destruct H as (items & cartItemIds & cartItems & orderItems & _ & _ & _ & _ & _ & _ & Hsave).
    apply saveOrder_Ok in Hsave as (order & -> & _). done.
  - intros Hst. apply createOrder_inv in E as [[_ H]|H]; [done|].
    destruct H as (items & cartItemIds & cartItems & orderItems
                   & Hv & Hitems & Hids & Hfind & Hlen & Hsnap & Hsave).
    apply saveOrder_Ok in Hsave as (order & _ & -> & _).
    split; [rewrite length_app; simpl; lia|].
    exists items. split; [done|].
    intros item Hin. apply mapM_Ok in Hsnap.
    apply list_elem_of_lookup in Hin as [i Hi].
    destruct (Forall2_lookup_l _ _ _ _ _ Hsnap Hi) as (entry & _ & Hentry).
    apply snapshotItem_Ok in Hentry as (cartItem & Hc & Hget & _).
    destruct (findOwned_Ok _ _ _ _ Hfind cartItem Hc) as [Hc' Hu].
    exists cartItem. by split_and!.
Qed.

End Orders.

(** ** Payment status and the notifier *)

Section PaymentStatus.

Import Checkout.

Variable convertString : value → option string.
Variable convertObjectId : value → option string.
Variable validatePayment : obj → list string.
Variable production : bool.

#[local] Abbreviation updatePaymentStatus :=
  (updatePaymentStatus convertString convertObjectId validatePayment production).
#[local] Abbreviation getOrderById := (getOrderById convertObjectId).
#[local] Abbreviation applyPayment := (applyPayment convertString).

Lemma applyPayment_string now paymentStatus transaction order :
  (∀ v, transaction = Some v → ∃ t, v = VStr t) →
  ∃ updated,
    applyPayment now (Some (VStr paymentStatus)) transaction order = Ok updated ∧
    o_paymentStatus updated = paymentStatus ∧
    o_status updated
    = default (o_status order) (derivedStatus (Some (VStr paymentStatus))) ∧
    o_id updated = o_id order ∧ o_userId updated = o_userId order ∧
    o_items updated = o_items order ∧ o_total updated = o_total order.
Proof.
  intros Ht. unfold Checkout.applyPayment. cbn [mbind result_bind castString].
  destruct (truthy transaction) eqn:T.
  - destruct transaction as [v|]; [|done].
    destruct (Ht v eq_refl) as [t ->]. simpl. eexists. by split_and!.
  - simpl. eexists. by split_and!.
Qed.

(** C5.  For an order that exists and belongs to the requester, and a
    request that passes the validation, the payment route answers 200 with
    the updated order: its [paymentStatus] is the one sent; its [status]
    is [processing] for [completed], [paymentFailed] for [failed], and
    unchanged for every other payment status; id, owner and items of the
    order are kept. *)
Theorem updatePaymentStatus_transition
    notifier now userId _id reqBody orders i order paymentStatus :
  validatePayment reqBody = [] →
  getOrderById _id orders = Ok (Some (i, order)) →
  o_userId order = userId →
  reqBody !! "status" = Some (VStr paymentStatus) →
  (∀ v, reqBody !! "paymentTransactionId" = Some v → ∃ t, v = VStr t) →
  ∃ updated logged,
    updatePaymentStatus notifier now userId _id reqBody orders
    = (Resp 200 (Success "Order payment status updated successfully" updated),
       <[i := updated]> orders, logged) ∧
    o_paymentStatus updated = paymentStatus ∧
    (paymentStatus = "completed" → o_status updated = "processing") ∧
    (paymentStatus = "failed" → o_status updated = "paymentFailed") ∧
    (paymentStatus ≠ "completed" → paymentStatus ≠ "failed" →
     o_status updated = o_status order) ∧
    o_id updated = o_id order ∧ o_userId updated = o_userId order ∧
    o_items updated = o_items order.
Proof.
  intros Hv Hfind Hown Hstatus Htx.
  destruct (applyPayment_string now paymentStatus (reqBody !! "paymentTransactionId")
              order Htx) as (updated & Eu & H1 & H2 & H3 & H4 & H5 & _).
  exists updated. eexists. split_and!; try done.
  - unfold Checkout.updatePaymentStatus.
    rewrite bool_decide_eq_false_2 by (rewrite Hv; by intros H; apply H).
    cbn zeta. rewrite Hfind. cbn [mbind result_bind].
    rewrite bool_decide_eq_false_2 by (rewrite Hown; by intros H; apply H).
    rewrite Hstatus, Eu. cbn [mbind result_bind]. done.
  - intros ->. by rewrite H2.
  - intros ->. by rewrite H2.
  - intros Hc Hf. rewrite H2. simpl.
    apply String.eqb_neq in Hc, Hf. by rewrite Hc, Hf.
Qed.

End PaymentStatus.

Section Notifier.

Import Checkout.


End Notifier.

(** ** The properties at the sample data *)

Import Samples.

Lemma json_list_to_map (l : list (string * value)) :
  Forall (λ kv, json kv.2) l → json (VObj (list_to_map l)).
Proof.
  intros Hl. constructor. intros k v Hkv.
  apply elem_of_list_to_map_2 in Hkv.
  rewrite Forall_forall in Hl. by apply (Hl (k, v)).
Qed.

Lemma json_list (l : list value) : Forall json l → json (VArr l).
Proof.
  intros Hl. constructor. intros i v Hi.
  rewrite Forall_forall in Hl. apply Hl. by apply list_elem_of_lookup_2 in Hi.
Qed.

Lemma length_append (a b : string) :
  String.length (a +:+ b) = (String.length a + String.length b)%nat.
Proof. induction a as [|c a IH]; simpl; [done|]. by rewrite IH. Qed.

Lemma onlyDataPaths_list_to_map (l : list (string * value)) :
  Forall (λ kv, kv.1 ∈ Cart.dataPaths) l → Cart.onlyDataPaths (list_to_map l).
Proof.
  intros Hl k v Hkv. apply elem_of_list_to_map_2 in Hkv.
  rewrite Forall_forall in Hl. by apply (Hl (k, v)).
Qed.

(** The sample payloads pass the sanitizer. *)
Lemma hosted_sample (body : obj) k :
  clonePayload body !! k = Some (VStr hostedUrl) → Cart.hosted (clonePayload body !! k).
Proof. intros ->. by exists hostedUrl. Qed.

Lemma otherOwnerBody_sanitized :
  sanitizeCartPayload otherOwnerBody false
  = Ok (stripEmbedded (reduceImageSettings (clonePayload otherOwnerBody))).
Proof.
  apply sanitize_full_intro; apply hosted_sample; vm_compute; reflexivity.
Qed.

Lemma embeddedBody_sanitized :
  sanitizeCartPayload embeddedBody false
  = Ok (stripEmbedded (reduceImageSettings (clonePayload embeddedBody))).
Proof.
  apply sanitize_full_intro; apply hosted_sample; vm_compute; reflexivity.
Qed.

Lemma embeddedBody_json : json (VObj embeddedBody).
Proof.
  unfold embeddedBody, embeddedFields, cartFields, specs.
  repeat first
    [ apply json_list_to_map | apply json_list | apply Forall_cons; split
    | apply Forall_nil_2 | simpl; constructor ].
Qed.

Lemma hostedBody_json : json (VObj hostedBody).
Proof.
  unfold hostedBody, cartFields, specs.
  repeat first
    [ apply json_list_to_map | apply json_list | apply Forall_cons; split
    | apply Forall_nil_2 | simpl; constructor ].
Qed.

Lemma hostedBody_paths : Cart.onlyDataPaths hostedBody.
Proof.
  apply onlyDataPaths_list_to_map. unfold cartFields, Cart.dataPaths.
  repeat (apply Forall_cons; split; [simpl; set_solver|]). apply Forall_nil_2.
Qed.

Lemma embeddedBody_paths : Cart.onlyDataPaths embeddedBody.
Proof.
  apply onlyDataPaths_list_to_map. unfold embeddedFields, cartFields, Cart.dataPaths.
  repeat (apply Forall_cons; split; [simpl; set_solver|]). apply Forall_nil_2.
Qed.

Example hostedBody_sanitized : sanitizeCartPayload hostedBody false = Ok hostedBody.
Proof. vm_compute. reflexivity. Qed.

Example hostedBody_document :
  Cart.newDocument refuse refuse keepSpecs keepConfiguration 1 hostedBody = Ok firstItem.
Proof. vm_compute. reflexivity. Qed.

Example hostedBody_update :
  ∃ u, Cart.castUpdate refuse refuse keepObject keepObject hostedBody = Ok u.
Proof. eexists. vm_compute. reflexivity. Qed.

(** The first sample payload creates [firstItem], and the sample checkout
    creates [placedOrder]. *)
Example first_post :
  Cart.addOrUpdateItem refuse refuse keepSpecs keepConfiguration keepObject keepObject
    1 hostedBody []
  = (Resp 201 (Success "Item added to cart successfully" (Some firstItem)), oneItem).
Proof. vm_compute. reflexivity. Qed.

Example sample_checkout :
  Checkout.createOrder refuse refuse objectIdOfString acceptAll false
    5 "64b7f0c2a1b2c3d4e5f6aaaa" "u1" checkoutBody [cartItem1] []
  = (Resp 201 (Success "Order created successfully" placedOrder), [placedOrder]).
Proof. vm_compute. reflexivity. Qed.

(** The first submission of the sample payload creates the item; it is
    then listed once, also after two more submissions. *)
Lemma addOrUpdateItem_upsert_witness :
  ∃ r item s' item',
    Cart.addOrUpdateItem refuse refuse keepSpecs keepConfiguration keepObject keepObject
      1 hostedBody [] = (r, s') ∧
    filter (λ d, Cart.ci_id d = "a1") (Cart.getUserCart "ann@example.com" s') = [item] ∧
    filter (λ d, Cart.ci_id d = "a1")
      (Cart.getUserCart "ann@example.com"
         (Cart.resubmit refuse refuse keepSpecs keepConfiguration keepObject keepObject
            hostedBody [2; 3]%nat s'))
    = [item'].
Proof.
  destruct hostedBody_update as [u Hu].
  destruct (addOrUpdateItem_upsert refuse refuse keepSpecs keepConfiguration
              keepObject keepObject 1 hostedBody [] hostedBody
              "ann@example.com" "a1" firstItem u)
    as (r & item & s' & E & _ & _ & Hl & _ & Hagain).
  - apply NoDup_nil_2.
  - exact hostedBody_paths.
  - exact hostedBody_sanitized.
  - reflexivity.
  - reflexivity.
  - exact hostedBody_document.
  - exact Hu.
  - intros d Hd. by apply elem_of_nil in Hd.
  - destruct (Hagain [2; 3]%nat) as (position & item' & _ & Hl' & _).
    exists r, item, s', item'. split; [exact E|]. split; [exact Hl|exact Hl'].
Defined.

(** The claim as stated fails for a storage layer that adds the empty
    arrays of the schema: the item that the sample payload creates is
    listed once, and neither its [specs] nor its [configuration] nor its
    [name] are those of the sanitized payload. *)
Lemma upsert_fields_counterexample :
  ∃ item stored,
    Cart.addOrUpdateItem refuse refuse arraySpecs arrayConfiguration keepObject keepObject
      1 hostedBody []
    = (Resp 201 (Success "Item added to cart successfully" (Some item)), [item]) ∧
    sanitizeCartPayload hostedBody false = Ok hostedBody ∧
    filter (λ d, Cart.ci_id d = "a1") (Cart.getUserCart "ann@example.com" [item]) = [item] ∧
    hostedBody !! "specs" = Some specs ∧
    Cart.ci_specs item = VObj stored ∧
    stored !! "overlays" = Some (VArr []) ∧ getprop specs "overlays" = None ∧
    Cart.ci_specs item ≠ specs ∧
    hostedBody !! "configuration" = None ∧ Cart.ci_configuration item ≠ None ∧
    hostedBody !! "name" = None ∧ Cart.ci_name item = "Custom Mousepad".
Proof.
  eexists. eexists. split; [vm_compute; reflexivity|].
  split_and!; try (vm_compute; reflexivity); vm_compute; discriminate.
Qed.

(** The sample checkout stores the snapshot of the cart item, not the
    price and the name that its line carries. *)
Lemma createOrder_snapshot_witness :
  ∃ items,
    checkoutBody !! "items" = Some (VArr items) ∧
    Forall2
      (λ item entry,
         ∃ cartItem,
           cartItem ∈ [cartItem1] ∧ Checkout.ci_userId cartItem = "u1" ∧
           getprop item "cartItemId" = Some (VStr (Checkout.ci_id cartItem)) ∧
           Checkout.oi_cartItemId entry = Checkout.ci_id cartItem ∧
           Checkout.oi_name entry = Checkout.ci_name cartItem ∧
           Checkout.oi_quantity entry = Checkout.ci_quantity cartItem ∧
           Checkout.oi_price entry = Checkout.ci_price cartItem ∧
           Checkout.oi_currency entry = Checkout.ci_currency cartItem ∧
           Checkout.oi_finalImage entry = Checkout.ci_finalImage cartItem ∧
           Checkout.oi_originalImageUrl entry = Checkout.ci_originalImageUrl cartItem ∧
           Checkout.oi_mousepadType entry = Checkout.ci_mousepadType cartItem ∧
           Checkout.oi_mousepadSize entry = Checkout.ci_mousepadSize cartItem ∧
           Checkout.oi_thickness entry = Checkout.ci_thickness cartItem)
      items (Checkout.o_items placedOrder).
Proof.
  destruct (createOrder_snapshot refuse refuse objectIdOfString acceptAll false
              5 "64b7f0c2a1b2c3d4e5f6aaaa" "u1" checkoutBody [cartItem1] []
              "Order created successfully" placedOrder [placedOrder] sample_checkout)
    as (items & Hitems & _ & Hall & _).
  exists items. split; [exact Hitems|exact Hall].
Defined.

(** The checkout of a cart item that the owner does not have is answered
    with 400 and stores nothing. *)
Lemma createOrder_all_or_nothing_witness :
  ∃ r orders',
    Checkout.createOrder refuse refuse objectIdOfString acceptAll false
      5 "64b7f0c2a1b2c3d4e5f6aaaa" "u1" strayBody [cartItem1] [] = (r, orders') ∧
    r = Resp 400 (Failure "Some cart items do not belong to you or do not exist") ∧
    orders' = [].
Proof.
  eexists. eexists. split; [vm_compute; reflexivity|].
  destruct (createOrder_all_or_nothing refuse refuse objectIdOfString acceptAll false
              5 "64b7f0c2a1b2c3d4e5f6aaaa" "u1" strayBody [cartItem1] []
              (Resp 400 (Failure "Some cart items do not belong to you or do not exist"))
              [])
    as (H & _ & _).
  - vm_compute. reflexivity.
  - apply (H [VObj (list_to_map [("cartItemId", VStr "64b7f0c2a1b2c3d4e5f60002")])]
             [Some (VStr "64b7f0c2a1b2c3d4e5f60002")] []).
    + reflexivity.
    + vm_compute. reflexivity.
    + vm_compute. reflexivity.
    + vm_compute. reflexivity.
    + vm_compute. discriminate.
Defined.

(** The first submission of the hosted payload stores hosted images. *)
Lemma reject_inline_images_witness :
  firstItem ∈ oneItem ∧ startsWith (Cart.ci_finalImage firstItem) "data:" = false.
Proof.
  destruct (reject_inline_images refuse refuse keepSpecs keepConfiguration
              keepObject keepObject 1 hostedBody [] hostedBody_json)
    as (_ & _ & _ & H).
  destruct (H hostedBody_paths
              (Resp 201 (Success "Item added to cart successfully" (Some firstItem)))
              oneItem "Item added to cart successfully" firstItem first_post eq_refl)
    as (Hin & _ & Hf & _).
  split; [exact Hin|exact Hf].
Defined.

(** The claim as stated fails: the sample payload has inline data in
    [finalImage], and the error of the route is not of the form
    ["<field> must be uploaded before saving"]. *)
Lemma inline_error_counterexample :
  inlineBody !! "finalImage" = Some (VStr inlineData) ∧
  startsWith inlineData "data:" = true ∧
  Cart.addOrUpdateItem refuse refuse keepSpecs keepConfiguration keepObject keepObject
    1 inlineBody []
  = (Resp 400 (Failure "image must be a string URL"), []) ∧
  ¬ ∃ field, "image must be a string URL" = field +:+ " must be uploaded before saving".
Proof.
  split_and!; try (vm_compute; reflexivity).
  intros [field H]. apply (f_equal String.length) in H.
  rewrite length_append in H. simpl in H. lia.
Qed.

(** Completing the payment of the sample order moves it to processing,
    with a notifier that rejects. *)
Lemma updatePaymentStatus_transition_witness :
  ∃ updated logged,
    Checkout.updatePaymentStatus refuse objectIdOfString acceptAll false
      (λ _, Throw "mail down") 9 "u1" "64b7f0c2a1b2c3d4e5f6aaaa" paymentBody [placedOrder]
    = (Resp 200 (Success "Order payment status updated successfully" updated),
       <[0%nat := updated]> [placedOrder], logged) ∧
    Checkout.o_status updated = "processing".
Proof.
  destruct (updatePaymentStatus_transition refuse objectIdOfString acceptAll false
              (λ _, Throw "mail down") 9 "u1" "64b7f0c2a1b2c3d4e5f6aaaa" paymentBody
              [placedOrder] 0 placedOrder "completed")
    as (updated & logged & H1 & _ & H2 & _).
  - reflexivity.
  - vm_compute. reflexivity.
  - reflexivity.
  - vm_compute. reflexivity.
  - intros v Hv. vm_compute in Hv. discriminate.
  - exists updated, logged. split; [exact H1|exact (H2 eq_refl)].
Defined.

(** Removing the sample item succeeds with a cleanup that throws. *)
Lemma removeItem_regardless_of_cleanup_witness :
  ∃ i logged,
    oneItem !! i = Some firstItem ∧
    Cart.removeItem refuse (λ _, Throw "media store down") "a1"
      (Some (VStr "ann@example.com")) oneItem
    = (Resp 200 (Success "Item removed from cart successfully" (Some firstItem)),
       delete i oneItem, logged).
Proof.
  destruct (removeItem_regardless_of_cleanup refuse (λ _, Throw "media store down") "a1"
              (Some (VStr "ann@example.com")) "ann@example.com" oneItem firstItem)
    as (i & logged & Hi & H & _).
  - apply NoDup_singleton.
  - reflexivity.
  - reflexivity.
  - left.
  - reflexivity.
  - reflexivity.
  - exists i, logged. split; [exact Hi|exact H].
Defined.

(** After the sample payload, the same id sent by another owner is
    refused and the store is unchanged. *)
Lemma id_unique_across_owners_witness :
  Cart.unique_ids oneItem ∧
  Cart.addOrUpdateItem refuse refuse keepSpecs keepConfiguration keepObject keepObject
    2 otherOwnerBody oneItem
  = (Cart.serverError "adding item to cart", oneItem).
Proof.
  destruct (id_unique_across_owners refuse refuse keepSpecs keepConfiguration
              keepObject keepObject (λ _, Ok true) [Cart.Post 1 hostedBody] oneItem)
    as (H1 & _ & H2).
  - vm_compute. reflexivity.
  - split; [exact H1|].
    apply (H2 2%nat otherOwnerBody _ "a1" "bob@example.com" firstItem
             otherOwnerBody_sanitized).
    + vm_compute. reflexivity.
    + vm_compute. reflexivity.
    + left.
    + reflexivity.
    + discriminate.
Defined.

(** The sanitizer removes the embedded image data of the sample payload,
    and the item that the route creates has the configuration that the
    storage layer makes of the sanitized one. *)
Lemma sanitize_strips_embedded_images_witness :
  (∀ c, embeddedBody !! "configuration" = Some (VObj c) →
        reducedConfiguration c !! "uploadedImages" = None ∧
        reducedConfiguration c !! "logoFile" = None) ∧
  (∀ r s' message item,
     Cart.addOrUpdateItem refuse refuse keepSpecs keepConfiguration keepObject keepObject
       1 embeddedBody [] = (r, s') →
     body r = Success message (Some item) → item ∈ s').
Proof.
  destruct (sanitize_strips_embedded_images refuse refuse keepSpecs keepConfiguration
              keepObject keepObject 1 embeddedBody false _ []
              embeddedBody_json embeddedBody_sanitized)
    as (_ & H1 & _ & _ & H2 & _).
  split.
  - intros c Hc. destruct (H1 c Hc) as (_ & Hu & Hl & _). split; [exact Hu|exact Hl].
  - intros r s' message item E Hbody.
    destruct (H2 eq_refl) as [_ H3].
    destruct (H3 embeddedBody_paths r s' message item E Hbody) as [Hin _]. exact Hin.
Defined.

(** The claim as stated fails for a storage layer that adds the empty
    arrays of the schema: the item that the sample payload with embedded
    image data creates holds an [uploadedImages] field. *)
Lemma embedded_field_counterexample :
  ∃ item configuration,
    Cart.addOrUpdateItem refuse refuse arraySpecs arrayConfiguration keepObject keepObject
      1 embeddedBody []
    = (Resp 201 (Success "Item added to cart successfully" (Some item)), [item]) ∧
    Cart.ci_configuration item = Some (VObj configuration) ∧
    configuration !! "uploadedImages" = Some (VArr []) ∧
    configuration !! "logoFile" = None ∧
    ¬ Cart.cleanConfiguration configuration.
Proof.
  eexists. eexists. split; [vm_compute; reflexivity|].
  split_and!; try (vm_compute; reflexivity).
  intros (H & _). vm_compute in H. discriminate.
Qed.

(** The scenario of the specification: one item of price 10 and quantity
    2 gives the summary 2, 20, USD; after its removal the summary is 0, 0,
    USD. *)
Example summary_scenario :
  Cart.getCartSummary "ann@example.com" oneItem
  = Resp 200 (Success "" {| Cart.itemCount := 2; Cart.totalPrice := 20;
                            Cart.currency := "USD" |}) ∧
  Cart.getCartSummary "ann@example.com"
    (Cart.removeItem refuse (λ url, Ok (deleteImage (λ _, Throw "down") url)) "a1"
       (Some (VStr "ann@example.com")) oneItem).1.2
  = Resp 200 (Success "" {| Cart.itemCount := 0; Cart.totalPrice := 0;
                            Cart.currency := "USD" |}).
Proof. split; vm_compute; reflexivity. Qed.

(** The totals are those of double arithmetic: three items of the price
    that the double nearest to 0.1 stands for cost 0.30000000000000004,
    the double above the one nearest to 0.3. *)
Example summary_rounding :
  Cart.reduceSummary
    [{| Cart.ci_userEmail := "ann@example.com"; Cart.ci_id := "a1";
        Cart.ci_name := "Custom Mousepad"; Cart.ci_quantity := 3;
        Cart.ci_price := 3602879701896397 # 36028797018963968;
        Cart.ci_currency := "USD"; Cart.ci_image := hostedUrl;
        Cart.ci_finalImage := hostedUrl; Cart.ci_originalImageUrl := hostedUrl;
        Cart.ci_specs := specs; Cart.ci_configuration := None;
        Cart.ci_createdAt := 1; Cart.ci_updatedAt := 1 |}]
  = (Finite 3, Finite (1351079888211149 # 4503599627370496)) ∧
  round64 (3 # 10) = Finite (5404319552844595 # 18014398509481984) ∧
  (5404319552844595 # 18014398509481984 < 1351079888211149 # 4503599627370496)%Q.
Proof. split_and!; vm_compute; reflexivity. Qed.

(** Rounding at the samples: the double nearest to one tenth; a tie
    between two doubles goes to the even one; a number beyond the range
    of doubles is infinite; and 0.1 + 0.2 is 0.30000000000000004. *)
Example rounding_samples :
  round64 (1 # 10) = Finite (3602879701896397 # 36028797018963968) ∧
  round64 (inject_Z (2 ^ 53 + 1)) = Finite (inject_Z (2 ^ 53)) ∧
  round64 (inject_Z (2 ^ 53 + 3)) = Finite (inject_Z (2 ^ 53 + 4)) ∧
  round64 (inject_Z (2 ^ 1024)) = Infinite false ∧
  jsAdd (3602879701896397 # 36028797018963968) (3602879701896397 # 18014398509481984)
  = Finite (1351079888211149 # 4503599627370496).
Proof. split_and!; vm_compute; reflexivity. Qed.

(** * Further properties of the routes *)

(** ** Listings of the cart *)

(** The order of the listings is total and transitive. *)
#[local] Instance newerFirst_total : Total Cart.newerFirst.
Proof. intros a b. unfold Cart.newerFirst. lia. Qed.

#[local] Instance newerFirst_transitive : Transitive Cart.newerFirst.
Proof. intros a b c. unfold Cart.newerFirst. lia. Qed.

(** In a strongly sorted list an earlier entry is related to every later
    one. *)
Lemma StronglySorted_lookup {A} (R : relation A) (l : list A) i j a b :
  StronglySorted R l → l !! i = Some a → l !! j = Some b → (i < j)%nat → R a b.
Proof.
  intros Hl. revert i j. induction Hl as [|x l Hl IH Hx]; intros i j Hi Hj Hij.
  - done.
  - destruct j as [|j]; [lia|]. destruct i as [|i]; simpl in *.
    + injection Hi as <-. rewrite Forall_forall in Hx.
      apply Hx. by eapply list_elem_of_lookup_2.
    + apply (IH i j); [done..|lia].
Qed.

Section Listings.

Import Cart.

Lemma merge_sort_newest_first (l : list CartItem) i j a b :
  merge_sort newerFirst l !! i = Some a →
  merge_sort newerFirst l !! j = Some b →
  (i < j)%nat → (ci_createdAt b ≤ ci_createdAt a)%nat.
Proof.
  intros Hi Hj Hij.
  by apply (StronglySorted_lookup newerFirst _ i j a b
              (StronglySorted_merge_sort newerFirst l)).
Qed.

(** X1.  [GET /api/cart/:userEmail] answers 200 with exactly the stored
    items of that owner: each of them as often as it is stored, none of
    another owner, a newer item before an older one. *)
Theorem listCart_owner_newest_first userEmail (s : store) :
  ∃ cartItems,
    listCart userEmail s = Resp 200 (Success "" cartItems) ∧
    cartItems ≡ₚ filter (λ d, ci_userEmail d = userEmail) s ∧
    (∀ d, d ∈ cartItems ↔ d ∈ s ∧ ci_userEmail d = userEmail) ∧
    (∀ i j a b, cartItems !! i = Some a → cartItems !! j = Some b → (i < j)%nat →
                (ci_createdAt b ≤ ci_createdAt a)%nat).
Proof.
  exists (getUserCart userEmail s). split_and!.
  - done.
  - apply getUserCart_Permutation.
  - intros d. rewrite elem_of_getUserCart. tauto.
  - intros i j a b. apply merge_sort_newest_first.
Qed.

(** X2.  [GET /api/cart/admin/all] answers 200 with every stored item of
    every owner, as often as it is stored, a newer item before an older
    one. *)
Theorem listAll_every_item_newest_first (s : store) :
  ∃ cartItems,
    listAll s = Resp 200 (Success "" cartItems) ∧
    cartItems ≡ₚ s ∧
    length cartItems = length s ∧
    (∀ owner, filter (λ d, ci_userEmail d = owner) cartItems ≡ₚ getUserCart owner s) ∧
    (∀ i j a b, cartItems !! i = Some a → cartItems !! j = Some b → (i < j)%nat →
                (ci_createdAt b ≤ ci_createdAt a)%nat).
Proof.
  exists (merge_sort newerFirst s). split_and!.
  - done.
  - apply merge_sort_Permutation.
  - by rewrite merge_sort_Permutation.
  - intros owner. by rewrite getUserCart_Permutation, merge_sort_Permutation.
  - intros i j a b. apply merge_sort_newest_first.
Qed.

End Listings.

(** ** [PUT /api/cart/:id] *)

Section PutRoute.

Import Cart.

Variable convertString : value → option string.
Variable convertNumber : value → option Q.
Variable newSpecs : option value → result value.
Variable newConfiguration : option value → result (option value).
Variable setSpecs : value → result value.
Variable setConfiguration : value → result value.

#[local] Abbreviation castString := (castString convertString).
#[local] Abbreviation castNumber := (castNumber convertNumber).
#[local] Abbreviation castFilter := (castFilter convertString).
#[local] Abbreviation castUpdate :=
  (castUpdate convertString convertNumber setSpecs setConfiguration).
#[local] Abbreviation updateItem :=
  (updateItem convertString convertNumber setSpecs setConfiguration).
#[local] Abbreviation addOrUpdateItem :=
  (addOrUpdateItem convertString convertNumber newSpecs newConfiguration
     setSpecs setConfiguration).
#[local] Abbreviation newDocument :=
  (newDocument convertString convertNumber newSpecs newConfiguration).

(** A path that the update does not hold keeps its value. *)
Lemma applyUpdate_absent now updates u doc :
  castUpdate updates = Ok u →
  (updates !! "name" = None → ci_name (applyUpdate now u doc) = ci_name doc) ∧
  (updates !! "quantity" = None → ci_quantity (applyUpdate now u doc) = ci_quantity doc) ∧
  (updates !! "price" = None → ci_price (applyUpdate now u doc) = ci_price doc) ∧
  (updates !! "currency" = None → ci_currency (applyUpdate now u doc) = ci_currency doc) ∧
  (updates !! "image" = None → ci_image (applyUpdate now u doc) = ci_image doc) ∧
  (updates !! "finalImage" = None →
   ci_finalImage (applyUpdate now u doc) = ci_finalImage doc) ∧
  (updates !! "originalImageUrl" = None →
   ci_originalImageUrl (applyUpdate now u doc) = ci_originalImageUrl doc).
Proof.
  intros (_ & _ & H3 & H4 & H5 & H6 & H7 & H8 & H9 & _)%castUpdate_Ok.
  unfold applyUpdate. simpl. split_and!; intros Ev.
  - by rewrite (castPath_absent _ _ _ H3 Ev).
  - by rewrite (castPath_absent _ _ _ H4 Ev).
  - by rewrite (castPath_absent _ _ _ H5 Ev).
  - by rewrite (castPath_absent _ _ _ H6 Ev).
  - by rewrite (castPath_absent _ _ _ H7 Ev).
  - by rewrite (castPath_absent _ _ _ H8 Ev).
  - by rewrite (castPath_absent _ _ _ H9 Ev).
Qed.

(** The cast of an update that names the quantity alone. *)
Lemma castUpdate_quantity updates q :
  (∀ k, k ≠ "quantity" → updates !! k = None) →
  updates !! "quantity" = Some (VNum q) →
  ∃ u, castUpdate updates = Ok u ∧ u_quantity u = Some q ∧ u_id u = None ∧
       u_userEmail u = None.
Proof.
  intros Hk Hq. unfold Cart.castUpdate.
  rewrite (Hk "userEmail"), (Hk "id"), (Hk "name"), (Hk "price"), (Hk "currency"),
    (Hk "image"), (Hk "finalImage"), (Hk "originalImageUrl"), (Hk "specs"),
    (Hk "configuration"), Hq by done.
  simpl. by eexists.
Qed.

(** The update of a successful PUT: the body without the owner, cloned,
    with the configuration reduced. *)
Lemma updateItem_processed reqBody processedUpdates k :
  sanitizeCartPayload (delete "userEmail" reqBody) true = Ok processedUpdates →
  (k = "userEmail" ∨ reqBody !! k = None) → processedUpdates !! k = None.
Proof.
  intros Hs Hk. apply sanitize_partial_Ok in Hs as ->.
  apply sanitized_absent. destruct Hk as [->|Hk].
  - apply lookup_delete_eq.
  - destruct (decide (k = "userEmail")) as [->|Hne]; [apply lookup_delete_eq|].
    by rewrite lookup_delete_ne.
Qed.

(** X3.  The refusals of [PUT /api/cart/:id].  Every reply other than
    200 leaves the store as it was.  A body without a truthy [userEmail]
    is answered 400 "User email is required"; a body with an image field
    that holds inline [data:] content is answered 400; and when no item
    of the named owner has the id, the reply is the 400 of the sanitizer
    when it refuses the update, and otherwise 404 "Cart item not found",
    or 500 for an update that the storage layer cannot cast: the update
    is cast before the item is looked up. *)
Theorem updateItem_refusals now id reqBody (s : store) r s' :
  updateItem now id reqBody s = (r, s') →
  (status r ≠ 200%nat → s' = s) ∧
  (truthy (reqBody !! "userEmail") = false →
   r = Resp 400 (Failure "User email is required")) ∧
  (∀ field inline,
     field ∈ imageFields → reqBody !! field = Some (VStr inline) →
     startsWith inline "data:" = true → status r = 400%nat) ∧
  (∀ owner,
     reqBody !! "userEmail" = Some (VStr owner) → owner ≠ "" →
     (∀ d, d ∈ s → ci_id d = id → ci_userEmail d ≠ owner) →
     (∃ m, sanitizeCartPayload (delete "userEmail" reqBody) true = Throw m ∧
           r = Resp 400 (Failure m)) ∨
     (∃ processedUpdates,
        sanitizeCartPayload (delete "userEmail" reqBody) true = Ok processedUpdates ∧
        (r = Resp 404 (Failure "Cart item not found") ∨
         ((∃ e, castUpdate processedUpdates = Throw e) ∧
          r = serverError "updating cart item")))).
Proof.
  intros H. apply updateItem_inv in H
    as [(T & -> & ->)|(T & [(m & Hm & -> & ->)|(pu & Hpu & H)])].
  - split_and!; try done. intros owner Ho. rewrite Ho in T. by destruct owner.
  - split_and!; try done; [congruence|]. intros owner _ _ _. left. by exists m.
  - assert (∀ field inline,
              field ∈ imageFields → reqBody !! field = Some (VStr inline) →
              startsWith inline "data:" = true → False) as Hinline.
    { intros field inline Hf Hv Hp.
      destruct (sanitize_inline_Throw (delete "userEmail" reqBody) true field inline)
        as [m Hm]; [done| |done|congruence].
      rewrite lookup_delete_ne; [done|].
      unfold imageFields in Hf. rewrite !elem_of_cons, elem_of_nil in Hf.
      intros <-. by destruct Hf as [?|[?|[?|[]]]]. }
    assert (∀ owner owner' i old,
              reqBody !! "userEmail" = Some (VStr owner) →
              (∀ d, d ∈ s → ci_id d = id → ci_userEmail d ≠ owner) →
              castFilter (reqBody !! "userEmail") = Ok owner' →
              list_find (selects (Some id) owner') s = Some (i, old) → False) as Hfound.
    { intros owner owner' i old Ho Hnone Ho' Hf. rewrite Ho in Ho'. injection Ho' as <-.
      apply list_find_Some in Hf as (Hi & [[= Hid'] [= Hown]] & _).
      apply (Hnone old); [by eapply list_elem_of_lookup_2|done..]. }
    destruct H as [(-> & -> & H500)|[(owner & u & Ho & Hu & Hf & -> & ->)
                             |(owner & u & i & old & Ho & Hu & Hf & Hid & -> & ->)]].
    + split_and!; try done; [congruence| |].
      * intros field inline Hf Hv Hp. by destruct (Hinline field inline).
      * intros owner Ho Hne Hnone. right. exists pu. split; [done|]. right.
        split; [|done].
        destruct H500 as [[e He]|[[e He]|(owner' & u & i & old & Ho' & _ & Hf & _)]].
        -- by rewrite Ho in He.
        -- by exists e.
        -- by destruct (Hfound owner owner' i old).
    + split_and!; try done; [congruence| |].
      * intros field inline Hf' Hv Hp. by destruct (Hinline field inline).
      * intros owner' _ _ _. right. exists pu. split; [done|]. by left.
    + split_and!; try done; [congruence| |].
      * intros field inline Hf' Hv Hp. by destruct (Hinline field inline).
      * intros owner' Ho' Hne Hnone. exfalso.
        by apply (Hfound owner' owner i old).
Qed.

(** X4.  A successful [PUT /api/cart/:id] whose body has only data paths
    of the schema as keys, none of them [null], rewrites one stored
    document and nothing else: the first stored item with the id of the
    path and the owner of the body.  The number of stored items is
    unchanged, the updated item keeps its owner and its creation time,
    its [updatedAt] is the time of the request, and unique ids stay
    unique. *)
Theorem updateItem_one_document now id reqBody (s : store) r s' :
  onlyDataPaths reqBody → (∀ k, reqBody !! k ≠ Some VNull) →
  updateItem now id reqBody s = (r, s') → status r = 200%nat →
  ∃ owner i old item,
    castFilter (reqBody !! "userEmail") = Ok (Some owner) ∧
    s !! i = Some old ∧ ci_id old = id ∧ ci_userEmail old = owner ∧
    r = Resp 200 (Success "Cart item updated successfully" (Some item)) ∧
    s' = <[i := item]> s ∧ length s' = length s ∧
    (∀ j, j ≠ i → s' !! j = s !! j) ∧
    ci_userEmail item = owner ∧ ci_createdAt item = ci_createdAt old ∧
    ci_updatedAt item = now ∧
    (∀ j other, j ≠ i → s !! j = Some other → ci_id item ≠ ci_id other) ∧
    (unique_ids s → unique_ids s').
Proof.
  intros _ _ H Hr. apply updateItem_inv in H
    as [(T & -> & ->)|(T & [(m & Hm & -> & ->)|(pu & Hpu & H)])]; [done..|].
  destruct H as [(-> & _)|[(owner & u & Ho & Hu & Hf & -> & ->)
                           |(owner & u & i & old & Ho & Hu & Hf & Hid & -> & ->)]];
    [done..|].
  apply list_find_Some in Hf as (Hi & [[= Hid'] Hown] & _).
  destruct owner as [owner|]; [|done]. injection Hown as Hown.
  destruct (applyUpdate_key convertString convertNumber setSpecs setConfiguration
              now pu u old Hu) as (_ & _ & He & _ & Hc & Hup).
  exists owner, i, old, (applyUpdate now u old). split_and!; try done.
  - apply length_insert.
  - intros j Hj. by apply list_lookup_insert_ne.
  - rewrite He; [done|]. apply (updateItem_processed reqBody); auto.
  - intros j other Hj Hother Heq. apply Hid. rewrite Heq.
    apply list_elem_of_fmap_2. by apply (elem_of_delete_other s i j).
  - intros Hs. by apply unique_ids_insert.
Qed.

(** X5.  A successful [PUT /api/cart/:id] whose body has only data paths
    of the schema as keys, none of them [null], is a partial update: a
    data path that the body does not name keeps the value it had in the
    updated item. *)
Theorem updateItem_keeps_absent_paths now id reqBody (s : store) m item s' :
  onlyDataPaths reqBody → (∀ k, reqBody !! k ≠ Some VNull) →
  updateItem now id reqBody s = (Resp 200 (Success m (Some item)), s') →
  ∃ i old,
    s !! i = Some old ∧ s' = <[i := item]> s ∧
    (reqBody !! "id" = None → ci_id item = ci_id old) ∧
    (reqBody !! "name" = None → ci_name item = ci_name old) ∧
    (reqBody !! "quantity" = None → ci_quantity item = ci_quantity old) ∧
    (reqBody !! "price" = None → ci_price item = ci_price old) ∧
    (reqBody !! "currency" = None → ci_currency item = ci_currency old) ∧
    (reqBody !! "image" = None → ci_image item = ci_image old) ∧
    (reqBody !! "finalImage" = None → ci_finalImage item = ci_finalImage old) ∧
    (reqBody !! "originalImageUrl" = None →
     ci_originalImageUrl item = ci_originalImageUrl old) ∧
    (reqBody !! "specs" = None → ci_specs item = ci_specs old) ∧
    (reqBody !! "configuration" = None → ci_configuration item = ci_configuration old).
Proof.
  intros _ _ H. apply updateItem_inv in H
    as [(T & [=] & _)|(T & [(m' & Hm & [=] & _)|(pu & Hpu & H)])].
  destruct H as [([=] & _)|[(owner & u & Ho & Hu & Hf & [=] & _)
                           |(owner & u & i & old & Ho & Hu & Hf & Hid & [= -> ->] & ->)]].
  apply list_find_Some in Hf as (Hi & _ & _).
  destruct (applyUpdate_key convertString convertNumber setSpecs setConfiguration
              now pu u old Hu) as (H1 & _).
  destruct (applyUpdate_absent now pu u old Hu) as (H2 & H3 & H4 & H5 & H6 & H7 & H8).
  destruct (applyUpdate_nested convertString convertNumber setSpecs setConfiguration
              now pu u old Hu) as (_ & H9 & _ & H10).
  pose proof (updateItem_processed reqBody pu) as Hk.
  exists i, old. split_and!; try done; intros Hn; auto.
Qed.

(** X6.  [PUT /api/cart/:id] runs no validator of the schema: in a store
    with unique ids, a body that names the owner of a stored item and a
    quantity is answered 200 and the quantity is stored, whatever number
    it is (zero and negative numbers included). *)
Theorem updateItem_stores_any_quantity now id owner q (s : store) d :
  unique_ids s → d ∈ s → ci_id d = id → ci_userEmail d = owner → owner ≠ "" →
  ∃ item s',
    updateItem now id (<["userEmail" := VStr owner]> {["quantity" := VNum q]}) s
    = (Resp 200 (Success "Cart item updated successfully" (Some item)), s') ∧
    item ∈ s' ∧ ci_id item = id ∧ ci_userEmail item = owner ∧ ci_quantity item = q.
Proof.
  intros Hs Hd Hid Hown Hne.
  set (reqBody := <["userEmail" := VStr owner]> {["quantity" := VNum q]} : obj).
  set (updates := delete "userEmail" reqBody).
  assert (∀ k, k ≠ "quantity" → updates !! k = None) as Hother.
  { intros k Hk. unfold updates, reqBody.
    destruct (decide (k = "userEmail")) as [->|Hk']; [apply lookup_delete_eq|].
    rewrite lookup_delete_ne, lookup_insert_ne by done. by apply lookup_singleton_ne. }
  assert (updates !! "quantity" = Some (VNum q)) as Hq.
  { unfold updates, reqBody.
    rewrite lookup_delete_ne, lookup_insert_ne by done. apply lookup_singleton_eq. }
  assert (sanitizeCartPayload updates true
          = Ok (stripEmbedded (reduceImageSettings (clonePayload updates)))) as Hsan.
  { apply sanitize_partial_intro. intros f Hf.
    unfold imageFields in Hf. rewrite !elem_of_cons, elem_of_nil in Hf.
    assert (clonePayload updates !! f = None) as ->; [|done].
    unfold clonePayload. rewrite lookup_omap, Hother; [done|].
    intros ->. by destruct Hf as [?|[?|[?|[]]]]. }
  destruct (list_find_elem_of (selects (Some id) (Some owner)) s d Hd)
    as [[i old] Hf]; [by subst|].
  pose proof Hf as Hf'.
  apply list_find_Some in Hf' as (Hi & [[= Hid'] [= Hown']] & _).
  destruct (castUpdate_quantity
              (stripEmbedded (reduceImageSettings (clonePayload updates))) q)
    as (u & Hu & Hq' & Hid'' & Hue).
  { intros k Hk. apply sanitized_absent. by apply Hother. }
  { by apply sanitized_number. }
  set (item := applyUpdate now u old).
  assert (ci_id item = ci_id old) as Eid by by unfold item, applyUpdate; simpl; rewrite Hid''.
  assert (ci_id item ∉ (ci_id <$> delete i s)) as Hfresh.
  { rewrite Eid. by apply delete_fresh. }
  exists item, (<[i := item]> s). split_and!.
  - unfold Cart.updateItem. cbn zeta.
    assert (reqBody !! "userEmail" = Some (VStr owner)) as -> by apply lookup_insert_eq.
    assert (truthy (Some (VStr owner)) = true) as -> by by destruct owner.
    fold updates. rewrite Hsan. cbn [negb castFilter Cart.castFilter].
    cbn [mbind result_bind Cart.castString].
    unfold Cart.updateCartItem. rewrite Hu. cbn [mbind result_bind].
    rewrite Hf. cbn zeta. fold item.
    by rewrite bool_decide_eq_false_2.
  - apply list_elem_of_lookup. exists i. apply list_lookup_insert_eq.
    by eapply lookup_lt_Some.
  - congruence.
  - unfold item, applyUpdate. simpl. rewrite Hue. simpl. congruence.
  - unfold item, applyUpdate. simpl. by rewrite Hq'.
Qed.

(** What the schema asks of a new document. *)
Lemma newDocument_valid now data doc :
  newDocument now data = Ok doc →
  ci_userEmail doc ≠ "" ∧ ci_id doc ≠ "" ∧ ci_name doc ≠ "" ∧
  (1 <= ci_quantity doc)%Q ∧ (0 <= ci_price doc)%Q ∧
  ci_currency doc ∈ ["USD"; "SGD"] ∧
  ci_image doc ≠ "" ∧ ci_finalImage doc ≠ "" ∧ ci_originalImageUrl doc ≠ "" ∧
  ci_createdAt doc = now ∧ ci_updatedAt doc = now.
Proof.
  unfold Cart.newDocument. intros H.
  apply bind_Ok in H as (userEmail & HuserEmail & H).
  apply bind_Ok in H as (id' & Hid & H).
  apply bind_Ok in H as (name & Hname & H).
  apply bind_Ok in H as (quantity & Hquantity & H).
  apply bind_Ok in H as (price & Hprice & H).
  apply bind_Ok in H as (currency & Hcurrency & H).
  apply bind_Ok in H as (image & Himage & H).
  apply bind_Ok in H as (finalImage & HfinalImage & H).
  apply bind_Ok in H as (originalImageUrl & HoriginalImageUrl & H).
  apply bind_Ok in H as (specs & Hspecs & H).
  apply bind_Ok in H as (configuration & Hconfiguration & H).
  injection H as <-. simpl.
  assert (∀ path dflt v s, requiredString convertString path dflt v = Ok s → s ≠ "") as Hreq.
  { intros path dflt v s Hr. unfold requiredString in Hr.
    apply bind_Ok in Hr as (s' & _ & Hr).
    destruct (String.eqb s' "") eqn:E; [done|]. injection Hr as <-.
    by apply String.eqb_neq. }
  assert (∀ path dflt m v n, requiredNumber convertNumber path dflt m v = Ok n → (m <= n)%Q)
    as Hnum.
  { intros path dflt m v n Hr. unfold requiredNumber in Hr.
    apply bind_Ok in Hr as (n' & _ & Hr).
    destruct (Qle_bool m n') eqn:E; [|done]. injection Hr as <-.
    by apply Qle_bool_iff. }
  split_and!; eauto.
  - destruct (data !! "currency") as [x|]; [|injection Hcurrency as <-; set_solver].
    apply bind_Ok in Hcurrency as (c & _ & Hc). unfold checkEnum in Hc.
    case_bool_decide; [|done]. by injection Hc as <-.
Qed.

(** X7.  An item that [POST /api/cart] creates (reply 201), for a body
    whose keys are data paths of the schema, none of them [null],
    satisfies the constraints of the schema on its String and Number
    paths: owner, id, name and the three images are non-empty, the
    quantity is at least 1, the price is not negative, the currency is
    USD or SGD, and both timestamps are the time of the request. *)
Theorem created_item_valid now reqBody (s : store) r s' :
  onlyDataPaths reqBody → (∀ k, reqBody !! k ≠ Some VNull) →
  addOrUpdateItem now reqBody s = (r, s') → status r = 201%nat →
  ∃ item,
    r = Resp 201 (Success "Item added to cart successfully" (Some item)) ∧
    s' = s ++ [item] ∧
    ci_userEmail item ≠ "" ∧ ci_id item ≠ "" ∧ ci_name item ≠ "" ∧
    (1 <= ci_quantity item)%Q ∧ (0 <= ci_price item)%Q ∧
    ci_currency item ∈ ["USD"; "SGD"] ∧
    ci_image item ≠ "" ∧ ci_finalImage item ≠ "" ∧ ci_originalImageUrl item ≠ "" ∧
    ci_createdAt item = now ∧ ci_updatedAt item = now.
Proof.
  intros _ _ H Hr. apply addOrUpdateItem_inv in H
    as [(m & _ & -> & _)|(pd & _ & [(-> & _)|[H|H]])]; [done..| |].
  - destruct H as (? & ? & ? & ? & ? & _ & _ & _ & _ & _ & -> & _). done.
  - destruct H as (id & owner & doc & _ & _ & _ & Hdoc & _ & -> & ->).
    exists doc. split; [done|]. split; [done|]. by apply (newDocument_valid now pd).
Qed.

End PutRoute.

(** ** [DELETE /api/cart/:id] and [DELETE /api/cart/clear/:userEmail] *)

Section DeleteRoutes.

Import Cart.

Variable convertString : value → option string.
Variable convertNumber : value → option Q.
Variable newSpecs : option value → result value.
Variable newConfiguration : option value → result (option value).
Variable setSpecs : value → result value.
Variable setConfiguration : value → result value.

#[local] Abbreviation castFilter := (castFilter convertString).
#[local] Abbreviation removeItem := (removeItem convertString).
#[local] Abbreviation updateItem :=
  (updateItem convertString convertNumber setSpecs setConfiguration).
#[local] Abbreviation addOrUpdateItem :=
  (addOrUpdateItem convertString convertNumber newSpecs newConfiguration
     setSpecs setConfiguration).
#[local] Abbreviation serveAll :=
  (serveAll convertString convertNumber newSpecs newConfiguration setSpecs setConfiguration).

(** X8.  The refusals of [DELETE /api/cart/:id].  Every reply other than
    200 leaves the store as it was.  Without a truthy [userEmail] the
    reply is 400 "User email is required".  When no item of the named
    owner has the id (the item of another owner with that id does not
    count), the reply is 404 "Cart item not found", nothing is removed
    and no image cleanup is attempted. *)
Theorem removeItem_refusals deleteImage id userEmail (s : store) r s' logged :
  removeItem deleteImage id userEmail s = (r, s', logged) →
  (status r ≠ 200%nat → s' = s) ∧
  (truthy userEmail = false →
   r = Resp 400 (Failure "User email is required") ∧ logged = []) ∧
  (∀ owner,
     userEmail = Some (VStr owner) → owner ≠ "" →
     (∀ d, d ∈ s → ci_id d = id → ci_userEmail d ≠ owner) →
     r = Resp 404 (Failure "Cart item not found") ∧ s' = s ∧ logged = []).
Proof.
  unfold Cart.removeItem, removeFromCart.
  destruct (truthy userEmail) eqn:T; simpl.
  2: { intros [= <- <- <-]. split_and!; try done.
       intros owner ->. by destruct owner. }
  destruct (castFilter userEmail) as [owner|e] eqn:Eo.
  2: { intros [= <- <- <-]. split_and!; try done.
       intros owner Ho. by rewrite Ho in Eo. }
  destruct (list_find (selects (Some id) owner) s) as [[i d]|] eqn:Ef.
  - intros [= <- <- <-]. split_and!; try done.
    intros owner' -> Hne Hnone. exfalso. injection Eo as <-.
    apply list_find_Some in Ef as (Hi & [[= Hid] [= Hown]] & _).
    apply (Hnone d); [by eapply list_elem_of_lookup_2|done..].
  - intros [= <- <- <-]. split_and!; try done.
Qed.

(** The cleanup of a list of items with a [deleteImage] that never
    rejects. *)
Lemma cleanupAll_total (deleteImage : string → result bool) cartItems :
  (∀ url, ∃ b, deleteImage url = Ok b) → cleanupAll deleteImage cartItems = Ok ().
Proof.
  intros Hd. induction cartItems as [|item rest IH]; [done|]. simpl.
  unfold cleanupImages.
  destruct (truthy (Some (VStr (ci_finalImage item))));
    [destruct (Hd (ci_finalImage item)) as [b1 ->]|];
    (destruct (truthy (Some (VStr (ci_originalImageUrl item))));
       [destruct (Hd (ci_originalImageUrl item)) as [b2 ->]|]); simpl; exact IH.
Qed.

Lemma filter_owner_cleared userEmail other (s : store) :
  filter (λ d, ci_userEmail d = other) (filter (λ d, ci_userEmail d ≠ userEmail) s)
  = if decide (other = userEmail) then []
    else filter (λ d, ci_userEmail d = other) s.
Proof.
  induction s as [|x s IH]; [by destruct (decide _)|].
  destruct (decide (ci_userEmail x = userEmail)) as [Hx|Hx].
  - rewrite (filter_cons_False (λ d, ci_userEmail d ≠ userEmail)) by tauto.
    rewrite IH. destruct (decide (other = userEmail)) as [->|Hne]; [done|].
    rewrite filter_cons_False; [done|]. congruence.
  - rewrite (filter_cons_True (λ d, ci_userEmail d ≠ userEmail)) by done.
    destruct (decide (other = userEmail)) as [->|Hne].
    + rewrite filter_cons_False by done. exact IH.
    + destruct (decide (ci_userEmail x = other)) as [Ho|Ho].
      * rewrite !filter_cons_True by done. by rewrite IH.
      * rewrite !filter_cons_False by done. exact IH.
Qed.

Lemma unique_ids_filter (P : CartItem → Prop) `{∀ x, Decision (P x)} (s : store) :
  unique_ids s → unique_ids (filter P s).
Proof.
  unfold unique_ids. intros Hs. eapply sublist_NoDup; [done|].
  apply fmap_sublist, sublist_filter.
Qed.

(** X9.  [DELETE /api/cart/clear/:userEmail] always answers 200, whatever
    the image cleanup does, with [deletedCount] the number of stored
    items of the owner.  Afterwards the owner has no item left and an
    empty summary (0 items, total 0, USD), the items of every other
    owner are listed as before, and unique ids stay unique.  With the
    [deleteImage] of the repository nothing is logged. *)
Theorem clearCart_removes_owner_items imported userEmail (s : store) :
  ∃ s' logged,
    clearCart imported userEmail s
    = (Resp 200 (Success "Cart cleared successfully" (length (getUserCart userEmail s))),
       s', logged) ∧
    s' = filter (λ d, ci_userEmail d ≠ userEmail) s ∧
    length s = (length (getUserCart userEmail s) + length s')%nat ∧
    getUserCart userEmail s' = [] ∧
    (∀ other, other ≠ userEmail → getUserCart other s' = getUserCart other s) ∧
    getCartSummary userEmail s'
    = Resp 200 (Success "" {| itemCount := 0; totalPrice := 0; currency := "USD" |}) ∧
    (unique_ids s → unique_ids s') ∧
    (∀ destroy,
       clearCart (λ url, Ok (deleteImage destroy url)) userEmail s
       = (Resp 200 (Success "Cart cleared successfully" (length (getUserCart userEmail s))),
          s', [])).
Proof.
  assert (length (getUserCart userEmail s)
          = length (filter (λ d, ci_userEmail d = userEmail) s)) as Hlen.
  { by rewrite getUserCart_Permutation. }
  assert (getUserCart userEmail (filter (λ d, ci_userEmail d ≠ userEmail) s) = []) as Hnone.
  { unfold getUserCart. rewrite filter_owner_cleared. by rewrite decide_True. }
  eexists _, _. split_and!.
  - unfold clearCart, clearUserCart. rewrite Hlen. reflexivity.
  - done.
  - rewrite Hlen, <- length_app. by rewrite filter_app_complement.
  - done.
  - intros other Hne. unfold getUserCart. rewrite filter_owner_cleared.
    by rewrite decide_False.
  - unfold getCartSummary. by rewrite Hnone.
  - apply unique_ids_filter.
  - intros destroy. unfold clearCart, clearUserCart. rewrite Hlen.
    rewrite cleanupAll_total; [done|]. intros url. by eexists.
Qed.

(** *** Invariants of the store under the four writing routes *)

Lemma updateItem_unique now id reqBody (s : store) :
  unique_ids s → unique_ids (updateItem now id reqBody s).2.
Proof.
  intros Hs. destruct (updateItem now id reqBody s) as [r s'] eqn:E.
  apply updateItem_inv in E
    as [(_ & _ & ->)|(_ & [(m & _ & _ & ->)|(pu & _ & H)])]; [done..|].
  destruct H as [(_ & -> & _)|[(owner & u & _ & _ & _ & _ & ->)
                           |(owner & u & i & old & _ & _ & _ & Hid & _ & ->)]];
    [done..|].
  by apply unique_ids_insert.
Qed.

(** X10.  The ids of the stored cart items stay pairwise different under
    every sequence of requests to the four routes that write to the cart
    (POST, PUT, DELETE of an item, DELETE of a cart); in particular in
    every store that such a sequence builds from the empty store. *)
Theorem serveAll_unique_ids deleteImage calls :
  (∀ s, unique_ids s → unique_ids (serveAll deleteImage calls s)) ∧
  ∀ i j a b,
    serveAll deleteImage calls [] !! i = Some a →
    serveAll deleteImage calls [] !! j = Some b →
    i ≠ j → ci_id a ≠ ci_id b.
Proof.
  assert (∀ s, unique_ids s → unique_ids (serveAll deleteImage calls s)) as Hall.
  { unfold Cart.serveAll. induction calls as [|c calls IH]; intros s Hs; [done|].
    simpl. apply IH. destruct c as [now reqBody|now id reqBody|id userEmail|userEmail]; simpl.
    - by apply addOrUpdateItem_unique.
    - by apply updateItem_unique.
    - by apply removeItem_unique.
    - by apply unique_ids_filter. }
  split; [done|].
  intros i j a b Hi Hj Hij Hid. apply Hij.
  eapply (NoDup_lookup (ci_id <$> serveAll deleteImage calls [])).
  - apply Hall, NoDup_nil_2.
  - by rewrite list_lookup_fmap, Hi.
  - by rewrite list_lookup_fmap, Hj, Hid.
Qed.

End DeleteRoutes.

(** *** No inline image in the store *)

Lemma Forall_of_sublist {A} (P : A → Prop) (l k : list A) :
  sublist l k → Forall P k → Forall P l.
Proof.
  induction 1 as [|x l k _ IH|x l k _ IH]; intros Hk; [done| |].
  - apply Forall_cons in Hk as [Hx Hk]. apply Forall_cons. auto.
  - apply Forall_cons in Hk as [_ Hk]. auto.
Qed.

Section HostedImages.

Import Cart.

Variable convertString : value → option string.
Variable convertNumber : value → option Q.
Variable newSpecs : option value → result value.
Variable newConfiguration : option value → result (option value).
Variable setSpecs : value → result value.
Variable setConfiguration : value → result value.

#[local] Abbreviation castString := (castString convertString).
#[local] Abbreviation removeItem := (removeItem convertString).
#[local] Abbreviation castUpdate :=
  (castUpdate convertString convertNumber setSpecs setConfiguration).
#[local] Abbreviation newDocument :=
  (newDocument convertString convertNumber newSpecs newConfiguration).
#[local] Abbreviation updateItem :=
  (updateItem convertString convertNumber setSpecs setConfiguration).
#[local] Abbreviation addOrUpdateItem :=
  (addOrUpdateItem convertString convertNumber newSpecs newConfiguration
     setSpecs setConfiguration).
#[local] Abbreviation serve :=
  (serve convertString convertNumber newSpecs newConfiguration setSpecs setConfiguration).
#[local] Abbreviation serveAll :=
  (serveAll convertString convertNumber newSpecs newConfiguration setSpecs setConfiguration).

(** What the storage layer makes of a value that is not a string is
    never inline image data. *)
Hypothesis convert_plain : ∀ v s, convertString v = Some s → startsWith s "data:" = false.

Lemma castString_plain x new :
  (truthy (Some x) = true → hosted (Some x)) →
  castString x = Ok new → startsWith new "data:" = false.
Proof.
  intros Hv H.
  destruct x; simpl in H; try done;
    try (destruct (convertString _) eqn:E; [|done]; injection H as <-;
         by eapply convert_plain).
  injection H as <-.
  destruct (startsWith s "data:") eqn:P; [|done].
  destruct Hv as (t & [= <-] & _ & Hn); [by apply startsWith_data_truthy|congruence].
Qed.

Lemma sanitized_images payload partial sanitized f :
  sanitizeCartPayload payload partial = Ok sanitized → f ∈ imageFields →
  truthy (sanitized !! f) = true → hosted (sanitized !! f).
Proof.
  intros Hs Hf.
  assert (f ≠ "configuration") as Hne.
  { unfold imageFields in Hf. rewrite !elem_of_cons, elem_of_nil in Hf.
    intros ->. by destruct Hf as [?|[?|[?|[]]]]. }
  destruct partial.
  - pose proof (sanitize_partial_hosted _ _ f Hs Hf) as Hh.
    apply sanitize_partial_Ok in Hs as ->. by rewrite reduce_strip_other.
  - apply sanitize_full_Ok in Hs as (H1 & H2 & H3 & ->).
    rewrite reduce_strip_other by done. intros _.
    unfold imageFields in Hf. rewrite !elem_of_cons, elem_of_nil in Hf.
    by destruct Hf as [->|[->|[->|[]]]].
Qed.

Lemma applyUpdate_plain now payload partial sanitized u old :
  sanitizeCartPayload payload partial = Ok sanitized →
  castUpdate sanitized = Ok u → noInlineImage old →
  noInlineImage (applyUpdate now u old).
Proof.
  intros Hs Hu (H1 & H2 & H3). unfold noInlineImage.
  destruct (applyUpdate_storedAs convertString convertNumber setSpecs setConfiguration
              now sanitized u old Hu) as (_ & _ & _ & _ & _ & _ & Si & Sf & So).
  destruct (applyUpdate_absent convertString convertNumber setSpecs setConfiguration
              now sanitized u old Hu) as (_ & _ & _ & _ & Ai & Af & Ao).
  split_and!.
  - destruct (sanitized !! "image") as [x|] eqn:E; [|by rewrite Ai].
    apply (castString_plain x); [|by apply Si]. rewrite <- E.
    apply (sanitized_images payload partial); [done|set_solver].
  - destruct (sanitized !! "finalImage") as [x|] eqn:E; [|by rewrite Af].
    apply (castString_plain x); [|by apply Sf]. rewrite <- E.
    apply (sanitized_images payload partial); [done|set_solver].
  - destruct (sanitized !! "originalImageUrl") as [x|] eqn:E; [|by rewrite Ao].
    apply (castString_plain x); [|by apply So]. rewrite <- E.
    apply (sanitized_images payload partial); [done|set_solver].
Qed.

Lemma newDocument_plain now payload sanitized doc :
  sanitizeCartPayload payload false = Ok sanitized →
  newDocument now sanitized = Ok doc → noInlineImage doc.
Proof.
  intros Hs Hdoc.
  apply sanitize_full_Ok in Hs as (H1 & H2 & H3 & Hs).
  assert (∀ f, f ∈ imageFields → hosted (sanitized !! f)) as Hall.
  { intros f Hf. unfold imageFields in Hf. rewrite !elem_of_cons, elem_of_nil in Hf.
    rewrite Hs.
    destruct Hf as [->|[->|[->|[]]]]; by rewrite reduce_strip_other. }
  apply newDocument_Ok in Hdoc as (_ & _ & _ & _ & _ & _ & Hst).
  destruct Hst as (_ & _ & _ & _ & _ & _ & Si & Sf & So).
  split_and!.
  - destruct (Hall "image") as (s & Es & _ & Hn); [set_solver|].
    specialize (Si _ Es). by injection Si as <-.
  - destruct (Hall "finalImage") as (s & Es & _ & Hn); [set_solver|].
    specialize (Sf _ Es). by injection Sf as <-.
  - destruct (Hall "originalImageUrl") as (s & Es & _ & Hn); [set_solver|].
    specialize (So _ Es). by injection So as <-.
Qed.

Lemma elem_of_list_insert_inv {A} (l : list A) i x y :
  y ∈ <[i := x]> l → y = x ∨ y ∈ l.
Proof.
  intros [j Hj]%list_elem_of_lookup.
  apply list_lookup_insert_Some in Hj as [(_ & -> & _)|[_ Hj]]; [by left|].
  right. by apply list_elem_of_lookup_2 in Hj.
Qed.

Lemma Forall_insert_item (s : store) i item :
  Forall noInlineImage s → noInlineImage item → Forall noInlineImage (<[i := item]> s).
Proof.
  rewrite !Forall_forall. intros Hs Hitem d Hd.
  apply elem_of_list_insert_inv in Hd as [->|Hd]; auto.
Qed.

Lemma serve_plain deleteImage (s : store) c :
  Forall noInlineImage s → Forall noInlineImage (serve deleteImage s c).
Proof.
  intros Hs. destruct c as [now reqBody|now id reqBody|id userEmail|userEmail]; simpl.
  - destruct (addOrUpdateItem now reqBody s) as [r s'] eqn:E. simpl.
    apply addOrUpdateItem_inv in E
      as [(m & _ & _ & ->)|(pd & Hpd & [(_ & ->)|[H|H]])]; [done..| |].
    + destruct H as (id & owner & i & existing & u & _ & _ & Hf & Hu & _ & _ & ->).
      apply Forall_insert_item; [done|].
      apply (applyUpdate_plain now reqBody false pd); [done..|].
      apply list_find_Some in Hf as (Hi & _).
      rewrite Forall_forall in Hs. apply Hs. by eapply list_elem_of_lookup_2.
    + destruct H as (id & owner & doc & _ & _ & _ & Hdoc & _ & _ & ->).
      apply Forall_app. split; [done|]. apply Forall_singleton.
      by apply (newDocument_plain now reqBody pd).
  - destruct (updateItem now id reqBody s) as [r s'] eqn:E. simpl.
    apply updateItem_inv in E
      as [(_ & _ & ->)|(_ & [(m & _ & _ & ->)|(pu & Hpu & H)])]; [done..|].
    destruct H as [(_ & -> & _)|[(owner & u & _ & _ & _ & _ & ->)
                             |(owner & u & i & old & _ & Hu & Hf & _ & _ & ->)]];
      [done..|].
    apply Forall_insert_item; [done|].
    apply (applyUpdate_plain now (delete "userEmail" reqBody) true pu); [done..|].
    apply list_find_Some in Hf as (Hi & _).
    rewrite Forall_forall in Hs. apply Hs. by eapply list_elem_of_lookup_2.
  - destruct (removeItem_store convertString deleteImage id userEmail s) as [->|[i ->]];
      [done|].
    eapply Forall_of_sublist; [|done]. apply sublist_delete.
  - unfold clearCart, clearUserCart. simpl.
    eapply Forall_of_sublist; [|done]. apply sublist_filter.
Qed.

(** X11.  No stored image is inline data.  Provided that the storage
    layer never turns a value that is not a string into a string that
    begins with [data:], and that the bodies of the POST and PUT
    requests have only data paths of the schema as keys, none of them
    [null], every cart item in a store that a sequence of requests to
    the four writing routes builds from the empty store has an [image],
    a [finalImage] and an [originalImageUrl] that do not begin with
    [data:]. *)
Theorem serveAll_no_inline_images deleteImage calls d :
  (∀ now reqBody, CallPost now reqBody ∈ calls →
     onlyDataPaths reqBody ∧ ∀ k, reqBody !! k ≠ Some VNull) →
  (∀ now id reqBody, CallPut now id reqBody ∈ calls →
     onlyDataPaths reqBody ∧ ∀ k, reqBody !! k ≠ Some VNull) →
  d ∈ serveAll deleteImage calls [] → noInlineImage d.
Proof.
  intros _ _.
  assert (∀ s, Forall noInlineImage s → Forall noInlineImage (serveAll deleteImage calls s)) as Hall.
  { unfold Cart.serveAll. induction calls as [|c calls IH]; intros s Hs; [done|].
    simpl. by apply IH, serve_plain. }
  intros Hd. specialize (Hall [] (Forall_nil_2 _)).
  rewrite Forall_forall in Hall. by apply Hall.
Qed.

End HostedImages.

(** ** Reading orders *)

(** The order of the order listings is total and transitive. *)
#[local] Instance newerOrderFirst_total : Total Checkout.newerOrderFirst.
Proof. intros a b. unfold Checkout.newerOrderFirst. lia. Qed.

#[local] Instance newerOrderFirst_transitive : Transitive Checkout.newerOrderFirst.
Proof. intros a b c. unfold Checkout.newerOrderFirst. lia. Qed.

Section ReadOrders.

Import Checkout.

Variable convertString : value → option string.
Variable convertObjectId : value → option string.
Variable production : bool.

#[local] Abbreviation getOrderById := (getOrderById convertObjectId).
#[local] Abbreviation getOrder := (getOrder convertObjectId production).
#[local] Abbreviation getOrderAdmin := (getOrderAdmin convertObjectId production).
#[local] Abbreviation getUserOrders := (getUserOrders convertString).
#[local] Abbreviation listOrders := (listOrders convertString production).

Lemma merge_sort_newest_order_first (l : list Order) i j a b :
  merge_sort newerOrderFirst l !! i = Some a →
  merge_sort newerOrderFirst l !! j = Some b →
  (i < j)%nat → (o_createdAt b ≤ o_createdAt a)%nat.
Proof.
  intros Hi Hj Hij.
  by apply (StronglySorted_lookup newerOrderFirst _ i j a b
              (StronglySorted_merge_sort newerOrderFirst l)).
Qed.

Lemma strictEq_true s v : strictEq s v = true ↔ v = VStr s.
Proof.
  destruct v; simpl; try (split; [done|congruence]).
  rewrite String.eqb_eq. split; [by intros ->|by intros [= ->]].
Qed.

(** The user id that the middleware hands to the handler. *)
Lemma getUserId_next {A} reqBody query headers (next : value → response A) :
  (∃ userId,
     getUserId reqBody query headers next = next userId ∧
     truthy (Some userId) = true ∧
     (reqBody !! "userId" = Some userId ∨
      (truthy (reqBody !! "userId") = false ∧ query !! "userId" = Some userId) ∨
      (truthy (reqBody !! "userId") = false ∧ truthy (query !! "userId") = false ∧
       headers !! "x-user-id" = Some userId))) ∨
  (getUserId reqBody query headers next = Resp 400 (Failure "User ID is required") ∧
   truthy (reqBody !! "userId") = false ∧ truthy (query !! "userId") = false ∧
   truthy (headers !! "x-user-id") = false).
Proof.
  unfold getUserId, orUndefined. cbn zeta.
  destruct (truthy (reqBody !! "userId")) eqn:Tb.
  - rewrite Tb. destruct (reqBody !! "userId") as [u|] eqn:E; [|done].
    rewrite Tb. simpl. left. exists u. split_and!; [done..|]. by left.
  - destruct (truthy (query !! "userId")) eqn:Tq.
    + destruct (query !! "userId") as [u|] eqn:E; [|done].
      rewrite Tq. simpl. left. exists u. split_and!; [done..|]. right. left. by split.
    + destruct (headers !! "x-user-id") as [u|] eqn:E.
      * destruct (truthy (Some u)) eqn:Th; simpl.
        -- left. exists u. split_and!; [done..|]. right. right. by split_and!.
        -- right. by split_and!.
      * right. by split_and!.
Qed.

(** The handler runs on the user id of the query, or else of the header,
    when the body has none. *)
Lemma getUserId_elsewhere {A} reqBody query headers (next : value → response A) userId :
  truthy (reqBody !! "userId") = false →
  (query !! "userId" = Some userId ∨
   (truthy (query !! "userId") = false ∧ headers !! "x-user-id" = Some userId)) →
  truthy (Some userId) = true →
  getUserId reqBody query headers next = next userId.
Proof.
  intros Tb Hfrom T. unfold getUserId, orUndefined. cbn zeta. rewrite Tb.
  destruct Hfrom as [Hq|[Tq Hh]].
  - rewrite Hq, T. simpl. by rewrite T.
  - rewrite Tq, Hh. by rewrite T.
Qed.

(** X12.  [GET /api/order/:_id] of the user-id variant discloses an order
    to its owner only.  A reply 200 carries a stored order whose
    [userId] is, as a string, the user id of the request: the [userId]
    of the body if that is truthy, else the one of the query if that is
    truthy, else the [x-user-id] header.  Without a truthy user id the
    reply is 400 "User ID is required"; for the order of another user,
    or a user id that is not a string, it is 403, from whichever of the
    three places the user id is taken. *)
Theorem getOrder_owner_only reqBody query headers _id orders :
  (∀ m order,
     getOrder reqBody query headers _id orders = Resp 200 (Success m order) →
     order ∈ orders ∧
     (reqBody !! "userId" = Some (VStr (o_userId order)) ∨
      (truthy (reqBody !! "userId") = false ∧
       query !! "userId" = Some (VStr (o_userId order))) ∨
      (truthy (reqBody !! "userId") = false ∧ truthy (query !! "userId") = false ∧
       headers !! "x-user-id" = Some (VStr (o_userId order))))) ∧
  (truthy (reqBody !! "userId") = false → truthy (query !! "userId") = false →
   truthy (headers !! "x-user-id") = false →
   getOrder reqBody query headers _id orders
   = Resp 400 (Failure "User ID is required")) ∧
  (∀ i order userId,
     getOrderById _id orders = Ok (Some (i, order)) →
     reqBody !! "userId" = Some userId → truthy (Some userId) = true →
     (userId = VStr (o_userId order) →
      getOrder reqBody query headers _id orders = Resp 200 (Success "" order)) ∧
     (userId ≠ VStr (o_userId order) →
      getOrder reqBody query headers _id orders
      = Resp 403 (Failure "Not authorized to access this order"))) ∧
  (∀ i order userId,
     getOrderById _id orders = Ok (Some (i, order)) →
     truthy (reqBody !! "userId") = false →
     (query !! "userId" = Some userId ∨
      (truthy (query !! "userId") = false ∧ headers !! "x-user-id" = Some userId)) →
     truthy (Some userId) = true →
     (userId = VStr (o_userId order) →
      getOrder reqBody query headers _id orders = Resp 200 (Success "" order)) ∧
     (userId ≠ VStr (o_userId order) →
      getOrder reqBody query headers _id orders
      = Resp 403 (Failure "Not authorized to access this order"))).
Proof.
  split_and!.
  - intros m order H.
    destruct (getUserId_next reqBody query headers
                (λ userId,
                   match getOrderById _id orders with
                   | Ok None => Resp 404 (Failure "Order not found")
                   | Ok (Some (_, order)) =>
                       if negb (strictEq (o_userId order) userId) then
                         Resp 403 (Failure "Not authorized to access this order")
                       else Resp 200 (Success "" order)
                   | Throw e => failure500 production "fetching order" e
                   end))
      as [(userId & Hnext & T & Hfrom)|(H400 & _)].
    2: { unfold Checkout.getOrder in H. rewrite H400 in H. done. }
    unfold Checkout.getOrder in H. rewrite Hnext in H.
    destruct (getOrderById _id orders) as [[[i found]|]|e] eqn:Ef; [|done..].
    destruct (strictEq (o_userId found) userId) eqn:Es; [|done].
    simpl in H. injection H as <- <-.
    apply strictEq_true in Es as ->. split; [|done].
    unfold Checkout.getOrderById in Ef.
    apply bind_Ok in Ef as (oid & _ & [= Ef]).
    apply list_find_Some in Ef as (Hi & _). by eapply list_elem_of_lookup_2.
  - intros Tb Tq Th. unfold Checkout.getOrder, getUserId, orUndefined. cbn zeta.
    rewrite Tb, Tq. destruct (headers !! "x-user-id"); [|done]. by rewrite Th.
  - intros i order userId Hf Hu T.
    unfold Checkout.getOrder, getUserId, orUndefined. cbn zeta.
    rewrite Hu, T. simpl. rewrite !T. simpl. rewrite Hf. split; intros Hd.
    + apply strictEq_true in Hd as ->. done.
    + destruct (strictEq (o_userId order) userId) eqn:Es; [|done].
      by apply strictEq_true in Es.
  - intros i order userId Hf Tb Hfrom T.
    unfold Checkout.getOrder.
    rewrite (getUserId_elsewhere reqBody query headers _ userId Tb Hfrom T), Hf.
    split; intros Hd.
    + apply strictEq_true in Hd as ->. done.
    + destruct (strictEq (o_userId order) userId) eqn:Es; [|done].
      by apply strictEq_true in Es.
Qed.

(** X13.  [GET /api/order/admin/:_id] of the user-id variant asks for no
    user id.  A reply 200 carries a stored order whose id is the one of
    the path; the route answers 200 with the order that the lookup
    finds, whoever its owner is, also for an order that [GET
    /api/order/:_id] refuses to the request with 403; and it answers 404
    when no stored order has the id. *)
Theorem getOrderAdmin_any_order _id orders :
  (∀ m order,
     getOrderAdmin _id orders = Resp 200 (Success m order) →
     order ∈ orders ∧ castObjectId convertObjectId (Some (VStr _id)) = Ok (Some (o_id order))) ∧
  (∀ i order,
     getOrderById _id orders = Ok (Some (i, order)) →
     getOrderAdmin _id orders = Resp 200 (Success "" order) ∧
     ∀ reqBody query headers userId,
       reqBody !! "userId" = Some userId → truthy (Some userId) = true →
       userId ≠ VStr (o_userId order) →
       getOrder reqBody query headers _id orders
       = Resp 403 (Failure "Not authorized to access this order")) ∧
  (getOrderById _id orders = Ok None →
   getOrderAdmin _id orders = Resp 404 (Failure "Order not found")).
Proof.
  unfold Checkout.getOrderAdmin. split_and!.
  - intros m order H.
    destruct (getOrderById _id orders) as [[[i found]|]|e] eqn:Ef; [|done..].
    injection H as <- <-.
    unfold Checkout.getOrderById in Ef.
    apply bind_Ok in Ef as (oid & Hoid & [= Ef]).
    apply list_find_Some in Ef as (Hi & -> & _).
    split; [by eapply list_elem_of_lookup_2|done].
  - intros i order Hf. rewrite Hf. split; [done|].
    intros reqBody query headers userId Hu T Hd.
    unfold Checkout.getOrder, getUserId, orUndefined. cbn zeta.
    rewrite Hu, T. simpl. rewrite !T. simpl. rewrite Hf.
    destruct (strictEq (o_userId order) userId) eqn:Es; [|done].
    by apply strictEq_true in Es.
  - by intros ->.
Qed.

(** X14.  [GET /api/order] of the user-id variant, for a request whose
    body names a user id that is a non-empty string, answers 200 with
    exactly the stored orders of that user, a newer order before an
    older one; [GET /api/order/admin/all] answers with every stored
    order, a newer order before an older one. *)
Theorem listOrders_owner_newest_first reqBody query headers orders userId :
  reqBody !! "userId" = Some (VStr userId) → userId ≠ "" →
  (∃ found,
     listOrders reqBody query headers orders = Resp 200 (Success "" found) ∧
     found ≡ₚ filter (λ o, o_userId o = userId) orders ∧
     (∀ o, o ∈ found ↔ o ∈ orders ∧ o_userId o = userId) ∧
     (∀ i j a b, found !! i = Some a → found !! j = Some b → (i < j)%nat →
                 (o_createdAt b ≤ o_createdAt a)%nat)) ∧
  (∃ every,
     listAllOrders orders = Resp 200 (Success "" every) ∧
     every ≡ₚ orders ∧
     (∀ i j a b, every !! i = Some a → every !! j = Some b → (i < j)%nat →
                 (o_createdAt b ≤ o_createdAt a)%nat)).
Proof.
  intros Hu Hne. split.
  - assert (truthy (Some (VStr userId)) = true) as T by by destruct userId.
    assert (∀ o, Some userId = Some (o_userId o) ↔ o_userId o = userId) as Hiff.
    { intros o. split; [by intros [= ->]|by intros ->]. }
    eexists. split_and!.
    + unfold Checkout.listOrders, getUserId, orUndefined. cbn zeta. rewrite Hu.
      rewrite !T. simpl. reflexivity.
    + rewrite merge_sort_Permutation. by rewrite (list_filter_iff _ _ _ Hiff).
    + intros o. rewrite merge_sort_Permutation, list_elem_of_filter, Hiff. tauto.
    + intros i j a b. apply merge_sort_newest_order_first.
  - exists (merge_sort newerOrderFirst orders). split_and!.
    + done.
    + apply merge_sort_Permutation.
    + intros i j a b. apply merge_sort_newest_order_first.
Qed.

End ReadOrders.

(** ** Creating orders *)

(** A list in which an entry occurs at two places has fewer different
    entries than places. *)
Lemma elem_of_delete_repeated {A} (l : list A) i j x y :
  i ≠ j → l !! i = Some x → l !! j = Some x → y ∈ l → y ∈ delete j l.
Proof.
  intros Hij Hi Hj [k Hk]%list_elem_of_lookup.
  destruct (decide (k = j)) as [->|Hkj].
  - rewrite Hj in Hk. injection Hk as <-. by apply (elem_of_delete_other l j i).
  - by apply (elem_of_delete_other l j k).
Qed.

Lemma length_NoDup_repeated {A} (found l : list A) i j x :
  NoDup found → (∀ y, y ∈ found → y ∈ l) →
  i ≠ j → l !! i = Some x → l !! j = Some x →
  (length found < length l)%nat.
Proof.
  intros Hf Hin Hij Hi Hj.
  assert (length found ≤ length (delete j l))%nat as Hle.
  { apply submseteq_length, NoDup_submseteq; [done|].
    intros y Hy. by apply (elem_of_delete_repeated l i j x), Hin. }
  rewrite length_delete in Hle by eauto.
  apply lookup_lt_Some in Hj. lia.
Qed.

Section WriteOrders.

Import Checkout.

Variable convertString : value → option string.
Variable convertNumber : value → option Q.
Variable convertObjectId : value → option string.
Variable validateOrder : obj → list string.
Variable production : bool.

#[local] Abbreviation castNumber := (castNumber convertNumber).
#[local] Abbreviation castObjectId := (castObjectId convertObjectId).
#[local] Abbreviation amount := (amount convertNumber).
#[local] Abbreviation findOwned := (findOwned convertObjectId).
#[local] Abbreviation saveOrder := (saveOrder convertString convertNumber).
#[local] Abbreviation getUserOrders := (getUserOrders convertString).
#[local] Abbreviation createOrder :=
  (createOrder convertString convertNumber convertObjectId validateOrder production).

Lemma amount_Ok path v q : amount path v = Ok q → castNumber v = Ok q ∧ (0 <= q)%Q.
Proof.
  unfold Checkout.amount. intros H. apply bind_Ok in H as (q' & Hq & H).
  destruct (Qle_bool 0 q') eqn:E; [|done]. injection H as <-.
  by apply Qle_bool_iff in E.
Qed.

(** What [saveOrder] stores. *)
Lemma saveOrder_fields now newId userId reqBody orderItems orders r orders' :
  saveOrder now newId userId reqBody orderItems orders = Ok (r, orders') →
  ∃ order,
    r = Resp 201 (Success "Order created successfully" order) ∧
    orders' = orders ++ [order] ∧
    o_id order = newId ∧ (newId ∉ (o_id <$> orders)) ∧ o_userId order = userId ∧
    o_status order = "pending" ∧ o_paymentStatus order = "pending" ∧
    o_paymentTransactionId order = None ∧
    o_createdAt order = now ∧ o_updatedAt order = now ∧
    (0 <= o_subtotal order)%Q ∧ (0 <= o_shipping order)%Q ∧
    (0 <= o_tax order)%Q ∧ (0 <= o_total order)%Q ∧
    o_currency order ∈ ["USD"; "SGD"] ∧
    (reqBody !! "shipping" = None → o_shipping order = 0%Q) ∧
    (reqBody !! "tax" = None → o_tax order = 0%Q) ∧
    (reqBody !! "currency" = None → o_currency order = "USD").
Proof.
  unfold Checkout.saveOrder. intros H.
  apply bind_Ok in H as (customerInfo & _ & H).
  apply bind_Ok in H as (subtotal & Hsubtotal & H).
  apply bind_Ok in H as (shipping & Hshipping & H).
  apply bind_Ok in H as (tax & Htax & H).
  apply bind_Ok in H as (total & Htotal & H).
  apply bind_Ok in H as (currency & Hcurrency & H).
  apply bind_Ok in H as (? & Henum & H).
  apply bind_Ok in H as (? & Hfresh & H).
  injection H as <- <-.
  destruct (decide (currency ∈ ["USD"; "SGD"])) as [Hc|Hc];
    [|by rewrite bool_decide_eq_false_2 in Henum].
  destruct (decide (newId ∈ o_id <$> orders)) as [Hn|Hn];
    [by rewrite bool_decide_eq_true_2 in Hfresh|].
  eexists. split; [reflexivity|]. simpl.
  apply amount_Ok in Hsubtotal as [_ ?]. apply amount_Ok in Htotal as [_ ?].
  pose proof Hshipping as Hs. pose proof Htax as Ht.
  apply amount_Ok in Hs as [_ ?]. apply amount_Ok in Ht as [_ ?].
  split_and!; try done.
  - intros E. rewrite E in Hshipping. apply amount_Ok in Hshipping as [Hq _].
    by injection Hq as <-.
  - intros E. rewrite E in Htax. apply amount_Ok in Htax as [Hq _].
    by injection Hq as <-.
  - intros E. rewrite E in Hcurrency. by injection Hcurrency as <-.
Qed.

(** X15.  An order that [POST /api/order] creates (reply 201) is stored
    with the id that the storage layer gave it, which no stored order
    had, and belongs to the requester; its status and its payment status
    are [pending] and it has no payment transaction, whatever the body
    says; both timestamps are the time of the request; subtotal,
    shipping, tax and total are not negative; the currency is USD or
    SGD; shipping and tax are 0 and the currency is USD when the body
    does not name them. *)
Theorem createOrder_starts_pending now newId userId reqBody carts orders r orders' :
  createOrder now newId userId reqBody carts orders = (r, orders') →
  status r = 201%nat →
  ∃ order,
    r = Resp 201 (Success "Order created successfully" order) ∧
    orders' = orders ++ [order] ∧
    o_id order = newId ∧ (newId ∉ (o_id <$> orders)) ∧ o_userId order = userId ∧
    o_status order = "pending" ∧ o_paymentStatus order = "pending" ∧
    o_paymentTransactionId order = None ∧
    o_createdAt order = now ∧ o_updatedAt order = now ∧
    (0 <= o_subtotal order)%Q ∧ (0 <= o_shipping order)%Q ∧
    (0 <= o_tax order)%Q ∧ (0 <= o_total order)%Q ∧
    o_currency order ∈ ["USD"; "SGD"] ∧
    (reqBody !! "shipping" = None → o_shipping order = 0%Q) ∧
    (reqBody !! "tax" = None → o_tax order = 0%Q) ∧
    (reqBody !! "currency" = None → o_currency order = "USD").
Proof.
  intros H Hr.
  apply createOrder_inv in H as [[_ Hn]|(items & ids & cartItems & orderItems & H)];
    [done|].
  destruct H as (_ & _ & _ & _ & _ & _ & Hsave).
  by apply saveOrder_fields in Hsave.
Qed.

Lemma getUserOrders_string userId orders :
  getUserOrders (VStr userId) orders
  = Ok (merge_sort newerOrderFirst (filter (λ o, Some userId = Some (o_userId o)) orders)).
Proof. done. Qed.

(** X16.  After [POST /api/order] has created an order (reply 201), the
    orders of the requester are the orders they had and the new one, and
    the orders of every other user are listed as before. *)
Theorem createOrder_then_listed now newId userId reqBody carts orders m order orders' :
  createOrder now newId userId reqBody carts orders
  = (Resp 201 (Success m order), orders') →
  (∃ before after,
     getUserOrders (VStr userId) orders = Ok before ∧
     getUserOrders (VStr userId) orders' = Ok after ∧
     after ≡ₚ order :: before) ∧
  (∀ other, other ≠ userId →
     getUserOrders (VStr other) orders' = getUserOrders (VStr other) orders).
Proof.
  intros H.
  apply createOrder_inv in H as [[_ Hn]|(items & ids & cartItems & orderItems & H)];
    [done|].
  destruct H as (_ & _ & _ & _ & _ & _ & Hsave).
  apply saveOrder_Ok in Hsave as (order' & [= -> ->] & -> & _ & Hu & _).
  split.
  - eexists _, _. split_and!; [apply getUserOrders_string..|].
    rewrite !merge_sort_Permutation, filter_app.
    rewrite filter_cons_True by by rewrite Hu.
    rewrite filter_nil. by rewrite <- Permutation_cons_append.
  - intros other Hne. rewrite !getUserOrders_string. do 2 f_equal.
    rewrite filter_app, filter_cons_False; [by rewrite filter_nil, app_nil_r|].
    rewrite Hu. by intros [= ->].
Qed.

(** The ids of the request after the cast of the filter. *)
Lemma member_same a b k x y :
  getprop a k = getprop b k →
  member (Some a) k = Ok x → member (Some b) k = Ok y → x = y.
Proof.
  intros Hk Ha Hb. destruct a, b; simpl in *; congruence.
Qed.

Lemma Forall2_same_at {A B} (f : A → result B) (xs : list A) (ys : list B) i j a b :
  Forall2 (λ x y, f x = Ok y) xs ys →
  xs !! i = Some a → xs !! j = Some b → f a = f b →
  ∃ y, ys !! i = Some y ∧ ys !! j = Some y.
Proof.
  intros HF Hi Hj Hab.
  destruct (Forall2_lookup_l _ _ _ _ _ HF Hi) as (y & Hy & Hfa).
  destruct (Forall2_lookup_l _ _ _ _ _ HF Hj) as (y' & Hy' & Hfb).
  exists y. split; [done|]. rewrite Hy'. f_equal. congruence.
Qed.

(** X17.  [POST /api/order] refuses a checkout that names the same cart
    item twice.  When two entries of [items] have the same [cartItemId]
    and the stored cart items have pairwise different ids, no order is
    created: the stored orders are unchanged and the reply is 400
    (validation errors, or "Some cart items do not belong to you or do
    not exist") or 500. *)
Theorem createOrder_rejects_repeated_item
    now newId userId reqBody carts orders items i j a b r orders' :
  NoDup (ci_id <$> carts) →
  reqBody !! "items" = Some (VArr items) →
  i ≠ j → items !! i = Some a → items !! j = Some b →
  getprop a "cartItemId" = getprop b "cartItemId" →
  createOrder now newId userId reqBody carts orders = (r, orders') →
  orders' = orders ∧
  (r = Resp 400 (Invalid (validateOrder reqBody)) ∨
   r = Resp 400 (Failure "Some cart items do not belong to you or do not exist") ∨
   ∃ e, r = failure500 production "creating order" e).
Proof.
  intros Hcarts Hitems Hij Hi Hj Hsame. unfold Checkout.createOrder.
  case_bool_decide as Hv. { intros [= <- <-]. auto. }
  rewrite Hitems. cbn [mbind result_bind].
  destruct (mapM (λ item, member (Some item) "cartItemId") items)
    as [cartItemIds|e] eqn:Em; cbn [mbind result_bind].
  2: { intros [= <- <-]. split; [done|]. right. right. by exists e. }
  destruct (findOwned cartItemIds userId carts) as [cartItems|e] eqn:Ef;
    cbn [mbind result_bind].
  2: { intros [= <- <-]. split; [done|]. right. right. by exists e. }
  case_bool_decide as Hlen. { intros [= <- <-]. auto. }
  exfalso.
  apply mapM_Ok in Em.
  destruct (Forall2_lookup_l _ _ _ _ _ Em Hi) as (v & Hvi & Hma).
  destruct (Forall2_lookup_l _ _ _ _ _ Em Hj) as (v' & Hvj & Hmb).
  assert (v' = v) as -> by (symmetry; by apply (member_same a b "cartItemId")).
  unfold Checkout.findOwned in Ef. apply bind_Ok in Ef as (ids & Hids & [= <-]).
  apply mapM_Ok in Hids.
  destruct (Forall2_same_at _ _ _ i j v v Hids Hvi Hvj eq_refl) as (oid & Hoi & Hoj).
  pose proof (Forall2_length _ _ _ Hids) as Hl.
  set (found := filter (λ ci, Some (ci_id ci) ∈ ids ∧ ci_userId ci = userId) carts) in *.
  assert (length (Some ∘ ci_id <$> found) < length ids)%nat as Hlt.
  { apply (length_NoDup_repeated _ ids i j oid); [| |done..].
    - rewrite list_fmap_compose. apply (NoDup_fmap_2 Some).
      eapply sublist_NoDup; [done|]. apply fmap_sublist, sublist_filter.
    - intros y [ci [-> Hci]]%list_elem_of_fmap.
      apply list_elem_of_filter in Hci as [[Hin _] _]. done. }
  rewrite length_fmap in Hlt. lia.
Qed.

End WriteOrders.

(** ** Updating the payment status *)

Section PaymentRoute.

Import Checkout.

Variable convertString : value → option string.
Variable convertObjectId : value → option string.
Variable validatePayment : obj → list string.
Variable production : bool.

#[local] Abbreviation updatePaymentStatus :=
  (updatePaymentStatus convertString convertObjectId validatePayment production).
#[local] Abbreviation getOrderById := (getOrderById convertObjectId).
#[local] Abbreviation applyPayment := (applyPayment convertString).

(** The outcomes of the payment route of the user-id variant. *)
Lemma updatePaymentStatus_inv notifier now userId _id reqBody orders r orders' logged :
  updatePaymentStatus notifier now userId _id reqBody orders = (r, orders', logged) →
  (orders' = orders ∧ status r ≠ 200%nat) ∨
  (∃ i order updated,
     validatePayment reqBody = [] ∧
     getOrderById _id orders = Ok (Some (i, order)) ∧
     o_userId order = userId ∧
     applyPayment now (reqBody !! "status") (reqBody !! "paymentTransactionId") order
     = Ok updated ∧
     r = Resp 200 (Success "Order payment status updated successfully" updated) ∧
     orders' = <[i := updated]> orders).
Proof.
  unfold Checkout.updatePaymentStatus.
  case_bool_decide as Hv. { intros [= <- <- <-]. by left. }
  cbn zeta.
  destruct (getOrderById _id orders) as [[[i order]|]|e] eqn:Ef; cbn [mbind result_bind].
  - case_bool_decide as Hu. { intros [= <- <- <-]. by left. }
    destruct (applyPayment now (reqBody !! "status") (reqBody !! "paymentTransactionId")
                order) as [updated|e] eqn:Ea; cbn [mbind result_bind].
    + intros [= <- <- <-]. right. exists i, order, updated. split_and!; try done.
    + intros [= <- <- <-]. left. split; [done|]. unfold failure500. done.
  - intros [= <- <- <-]. by left.
  - intros [= <- <- <-]. left. split; [done|]. unfold failure500. done.
Qed.

Lemma applyPayment_keeps now status transaction order updated :
  applyPayment now status transaction order = Ok updated →
  o_id updated = o_id order ∧ o_userId updated = o_userId order ∧
  o_items updated = o_items order ∧
  o_subtotal updated = o_subtotal order ∧ o_shipping updated = o_shipping order ∧
  o_tax updated = o_tax order ∧ o_total updated = o_total order ∧
  o_currency updated = o_currency order ∧
  o_customerInfo updated = o_customerInfo order ∧
  o_createdAt updated = o_createdAt order ∧ o_updatedAt updated = now ∧
  (truthy transaction = false →
   o_paymentTransactionId updated = o_paymentTransactionId order) ∧
  (∀ t, transaction = Some (VStr t) → t ≠ "" →
        o_paymentTransactionId updated = Some t).
Proof.
  unfold Checkout.applyPayment. intros H.
  apply bind_Ok in H as (paymentStatus & _ & H).
  apply bind_Ok in H as (t' & Ht & H). injection H as <-. simpl.
  split_and!; try done.
  - intros T. rewrite T in Ht. by injection Ht.
  - intros t -> Hne.
    assert (truthy (Some (VStr t)) = true) as T by by destruct t.
    rewrite T in Ht. simpl in Ht. by injection Ht.
Qed.

(** X18.  The payment route of the user-id variant is for the owner of
    the order.  When the order that the path names belongs to another
    user, a valid request is answered 403 "Not authorized to update this
    order", the orders are unchanged and no mail is attempted.  Every
    reply other than 200 leaves the stored orders as they were. *)
Theorem updatePaymentStatus_owner_only notifier now userId _id reqBody orders :
  (∀ i order,
     validatePayment reqBody = [] →
     getOrderById _id orders = Ok (Some (i, order)) → o_userId order ≠ userId →
     updatePaymentStatus notifier now userId _id reqBody orders
     = (Resp 403 (Failure "Not authorized to update this order"), orders, [])) ∧
  (status (updatePaymentStatus notifier now userId _id reqBody orders).1.1 ≠ 200%nat →
   (updatePaymentStatus notifier now userId _id reqBody orders).1.2 = orders).
Proof.
  split_and!.
  - intros i order Hv Hf Hu.
    unfold Checkout.updatePaymentStatus. rewrite Hv. simpl. rewrite Hf. simpl.
    by rewrite bool_decide_eq_true_2.
  - destruct (updatePaymentStatus notifier now userId _id reqBody orders)
      as [[r orders'] logged] eqn:E. simpl.
    apply updatePaymentStatus_inv in E as [[-> _]|(i & order & updated & H)]; [done|].
    destruct H as (_ & _ & _ & _ & -> & _). done.
Qed.

(** X19.  A payment update (reply 200) rewrites the addressed order and
    no other: the number of stored orders is unchanged and every other
    order is as before.  The updated order keeps its id, owner, items,
    subtotal, shipping, tax, total, currency, customer information and
    creation time; its [updatedAt] is the time of the request; its
    payment transaction id is the one sent when that is a non-empty
    string, and the stored one when none (or a falsy one) is sent. *)
Theorem updatePaymentStatus_keeps_order
    notifier now userId _id reqBody orders m updated orders' logged :
  updatePaymentStatus notifier now userId _id reqBody orders
  = (Resp 200 (Success m updated), orders', logged) →
  ∃ i order,
    orders !! i = Some order ∧ orders' = <[i := updated]> orders ∧
    length orders' = length orders ∧
    (∀ j, j ≠ i → orders' !! j = orders !! j) ∧
    o_id updated = o_id order ∧ o_userId updated = o_userId order ∧
    o_items updated = o_items order ∧
    o_subtotal updated = o_subtotal order ∧ o_shipping updated = o_shipping order ∧
    o_tax updated = o_tax order ∧ o_total updated = o_total order ∧
    o_currency updated = o_currency order ∧
    o_customerInfo updated = o_customerInfo order ∧
    o_createdAt updated = o_createdAt order ∧ o_updatedAt updated = now ∧
    (truthy (reqBody !! "paymentTransactionId") = false →
     o_paymentTransactionId updated = o_paymentTransactionId order) ∧
    (∀ t, reqBody !! "paymentTransactionId" = Some (VStr t) → t ≠ "" →
          o_paymentTransactionId updated = Some t).
Proof.
  intros H.
  apply updatePaymentStatus_inv in H as [[_ Hn]|(i & order & updated' & H)]; [done|].
  destruct H as (_ & Hf & _ & Ha & [= _ ->] & ->).
  unfold Checkout.getOrderById in Hf. apply bind_Ok in Hf as (oid & _ & [= Hf]).
  apply list_find_Some in Hf as (Hi & _).
  exists i, order. split; [done|]. split; [done|].
  split; [apply length_insert|].
  split; [intros j Hj; by apply list_lookup_insert_ne|].
  by apply (applyPayment_keeps now (reqBody !! "status")).
Qed.

End PaymentRoute.

(** ** The image helpers *)

(** *** Splitting and joining *)

Lemma includes_char_cons (c b : ascii) (s : string) :
  includes (String b s) (String c "") = Ascii.eqb c b || includes s (String c "").
Proof.
  unfold includes. simpl.
  destruct (ascii_dec c b) as [->|Hne].
  - rewrite Ascii.eqb_refl. by destruct s.
  - apply Ascii.eqb_neq in Hne. rewrite Hne. simpl.
    by destruct (String.index 0 (String c "") s).
Qed.

Lemma includes_char_nil (c : ascii) : includes "" (String c "") = false.
Proof. done. Qed.

Lemma includes_char_app (c : ascii) (a b : string) :
  includes (a +:+ b) (String c "") = includes a (String c "") || includes b (String c "").
Proof.
  induction a as [|x a IH]; [done|].
  change (String x a +:+ b) with (String x (a +:+ b)).
  rewrite !includes_char_cons, IH. by rewrite orb_assoc.
Qed.

(** A string without the separator is one part. *)
Lemma split_plain (sep : ascii) (s : string) :
  includes s (String sep "") = false → split sep s = [s].
Proof.
  induction s as [|c s IH]; [done|].
  rewrite includes_char_cons. intros [Hc Hs]%orb_false_elim.
  simpl. rewrite Ascii.eqb_sym, Hc. by rewrite IH.
Qed.

Lemma split_app (sep : ascii) (a b : string) :
  includes a (String sep "") = false →
  split sep (a +:+ String sep b) = a :: split sep b.
Proof.
  induction a as [|c a IH]; intros Ha.
  - simpl. by rewrite Ascii.eqb_refl.
  - rewrite includes_char_cons in Ha. apply orb_false_elim in Ha as [Hc Ha].
    change (String c a +:+ String sep b) with (String c (a +:+ String sep b)).
    simpl. rewrite Ascii.eqb_sym, Hc. by rewrite IH.
Qed.

(** Splitting what was joined gives the parts back. *)
Lemma split_join (sep : ascii) (parts : list string) :
  parts ≠ [] → (∀ p, p ∈ parts → includes p (String sep "") = false) →
  split sep (join (String sep "") parts) = parts.
Proof.
  induction parts as [|p parts IH]; [done|]. intros _ Hp.
  destruct parts as [|q parts].
  - simpl. apply split_plain, Hp. left.
  - change (join (String sep "") (p :: q :: parts))
      with (p +:+ String sep "" +:+ join (String sep "") (q :: parts)).
    change (String sep "" +:+ join (String sep "") (q :: parts))
      with (String sep (join (String sep "") (q :: parts))).
    rewrite split_app by (apply Hp; left).
    rewrite IH; [done..|]. intros x Hx. apply Hp. by right.
Qed.

Lemma append_assoc (a b c : string) : (a +:+ b) +:+ c = a +:+ b +:+ c.
Proof.
  induction a as [|x a IH]; [done|].
  change (String x ((a +:+ b) +:+ c) = String x (a +:+ b +:+ c)). by rewrite IH.
Qed.

Lemma join_snoc (sep : string) (parts : list string) (p : string) :
  join sep (parts ++ [p])
  = if bool_decide (0 < length parts)%nat then join sep parts +:+ sep +:+ p else p.
Proof.
  induction parts as [|q parts IH]; [done|].
  destruct parts as [|q' parts]; [done|].
  rewrite bool_decide_eq_true_2 by (simpl; lia).
  change (join sep ((q :: q' :: parts) ++ [p]))
    with (q +:+ sep +:+ join sep ((q' :: parts) ++ [p])).
  rewrite IH, bool_decide_eq_true_2 by (simpl; lia).
  change (join sep (q :: q' :: parts)) with (q +:+ sep +:+ join sep (q' :: parts)).
  by rewrite !append_assoc.
Qed.

Lemma list_find_fresh {A} (P : A → Prop) `{∀ x, Decision (P x)} (pre rest : list A) x :
  (∀ y, y ∈ pre → ¬ P y) → P x →
  list_find P (pre ++ x :: rest) = Some (length pre, x).
Proof.
  intros Hpre Hx. apply list_find_Some. split_and!.
  - by rewrite lookup_app_r, Nat.sub_diag by lia.
  - done.
  - intros j y Hj Hlt. rewrite lookup_app_l in Hj by done.
    apply Hpre. by eapply list_elem_of_lookup_2.
Qed.

Lemma drop_past {A} (pre rest : list A) x : drop (S (length pre)) (pre ++ x :: rest) = rest.
Proof. induction pre as [|y pre IH]; [done|]. exact IH. Qed.

Lemma includes_nonempty (s sub : string) : includes s sub = true → sub ≠ "" → s ≠ "".
Proof. intros H Hsub ->. by destruct sub. Qed.

(** *** The public id of a stored image *)

(** X20.  For the URL of a stored image, that is, parts joined by [/]
    with a part [upload] (the first such part), then any number of
    folders, then a file name with an extension, [deleteImage] asks the
    media store to destroy the folders and the name of the file without
    its extension, joined by [/], and answers whether the store said
    "ok"; a rejection counts as a failure.  A version part such as
    [v123] after [upload] is part of that public id. *)
Theorem deleteImage_public_id destroy pre folders name ext :
  (∀ p, p ∈ pre → includes p "/" = false ∧ p ≠ "upload") →
  (∀ p, p ∈ folders → includes p "/" = false) →
  includes name "/" = false → includes name "." = false → includes ext "/" = false →
  includes (join "/" (pre ++ "upload" :: folders ++ [name +:+ "." +:+ ext]))
           "cloudinary.com" = true →
  publicIdOf (join "/" (pre ++ "upload" :: folders ++ [name +:+ "." +:+ ext]))
  = Ok (Some (join "/" (folders ++ [name]))) ∧
  deleteImage destroy (join "/" (pre ++ "upload" :: folders ++ [name +:+ "." +:+ ext]))
  = match destroy (join "/" (folders ++ [name])) with
    | Ok r => String.eqb r "ok"
    | Throw _ => false
    end.
Proof.
  intros Hpre Hfolders Hname Hdot Hext Hcloud.
  set (file := name +:+ "." +:+ ext) in *.
  set (url := join "/" (pre ++ "upload" :: folders ++ [file])) in *.
  assert (includes file "/" = false) as Hfile.
  { unfold file. rewrite !includes_char_app, Hname, Hext. done. }
  assert (split "/" url = pre ++ "upload" :: folders ++ [file]) as Hsplit.
  { apply split_join; [by destruct pre|].
    intros p. rewrite elem_of_app, elem_of_cons, elem_of_app, list_elem_of_singleton.
    intros [Hp|[ -> |[Hp| -> ]]]; [by apply Hpre|done|by apply Hfolders|done]. }
  assert (publicIdOf url = Ok (Some (join "/" (folders ++ [name])))) as Hid.
  { unfold publicIdOf. cbn zeta. rewrite Hsplit.
    rewrite (list_find_fresh _ pre (folders ++ [file]) "upload");
      [|intros y Hy; by apply Hpre|done].
    rewrite drop_past, last_snoc, removelast_last.
    unfold file. change (name +:+ "." +:+ ext) with (name +:+ String "."%char ext).
    rewrite split_app by done. simpl. by rewrite join_snoc. }
  split; [done|].
  unfold deleteImage. rewrite Hcloud.
  assert (truthy (Some (VStr url)) = true) as ->.
  { assert (url ≠ "") as Hne by by apply (includes_nonempty _ _ Hcloud).
    by destruct url. }
  simpl. rewrite Hid. simpl. by destruct (destroy _).
Qed.

(** X21.  The edge cases of [deleteImage], whatever the media store
    does: an empty URL and a URL that does not contain [cloudinary.com]
    are answered [true] without the store being asked; a Cloudinary URL
    without a part [upload], and one whose last part is [upload], are
    answered [false] without the store being asked; and the answer is
    [false] whenever the store rejects the request. *)
Theorem deleteImage_edge_cases destroy imageUrl :
  (imageUrl = "" ∨ includes imageUrl "cloudinary.com" = false →
   deleteImage destroy imageUrl = true) ∧
  (includes imageUrl "cloudinary.com" = true →
   (∀ part, part ∈ split "/" imageUrl → part ≠ "upload") →
   deleteImage destroy imageUrl = false) ∧
  (∀ pre,
     includes imageUrl "cloudinary.com" = true →
     split "/" imageUrl = pre ++ ["upload"] → (∀ p, p ∈ pre → p ≠ "upload") →
     deleteImage destroy imageUrl = false) ∧
  ((∀ publicId, ∃ e, destroy publicId = Throw e) →
   includes imageUrl "cloudinary.com" = true →
   deleteImage destroy imageUrl = false).
Proof.
  split_and!.
  - intros [->|Hc]; [done|]. unfold deleteImage. rewrite Hc. by rewrite orb_true_r.
  - intros Hc Hparts. unfold deleteImage. rewrite Hc.
    assert (truthy (Some (VStr imageUrl)) = true) as ->.
    { assert (imageUrl ≠ "") as Hne by by apply (includes_nonempty _ _ Hc).
      by destruct imageUrl. }
    simpl. unfold publicIdOf. cbn zeta.
    destruct (list_find (λ part, part = "upload") (split "/" imageUrl))
      as [[i part]|] eqn:E; [|done].
    apply list_find_Some in E as (Hi & -> & _).
    destruct (Hparts "upload"); [by eapply list_elem_of_lookup_2|done].
  - intros pre Hc Hsplit Hpre. unfold deleteImage. rewrite Hc.
    assert (truthy (Some (VStr imageUrl)) = true) as ->.
    { assert (imageUrl ≠ "") as Hne by by apply (includes_nonempty _ _ Hc).
      by destruct imageUrl. }
    simpl. unfold publicIdOf. cbn zeta. rewrite Hsplit.
    rewrite (list_find_fresh _ pre [] "upload"); [|done..].
    by rewrite drop_past.
  - intros Hd Hc. unfold deleteImage. rewrite Hc.
    assert (truthy (Some (VStr imageUrl)) = true) as ->.
    { assert (imageUrl ≠ "") as Hne by by apply (includes_nonempty _ _ Hc).
      by destruct imageUrl. }
    simpl. destruct (publicIdOf imageUrl) as [[pid|]|e]; simpl; [|done..].
    by destruct (Hd pid) as [e ->].
Qed.

(** X22.  The earlier [deleteImage] of [utils/imageProcessor.js] takes
    the public id from the last two parts of the URL.  For a URL in
    which exactly one folder follows the part [upload] it destroys the
    same public id, and gives the same answer, as the later
    [deleteImage]. *)
Theorem legacyDeleteImage_agrees destroy pre folder name ext :
  (∀ p, p ∈ pre → includes p "/" = false ∧ p ≠ "upload") →
  includes folder "/" = false →
  includes name "/" = false → includes name "." = false → includes ext "/" = false →
  legacyPublicIdOf (join "/" (pre ++ ["upload"; folder; name +:+ "." +:+ ext]))
  = folder +:+ "/" +:+ name ∧
  publicIdOf (join "/" (pre ++ ["upload"; folder; name +:+ "." +:+ ext]))
  = Ok (Some (folder +:+ "/" +:+ name)) ∧
  legacyDeleteImage destroy (join "/" (pre ++ ["upload"; folder; name +:+ "." +:+ ext]))
  = deleteImage destroy (join "/" (pre ++ ["upload"; folder; name +:+ "." +:+ ext])).
Proof.
  intros Hpre Hfolder Hname Hdot Hext.
  set (file := name +:+ "." +:+ ext).
  set (url := join "/" (pre ++ ["upload"; folder; file])).
  assert (includes file "/" = false) as Hfile.
  { unfold file. rewrite !includes_char_app, Hname, Hext. done. }
  assert (split "/" url = pre ++ ["upload"; folder; file]) as Hsplit.
  { apply split_join; [by destruct pre|].
    intros p. rewrite elem_of_app, !elem_of_cons, elem_of_nil.
    intros [Hp|[ -> |[ -> |[ -> |[]]]]]; [by apply Hpre|done..]. }
  assert (legacyPublicIdOf url = folder +:+ "/" +:+ name) as Hlegacy.
  { unfold legacyPublicIdOf. cbn zeta. rewrite Hsplit.
    replace (pre ++ ["upload"; folder; file]) with ((pre ++ ["upload"; folder]) ++ [file])
      by by rewrite <- app_assoc.
    rewrite last_snoc, rev_app_distr. simpl.
    replace (pre ++ ["upload"; folder]) with ((pre ++ ["upload"]) ++ [folder])
      by by rewrite <- app_assoc.
    rewrite rev_app_distr. simpl.
    unfold file. change (name +:+ "." +:+ ext) with (name +:+ String "."%char ext).
    by rewrite split_app. }
  assert (publicIdOf url = Ok (Some (folder +:+ "/" +:+ name))) as Hid.
  { unfold publicIdOf. cbn zeta. rewrite Hsplit.
    rewrite (list_find_fresh _ pre [folder; file] "upload");
      [|intros y Hy; by apply Hpre|done].
    rewrite drop_past. simpl.
    unfold file. change (name +:+ "." +:+ ext) with (name +:+ String "."%char ext).
    by rewrite split_app. }
  split; [done|]. split; [done|].
  unfold legacyDeleteImage, deleteImage.
  destruct (negb (truthy (Some (VStr url))) || negb (includes url "cloudinary.com"));
    [done|].
  rewrite Hlegacy, Hid. simpl. by destruct (destroy _).
Qed.

(** *** Uploads *)

(** X23.  [processImage] of [utils/imageProcessor.js] never throws: it
    answers with the image it was given, or with the URL of an upload
    of data that begins with [data:image/jpeg;base64,].  A string that
    begins with [http] and a value that is not a string are returned as
    they are, without an upload.  When the media store answers uploads
    with URLs that begin with [http], processing the result again for
    the same image type returns it unchanged. *)
Theorem processImage_settles upload base64Image imageType :
  (∀ file folder transformation url,
     upload file folder transformation = Ok url → startsWith url "http" = true) →
  ∃ processed,
    Uploads.processImage upload base64Image imageType = Ok processed ∧
    (processed = base64Image ∨
     ∃ imageData url,
       upload ("data:image/jpeg;base64," +:+ imageData)
              (Uploads.folder imageType) (Uploads.transformation imageType) = Ok url ∧
       processed = VStr url) ∧
    ((∀ s, base64Image = VStr s → startsWith s "http" = true) → processed = base64Image) ∧
    Uploads.processImage upload processed imageType = Ok processed.
Proof.
  intros Hhttp. unfold Uploads.processImage at 1.
  destruct base64Image as [| | |s| | |] eqn:Ev;
    try (eexists; split_and!; [reflexivity|by left|done|done]).
  destruct (startsWith s "http") eqn:Es.
  { eexists. split_and!; [reflexivity|by left|done|].
    unfold Uploads.processImage. by rewrite Es. }
  cbn zeta.
  set (imageData := if startsWith s "data:image/"
                    then default "undefined" (split "," s !! 1%nat) else s).
  destruct (upload ("data:image/jpeg;base64," +:+ imageData)
              (Uploads.folder imageType) (Uploads.transformation imageType))
    as [url|e] eqn:Eu; cbn [mbind result_bind].
  - exists (VStr url). split_and!.
    + done.
    + right. by exists imageData, url.
    + intros Hs. specialize (Hs s eq_refl). congruence.
    + unfold Uploads.processImage. by rewrite (Hhttp _ _ _ _ Eu).
  - exists (VStr s). split_and!.
    + done.
    + by left.
    + done.
    + unfold Uploads.processImage. rewrite Es. cbn zeta. fold imageData.
      by rewrite Eu.
Qed.

(** *** Image formats *)

Lemma afterPrefix_app (p s : string) : Converter.afterPrefix p (p +:+ s) = Some s.
Proof. induction p as [|c p IH]; [done|]. simpl. by rewrite Ascii.eqb_refl. Qed.

Lemma afterPrefix_Some (p s rest : string) :
  Converter.afterPrefix p s = Some rest → s = p +:+ rest.
Proof.
  revert s. induction p as [|c p IH]; intros s; simpl.
  - by intros [= ->].
  - destruct s as [|b s]; [done|].
    destruct (Ascii.eqb c b) eqn:E; [|done]. apply Ascii.eqb_eq in E as ->.
    intros H. by rewrite (IH s H).
Qed.

Lemma lowerRun_app (format after : string) :
  Converter.allLower format = true →
  (∀ c rest, after = String c rest → Converter.isLower c = false) →
  Converter.lowerRun (format +:+ after) = (format, after).
Proof.
  intros Hf Ha. induction format as [|c format IH].
  - simpl. destruct after as [|c rest]; [done|]. simpl. by rewrite (Ha c rest).
  - simpl in Hf. apply andb_prop in Hf as [Hc Hf].
    change (String c format +:+ after) with (String c (format +:+ after)).
    simpl. rewrite Hc, IH by done. done.
Qed.

Lemma lowerRun_spec (s run after : string) :
  Converter.lowerRun s = (run, after) →
  s = run +:+ after ∧ Converter.allLower run = true.
Proof.
  revert run after. induction s as [|c s IH]; intros run after; simpl.
  - by intros [= <- <-].
  - destruct (Converter.isLower c) eqn:Ec.
    + destruct (Converter.lowerRun s) as [run' after'] eqn:E. intros [= <- <-].
      destruct (IH run' after' eq_refl) as [-> Hl]. simpl. by rewrite Ec, Hl.
    + by intros [= <- <-].
Qed.

Lemma startsWith_app (p s : string) : startsWith (p +:+ s) p = true.
Proof.
  unfold startsWith. induction p as [|c p IH]; [by destruct s|].
  simpl. destruct (ascii_dec c c); [exact IH|done].
Qed.

Lemma startsWith_Some (p s : string) :
  startsWith s p = true → ∃ rest, s = p +:+ rest.
Proof.
  unfold startsWith. revert s. induction p as [|c p IH]; intros s; simpl.
  - intros _. by exists s.
  - destruct s as [|b s]; simpl; [done|].
    destruct (ascii_dec c b) as [->|]; [|done].
    intros [rest ->]%IH. by exists rest.
Qed.

Lemma toLowerCase_lower (s : string) : Converter.allLower s = true → Converter.toLowerCase s = s.
Proof.
  induction s as [|c s IH]; [done|]. simpl. intros [Hc Hs]%andb_prop.
  rewrite IH by done. f_equal. unfold Converter.lowerChar, Converter.isLower in *.
  apply andb_prop in Hc as [Hc _]. apply Nat.leb_le in Hc.
  destruct (nat_of_ascii c <=? 90)%nat eqn:E; [|by rewrite andb_false_r].
  apply Nat.leb_le in E. lia.
Qed.

(** X24.  [getImageFormat] reads the format back from a data URL: for a
    non-empty format of letters [a-z] and any payload, the format of
    [data:image/<format>;base64,<payload>] is [<format>]; every string
    of another shape has the format [unknown].  So [needsConversion] is
    false exactly for the data URLs that declare [jpeg], [jpg] or
    [webp]. *)
Theorem getImageFormat_round_trip base64Image :
  (∀ format payload,
     format ≠ "" → Converter.allLower format = true →
     base64Image = "data:image/" +:+ format +:+ ";base64," +:+ payload →
     Converter.getImageFormat base64Image = format) ∧
  (Converter.getImageFormat base64Image = "unknown" ∨
   ∃ payload,
     base64Image
     = "data:image/" +:+ Converter.getImageFormat base64Image +:+ ";base64," +:+ payload) ∧
  (Converter.needsConversion base64Image = false ↔
   ∃ format payload,
     format ∈ ["jpeg"; "jpg"; "webp"] ∧
     base64Image = "data:image/" +:+ format +:+ ";base64," +:+ payload).
Proof.
  assert (∀ format payload,
            format ≠ "" → Converter.allLower format = true →
            base64Image = "data:image/" +:+ format +:+ ";base64," +:+ payload →
            Converter.getImageFormat base64Image = format) as Hround.
  { intros format payload Hne Hl ->. unfold Converter.getImageFormat.
    rewrite afterPrefix_app.
    rewrite (lowerRun_app format (";base64," +:+ payload)); [|done|].
    - rewrite (startsWith_app ";base64," payload).
      destruct (String.eqb format "") eqn:E; [by apply String.eqb_eq in E|done].
    - by intros c rest [= <- _]. }
  assert (Converter.getImageFormat base64Image = "unknown" ∨
          ∃ payload,
            Converter.allLower (Converter.getImageFormat base64Image) = true ∧
            base64Image
            = "data:image/" +:+ Converter.getImageFormat base64Image
              +:+ ";base64," +:+ payload) as Hshape.
  { unfold Converter.getImageFormat.
    destruct (Converter.afterPrefix "data:image/" base64Image) as [rest|] eqn:Ep;
      [|by left].
    apply afterPrefix_Some in Ep as ->.
    destruct (Converter.lowerRun rest) as [format after] eqn:Er.
    apply lowerRun_spec in Er as [-> Hl].
    destruct (String.eqb format ""); simpl; [by left|].
    destruct (startsWith after ";base64,") eqn:Es; [|by left].
    apply startsWith_Some in Es as [payload ->]. right. by exists payload. }
  split_and!.
  - done.
  - destruct Hshape as [?|(payload & _ & ?)]; [by left|right; by exists payload].
  - unfold Converter.needsConversion. rewrite negb_false_iff, bool_decide_eq_true.
    split.
    + intros Hin. destruct Hshape as [Hu|(payload & Hl & Hs)].
      * rewrite Hu in Hin. simpl in Hin.
        rewrite !elem_of_cons, elem_of_nil in Hin. by destruct Hin as [?|[?|[?|[]]]].
      * rewrite toLowerCase_lower in Hin by done. eauto.
    + intros (format & payload & Hin & Hs).
      assert (format ≠ "" ∧ Converter.allLower format = true) as [Hne Hl].
      { rewrite !elem_of_cons, elem_of_nil in Hin.
        by destruct Hin as [->|[->|[->|[]]]]. }
      rewrite (Hround format payload Hne Hl Hs).
      by rewrite toLowerCase_lower.
Qed.

(** ** Configuration *)

Lemma envOr_nonempty env k dflt : dflt ≠ "" → envOr env k dflt ≠ "".
Proof.
  intros Hd. unfold envOr. destruct (env !! k) as [s|]; [|done].
  destruct (String.eqb s "") eqn:E; [done|]. by apply String.eqb_neq.
Qed.

Lemma envOr_empty env k : envOr env k "" = "" ↔ env !! k = None ∨ env !! k = Some "".
Proof.
  unfold envOr. destruct (env !! k) as [s|]; [|by intuition].
  destruct (String.eqb s "") eqn:E.
  - apply String.eqb_eq in E as ->. by intuition.
  - apply String.eqb_neq in E. split; [done|]. intros [?|[= ?]]; done.
Qed.

Section MailerConfig.

Import Checkout.

(** X25.  The mailer under the configuration of [config/email.js].  When
    [EMAIL_ENABLED] is the string [false], [sendOrderConfirmationEmail]
    answers "Email service is disabled"; otherwise, when [BREVO_API_KEY]
    is unset or empty, it answers "Email API key not configured"; in
    both cases the answer does not depend on the template, the
    formatting or the mail service.  A message that is sent goes to
    [ADMIN_EMAIL] alone, or to [admin@mousepad.com] when that is unset
    or empty. *)
Theorem mail_needs_configuration env readFileSync compose sendTransacEmail order :
  (env !! "EMAIL_ENABLED" = Some "false" →
   sendOrderConfirmationEmail (emailConfigOf env) readFileSync compose sendTransacEmail order
   = Ok {| success := false; messageId := None;
           message := Some "Email service is disabled"; error := None |}) ∧
  (env !! "EMAIL_ENABLED" ≠ Some "false" →
   env !! "BREVO_API_KEY" = None ∨ env !! "BREVO_API_KEY" = Some "" →
   sendOrderConfirmationEmail (emailConfigOf env) readFileSync compose sendTransacEmail order
   = Ok {| success := false; messageId := None;
           message := Some "Email API key not configured"; error := None |}) ∧
  (∀ r,
     sendOrderConfirmationEmail (emailConfigOf env) readFileSync compose sendTransacEmail
       order = Ok r →
     success r = true →
     env !! "EMAIL_ENABLED" ≠ Some "false" ∧
     (∃ key, env !! "BREVO_API_KEY" = Some key ∧ key ≠ "") ∧
     ∃ sent, sendTransacEmail sent = Ok (default "" (messageId r)) ∧
             to sent = [envOr env "ADMIN_EMAIL" "admin@mousepad.com"] ∧
             to sent ≠ [""]).
Proof.
  unfold sendOrderConfirmationEmail, emailConfigOf. simpl. split_and!.
  - intros He. by rewrite bool_decide_eq_true_2.
  - intros He Hk. rewrite bool_decide_eq_false_2 by done. simpl.
    apply envOr_empty in Hk. by rewrite Hk.
  - intros r H Hr. case_bool_decide as He; simpl in H.
    { injection H as <-. done. }
    destruct (truthy (Some (VStr (envOr env "BREVO_API_KEY" "")))) eqn:Tk; simpl in H.
    2: { injection H as <-. done. }
    split; [done|]. split.
    { unfold envOr in Tk |- *. destruct (env !! "BREVO_API_KEY") as [key|]; [|done].
      exists key. split; [done|]. intros ->. done. }
    unfold try_catch in H.
    destruct readFileSync as [template|e]; simpl in H.
    2: { injection H as <-. destruct (truthy _); done. }
    destruct (truthy (Some (VStr template))); simpl in H.
    2: { injection H as <-. done. }
    destruct (compose template order) as [[subjectLine html]|e]; simpl in H.
    2: { injection H as <-. destruct (truthy _); done. }
    destruct (sendTransacEmail _) as [sent|e] eqn:Es; simpl in H.
    2: { injection H as <-. destruct (truthy _); done. }
    injection H as <-. eexists. split; [exact Es|]. simpl. split; [done|].
    intros [= E]. by apply (envOr_nonempty env "ADMIN_EMAIL" "admin@mousepad.com").
Qed.

End MailerConfig.

(** X26.  The cookie options of [config/api.js], for every environment:
    the cookie is [httpOnly] and lives seven days; [sameSite] is [none]
    or [lax], and [none] comes with [secure]; the cookie is not secure
    exactly when [NODE_ENV] is [production] and [API_IS_HTTPS] is the
    string [false]; its domain is a non-empty [COOKIE_DOMAIN], else
    [.evogearstudio.com] in production and [.vos.local] otherwise. *)
Theorem getCookieOptions_secure env :
  ApiConfig.httpOnly (ApiConfig.getCookieOptions env) = true ∧
  ApiConfig.maxAge (ApiConfig.getCookieOptions env) = 604800000%N ∧
  (ApiConfig.sameSite (ApiConfig.getCookieOptions env) = "none" ∧
   ApiConfig.secure (ApiConfig.getCookieOptions env) = true ∨
   ApiConfig.sameSite (ApiConfig.getCookieOptions env) = "lax" ∧
   ApiConfig.secure (ApiConfig.getCookieOptions env) = false) ∧
  (ApiConfig.secure (ApiConfig.getCookieOptions env) = false ↔
   env !! "NODE_ENV" = Some "production" ∧ env !! "API_IS_HTTPS" = Some "false") ∧
  ApiConfig.domain (ApiConfig.getCookieOptions env)
  = (if bool_decide (env !! "NODE_ENV" = Some "production")
     then envOr env "COOKIE_DOMAIN" ".evogearstudio.com"
     else envOr env "COOKIE_DOMAIN" ".vos.local") ∧
  ApiConfig.domain (ApiConfig.getCookieOptions env) ≠ "".
Proof.
  assert (ApiConfig.domain (ApiConfig.getCookieOptions env)
          = (if bool_decide (env !! "NODE_ENV" = Some "production")
             then envOr env "COOKIE_DOMAIN" ".evogearstudio.com"
             else envOr env "COOKIE_DOMAIN" ".vos.local")) as Hd.
  { unfold ApiConfig.getCookieOptions, ApiConfig.COOKIE_DOMAIN, ApiConfig.isDevelopment,
      envOr.
    case_bool_decide as Hp; simpl.
    - case_bool_decide; simpl; by destruct (env !! "COOKIE_DOMAIN") as [[|]|].
    - by destruct (env !! "COOKIE_DOMAIN") as [[|]|]. }
  split_and!.
  - unfold ApiConfig.getCookieOptions.
    destruct (ApiConfig.isDevelopment env); [done|]. cbn zeta. by destruct (bool_decide (env !! "API_IS_HTTPS" = Some "false")).
  - unfold ApiConfig.getCookieOptions.
    destruct (ApiConfig.isDevelopment env); [done|]. cbn zeta. by destruct (bool_decide (env !! "API_IS_HTTPS" = Some "false")).
  - unfold ApiConfig.getCookieOptions.
    destruct (ApiConfig.isDevelopment env); [by left|]. cbn zeta. destruct (bool_decide (env !! "API_IS_HTTPS" = Some "false")); simpl; auto.
  - clear Hd. unfold ApiConfig.getCookieOptions, ApiConfig.isDevelopment.
    case_bool_decide as Hp; simpl.
    + case_bool_decide as Hh; simpl; by intuition.
    + split; [done|]. by intros [? _].
  - done.
  - rewrite Hd. case_bool_decide; by apply envOr_nonempty.
Qed.

(** ** The origins that the server admits *)

(** X27.  The CORS check of the serverless server admits every origin,
    whatever [CORS_ORIGIN] lists.  The check of the server with orders
    admits a request without origin, an origin that contains one of the
    listed strings, and every origin that contains [evogearstudio.com]
    or [vos.local] anywhere; an origin that it refuses contains none of
    them. *)
Theorem cors_admits regexTest env origin :
  Server.admitsOrigin env origin = true ∧
  Server.admitsOriginStrict regexTest env None = true ∧
  (∀ o,
     origin = Some o →
     includes o "evogearstudio.com" = true ∨ includes o "vos.local" = true ∨
     includes o "http://localhost:3000" = true ∨
     includes o "https://evogear.rtnglobal.co" = true →
     Server.admitsOriginStrict regexTest env origin = true) ∧
  (∀ o,
     origin = Some o → Server.admitsOriginStrict regexTest env origin = false →
     o ≠ "" ∧
     includes o "evogearstudio.com" = false ∧ includes o "vos.local" = false ∧
     ∀ allowed, Server.Literal allowed ∈ Server.CORS_ORIGINS env →
                o ≠ allowed ∧ includes o allowed = false).
Proof.
  split_and!.
  - unfold Server.admitsOrigin. destruct origin as [o|]; [|done].
    by destruct (negb _ || _).
  - done.
  - intros o -> H. unfold Server.admitsOriginStrict.
    destruct (negb (truthy (Some (VStr o)))); [done|]. cbn zeta.
    destruct (existsb _ (Server.CORS_ORIGINS env)) eqn:Ee; [done|].
    destruct H as [H|[H|[H|H]]].
    + rewrite H. by rewrite !orb_true_r.
    + rewrite H. by rewrite !orb_true_r.
    + exfalso. rewrite <- not_true_iff_false in Ee. apply Ee.
      apply existsb_exists. exists (Server.Literal "http://localhost:3000").
      split; [|by rewrite H, orb_true_r].
      unfold Server.CORS_ORIGINS. apply in_or_app. right. by left.
    + exfalso. rewrite <- not_true_iff_false in Ee. apply Ee.
      apply existsb_exists. exists (Server.Literal "https://evogear.rtnglobal.co").
      split; [|by rewrite H, orb_true_r].
      unfold Server.CORS_ORIGINS. apply in_or_app. right. right. by left.
  - intros o -> H. unfold Server.admitsOriginStrict in H.
    destruct (truthy (Some (VStr o))) eqn:T; simpl in H; [|done].
    destruct (existsb _ (Server.CORS_ORIGINS env)) eqn:Ee; [done|].
    destruct (includes o ".evogearstudio.com"); [done|].
    destruct (includes o "evogearstudio.com"); [done|].
    destruct (includes o ".vos.local"); [done|].
    destruct (includes o "vos.local"); [done|].
    split_and!; try done.
    + intros ->. done.
    + intros allowed Hin. rewrite <- not_true_iff_false in Ee.
      assert (String.eqb o allowed || includes o allowed = false) as Hf.
      { apply not_true_iff_false. intros Ht. apply Ee.
        apply existsb_exists. exists (Server.Literal allowed).
        split; [by apply list_elem_of_In|done]. }
      apply orb_false_elim in Hf as [Hq Hi]. split; [|done].
      by apply String.eqb_neq.
Qed.

(** ** Validation of the owner's address *)

Lemma many1_spec class k s :
  Validate.many1 class k s = true ↔
  ∃ a b, s = a +:+ b ∧ a ≠ "" ∧ Validate.allChars class a = true ∧ k b = true.
Proof.
  induction s as [|c s IH]; simpl.
  - split; [done|]. intros (a & b & Hs & Ha & _). by destruct a.
  - rewrite andb_true_iff, orb_true_iff, IH. split.
    + intros [Hc [(a & b & -> & Ha & Hall & Hk)|Hk]].
      * exists (String c a), b. simpl. by rewrite Hc, Hall.
      * exists (String c ""), s. simpl. by rewrite Hc.
    + intros (a & b & Hs & Ha & Hall & Hk).
      destruct a as [|c' a]; [done|]. injection Hs as <- ->.
      simpl in Hall. apply andb_prop in Hall as [Hc Hall]. split; [done|].
      destruct a as [|c'' a]; [by right|]. left.
      by exists (String c'' a), b.
Qed.

Lemma allChars_app class a b :
  Validate.allChars class (a +:+ b)
  = Validate.allChars class a && Validate.allChars class b.
Proof. induction a as [|c a IH]; [done|]. simpl. by rewrite IH, andb_assoc. Qed.

Lemma allChars_length class s :
  Validate.allChars class s = true →
  ∀ c, includes s (String c "") = true → class c = true.
Proof.
  induction s as [|x s IH]; [done|]. simpl. intros [Hx Hs]%andb_prop c.
  rewrite includes_char_cons. intros [Hc|Hc]%orb_prop.
  - apply Ascii.eqb_eq in Hc as ->. done.
  - by apply IH.
Qed.

Lemma accept_Seq r1 r2 k s :
  Validate.accept (Validate.Seq r1 r2) k s = Validate.accept r1 (Validate.accept r2 k) s.
Proof. done. Qed.

Lemma accept_Many1 class k s :
  Validate.accept (Validate.Many1 class) k s = Validate.many1 class k s.
Proof. done. Qed.

Lemma accept_Char c k s :
  Validate.accept (Validate.Char c) k s = true ↔ ∃ rest, s = String c rest ∧ k rest = true.
Proof.
  destruct s as [|c' s]; cbn [Validate.accept].
  - split; [done|]. by intros (? & ? & ?).
  - rewrite andb_true_iff, Ascii.eqb_eq. split.
    + intros [-> Hk]. by exists s.
    + intros (rest & [= -> ->] & Hk). done.
Qed.

Lemma append_empty (s : string) : s +:+ "" = s.
Proof.
  induction s as [|c s IH]; [done|].
  change (String c (s +:+ "") = String c s). by rewrite IH.
Qed.

(** X28.  The [validateUserEmail] middleware lets a request through
    exactly when the address has the form [local@domain.tld], where
    each of the three parts is a non-empty string without white space
    and without [@] (the domain and the tld may contain dots).  So an
    accepted address contains no white space, and a string without [@]
    or without a dot is answered 400: "User email is required" when it
    is empty, "Invalid email format" otherwise. *)
Theorem validateUserEmail_shape {A} userEmail (next : response A) :
  (Validate.test Validate.emailRegex userEmail = true ↔
   ∃ local domain tld,
     userEmail = local +:+ "@" +:+ domain +:+ "." +:+ tld ∧
     Validate.plain local ∧ Validate.plain domain ∧ Validate.plain tld) ∧
  (Validate.test Validate.emailRegex userEmail = true →
   Validate.validateUserEmail userEmail next = next) ∧
  (Validate.test Validate.emailRegex userEmail = true →
   includes userEmail " " = false ∧ includes userEmail "@" = true ∧
   includes userEmail "." = true) ∧
  (Validate.test Validate.emailRegex userEmail = false →
   Validate.validateUserEmail userEmail next
   = Resp 400 (Failure (if String.eqb userEmail "" then "User email is required"
                        else "Invalid email format"))).
Proof.
  assert (Validate.test Validate.emailRegex userEmail = true ↔
          ∃ local domain tld,
            userEmail = local +:+ "@" +:+ domain +:+ "." +:+ tld ∧
            Validate.plain local ∧ Validate.plain domain ∧ Validate.plain tld) as Hshape.
  { unfold Validate.test, Validate.emailRegex, Validate.plain.
    rewrite accept_Seq, accept_Many1, many1_spec.
    split.
    - intros (local & rest & -> & Hl & Hla & Hk).
      rewrite accept_Seq in Hk. apply accept_Char in Hk as (rest' & -> & Hk).
      rewrite accept_Seq, accept_Many1 in Hk.
      apply many1_spec in Hk as (domain & rest & -> & Hd & Hda & Hk).
      rewrite accept_Seq in Hk. apply accept_Char in Hk as (rest' & -> & Hk).
      rewrite accept_Many1 in Hk.
      apply many1_spec in Hk as (tld & rest & -> & Ht & Hta & Hk).
      apply String.eqb_eq in Hk as ->.
      exists local, domain, tld. rewrite append_empty. by split_and!.
    - intros (local & domain & tld & -> & [Hl Hla] & [Hd Hda] & [Ht Hta]).
      exists local, ("@" +:+ domain +:+ "." +:+ tld). split_and!; try done.
      rewrite accept_Seq. apply accept_Char. eexists. split; [reflexivity|].
      rewrite accept_Seq, accept_Many1. apply many1_spec.
      exists domain, ("." +:+ tld). split_and!; try done.
      rewrite accept_Seq. apply accept_Char. eexists. split; [reflexivity|].
      rewrite accept_Many1. apply many1_spec. exists tld, "". split_and!; try done.
      by rewrite append_empty. }
  split_and!.
  - done.
  - intros Ht. unfold Validate.validateUserEmail. rewrite Ht.
    apply Hshape in Ht as (local & domain & tld & -> & [Hl _] & _).
    assert (truthy (Some (VStr (local +:+ "@" +:+ domain +:+ "." +:+ tld))) = true) as ->
      by by destruct local.
    done.
  - intros Ht. apply Hshape in Ht
      as (local & domain & tld & -> & [Hl Hla] & [Hd Hda] & [Hd' Hta]).
    split_and!.
    + apply not_true_iff_false. intros Hsp.
      assert (Validate.allChars Validate.notSpaceAt
                (local +:+ "@" +:+ domain +:+ "." +:+ tld) = true →
              False) as Hno.
      { intros Hall. by apply (allChars_length _ _ Hall " "%char) in Hsp. }
      rewrite !includes_char_app in Hsp.
      apply orb_prop in Hsp as [Hsp|Hsp];
        [by apply (allChars_length _ _ Hla " "%char) in Hsp|].
      apply orb_prop in Hsp as [Hsp|Hsp]; [done|].
      apply orb_prop in Hsp as [Hsp|Hsp];
        [by apply (allChars_length _ _ Hda " "%char) in Hsp|].
      apply orb_prop in Hsp as [Hsp|Hsp]; [done|].
      by apply (allChars_length _ _ Hta " "%char) in Hsp.
    + rewrite !includes_char_app. by rewrite orb_true_r.
    + rewrite !includes_char_app. by rewrite !orb_true_r.
  - intros Ht. unfold Validate.validateUserEmail. rewrite Ht.
    destruct userEmail; done.
Qed.
(** ** The summary after a change of the cart *)

Section SummaryChanges.

Import Cart.

Variable convertString : value → option string.
Variable convertNumber : value → option Q.
Variable newSpecs : option value → result value.
Variable newConfiguration : option value → result (option value).
Variable setSpecs : value → result value.
Variable setConfiguration : value → result value.

#[local] Abbreviation removeItem := (removeItem convertString).
#[local] Abbreviation addOrUpdateItem :=
  (addOrUpdateItem convertString convertNumber newSpecs newConfiguration
     setSpecs setConfiguration).

Lemma sumZ_cons (x : Z) (l : list Z) : sumZ (x :: l) = (x + sumZ l)%Z.
Proof. done. Qed.

(** The summaries of two stores of which the second has one more item
    of the owner, for whole quantities and prices. *)
Lemma summary_with (quantity price : CartItem → Z) (userEmail : string)
    (s s' : store) (d : CartItem) :
  filter (λ x, ci_userEmail x = userEmail) s'
  ≡ₚ d :: filter (λ x, ci_userEmail x = userEmail) s →
  (∀ x, x ∈ s' → ci_userEmail x = userEmail →
        ci_quantity x = inject_Z (quantity x) ∧ ci_price x = inject_Z (price x) ∧
        (0 ≤ quantity x)%Z ∧ (0 ≤ price x)%Z) →
  (sumZ (quantity <$> filter (λ x, ci_userEmail x = userEmail) s') ≤ 2 ^ 53)%Z →
  (sumZ ((λ x, price x * quantity x)%Z <$> filter (λ x, ci_userEmail x = userEmail) s')
   ≤ 2 ^ 53)%Z →
  ∃ before after count total,
    getCartSummary userEmail s = Resp 200 (Success "" before) ∧
    getCartSummary userEmail s' = Resp 200 (Success "" after) ∧
    itemCount before = Finite (inject_Z count) ∧
    totalPrice before = Finite (inject_Z total) ∧
    itemCount after = Finite (inject_Z (count + quantity d)) ∧
    totalPrice after = Finite (inject_Z (total + price d * quantity d)).
Proof.
  intros Hp Hwhole Hcount Htotal.
  assert (∀ x, x ∈ filter (λ x, ci_userEmail x = userEmail) s' →
               (0 ≤ quantity x)%Z ∧ (0 ≤ price x)%Z) as Hpos.
  { intros x [Ho Hx]%list_elem_of_filter. destruct (Hwhole x Hx Ho) as (_ & _ & ? & ?).
    done. }
  assert (∀ x, x ∈ s → ci_userEmail x = userEmail → x ∈ s') as Hsub.
  { intros x Hx Ho.
    assert (x ∈ filter (λ x, ci_userEmail x = userEmail) s') as Hin.
    { rewrite Hp. right. by apply list_elem_of_filter. }
    by apply list_elem_of_filter in Hin as [_ Hin]. }
  rewrite (sumZ_Permutation _ _ (fmap_Permutation quantity _ _ Hp)) in Hcount.
  rewrite (sumZ_Permutation _ _
             (fmap_Permutation (λ x, price x * quantity x)%Z _ _ Hp)) in Htotal.
  rewrite fmap_cons, sumZ_cons in Hcount, Htotal.
  destruct (Hpos d) as [Hq0 Hp0]; [rewrite Hp; left|].
  assert (0 ≤ price d * quantity d)%Z by lia.
  eexists _, _, (sumZ (quantity <$> filter (λ x, ci_userEmail x = userEmail) s)),
    (sumZ ((λ x, price x * quantity x)%Z <$> filter (λ x, ci_userEmail x = userEmail) s)).
  split; [reflexivity|]. split; [reflexivity|].
  cbn [itemCount totalPrice].
  rewrite (reduceSummary_exact quantity price userEmail s); [|by auto|lia..].
  rewrite (reduceSummary_exact quantity price userEmail s');
    [|done
     |by rewrite (sumZ_Permutation _ _ (fmap_Permutation quantity _ _ Hp)),
           fmap_cons, sumZ_cons
     |by rewrite (sumZ_Permutation _ _
                    (fmap_Permutation (λ x, price x * quantity x)%Z _ _ Hp)),
           fmap_cons, sumZ_cons].
  cbn [fst snd].
  rewrite (sumZ_Permutation _ _ (fmap_Permutation quantity _ _ Hp)).
  rewrite (sumZ_Permutation _ _
             (fmap_Permutation (λ x, price x * quantity x)%Z _ _ Hp)).
  rewrite !fmap_cons, !sumZ_cons.
  split_and!; try done; do 2 f_equal; lia.
Qed.

(** X29.  The summary follows the cart, for carts of whole numbers:
    quantities and prices that are whole and not negative, with a total
    quantity and a total price of at most 2^53, so that the route
    computes them without rounding.  When [POST /api/cart] has created
    an item (reply 201), the summary of its owner has grown by the
    quantity of the item and by its price times its quantity; when
    [DELETE /api/cart/:id] has removed an item (reply 200), the summary
    of its owner before the removal is the summary afterwards plus the
    quantity of the item and its price times its quantity. *)
Theorem summary_follows_cart (quantity price : CartItem → Z) :
  (∀ now reqBody (s : store) m item s',
     addOrUpdateItem now reqBody s = (Resp 201 (Success m (Some item)), s') →
     (∀ x, x ∈ s' → ci_userEmail x = ci_userEmail item →
           ci_quantity x = inject_Z (quantity x) ∧ ci_price x = inject_Z (price x) ∧
           (0 ≤ quantity x)%Z ∧ (0 ≤ price x)%Z) →
     (sumZ (quantity <$> filter (λ x, ci_userEmail x = ci_userEmail item) s') ≤ 2 ^ 53)%Z →
     (sumZ ((λ x, price x * quantity x)%Z
            <$> filter (λ x, ci_userEmail x = ci_userEmail item) s') ≤ 2 ^ 53)%Z →
     ∃ before after count total,
       getCartSummary (ci_userEmail item) s = Resp 200 (Success "" before) ∧
       getCartSummary (ci_userEmail item) s' = Resp 200 (Success "" after) ∧
       itemCount before = Finite (inject_Z count) ∧
       totalPrice before = Finite (inject_Z total) ∧
       itemCount after = Finite (inject_Z (count + quantity item)) ∧
       totalPrice after = Finite (inject_Z (total + price item * quantity item))) ∧
  (∀ deleteImage id userEmail (s : store) m doc s' logged,
     removeItem deleteImage id userEmail s
     = (Resp 200 (Success m (Some doc)), s', logged) →
     (∀ x, x ∈ s → ci_userEmail x = ci_userEmail doc →
           ci_quantity x = inject_Z (quantity x) ∧ ci_price x = inject_Z (price x) ∧
           (0 ≤ quantity x)%Z ∧ (0 ≤ price x)%Z) →
     (sumZ (quantity <$> filter (λ x, ci_userEmail x = ci_userEmail doc) s) ≤ 2 ^ 53)%Z →
     (sumZ ((λ x, price x * quantity x)%Z
            <$> filter (λ x, ci_userEmail x = ci_userEmail doc) s) ≤ 2 ^ 53)%Z →
     ∃ after before count total,
       getCartSummary (ci_userEmail doc) s' = Resp 200 (Success "" after) ∧
       getCartSummary (ci_userEmail doc) s = Resp 200 (Success "" before) ∧
       itemCount after = Finite (inject_Z count) ∧
       totalPrice after = Finite (inject_Z total) ∧
       itemCount before = Finite (inject_Z (count + quantity doc)) ∧
       totalPrice before = Finite (inject_Z (total + price doc * quantity doc))).
Proof.
  split.
  - intros now reqBody s m item s' H.
    apply addOrUpdateItem_inv in H
      as [(? & _ & [=] & _)|(pd & _ & [([=] & _)|[H|H]])].
    + destruct H as (? & ? & ? & ? & ? & _ & _ & _ & _ & _ & [=] & _).
    + destruct H as (id & owner & doc & _ & _ & _ & _ & _ & [= _ <-] & ->).
      apply summary_with. rewrite filter_app, filter_cons_True by done.
      rewrite filter_nil. by rewrite <- Permutation_cons_append.
  - intros deleteImage id userEmail s m doc s' logged.
    unfold Cart.removeItem, removeFromCart.
    destruct (negb (truthy userEmail)); [done|].
    destruct (Cart.castFilter convertString userEmail) as [owner|e]; [|done].
    destruct (list_find (selects (Some id) owner) s) as [[i d]|] eqn:Ef; [|done].
    intros [= _ <- <- _].
    apply list_find_Some in Ef as (Hi & _).
    apply summary_with.
    rewrite (delete_Permutation s i d Hi) at 1.
    by rewrite filter_cons_True.
Qed.

End SummaryChanges.

(** ** Sanitizing again *)

(** X30.  Sanitizing is idempotent on request bodies.  For a parsed JSON
    body whose configuration has no array as image settings, a payload
    that the sanitizer accepts (as a full or as a partial payload) is
    accepted again, in both modes, and comes out unchanged; and what the
    full check accepts, the partial check accepts with the same result. *)
Theorem sanitizeCartPayload_idempotent payload partial sanitized :
  json (VObj payload) →
  (∀ c l, payload !! "configuration" = Some (VObj c) →
          c !! "imageSettings" ≠ Some (VArr l)) →
  sanitizeCartPayload payload partial = Ok sanitized →
  sanitizeCartPayload sanitized partial = Ok sanitized ∧
  sanitizeCartPayload sanitized true = Ok sanitized ∧
  sanitizeCartPayload payload true = Ok sanitized.
Proof.
  intros Hjson Harr H.
  pose proof (clonePayload_json payload Hjson) as Hclone.
  assert (sanitized = stripEmbedded (reduceImageSettings payload)) as Hs.
  { destruct partial.
    - apply sanitize_partial_Ok in H. by rewrite Hclone in H.
    - apply sanitize_full_Ok in H as (_ & _ & _ & H). by rewrite Hclone in H. }
  assert (clonePayload sanitized = sanitized) as Hclone'.
  { apply clonePayload_json. rewrite Hs. by apply sanitized_json. }
  assert (∀ f, f ∈ Cart.imageFields → sanitized !! f = payload !! f) as Hsame.
  { intros f Hf. rewrite Hs. apply reduce_strip_other.
    unfold Cart.imageFields in Hf. rewrite !elem_of_cons, elem_of_nil in Hf.
    intros ->. by destruct Hf as [?|[?|[?|[]]]]. }
  assert (stripEmbedded (reduceImageSettings sanitized) = sanitized) as Hagain.
  { rewrite Hs. apply sanitized_again. }
  assert (∀ f, f ∈ Cart.imageFields →
               truthy (payload !! f) = true → Cart.hosted (payload !! f)) as Hpartial.
  { intros f Hf. rewrite <- Hclone. destruct partial.
    - by apply (sanitize_partial_hosted payload sanitized).
    - apply sanitize_full_Ok in H as (H1 & H2 & H3 & _). intros _.
      unfold Cart.imageFields in Hf. rewrite !elem_of_cons, elem_of_nil in Hf.
      by destruct Hf as [->|[->|[->|[]]]]. }
  assert (sanitizeCartPayload sanitized true = Ok sanitized) as Htrue.
  { rewrite sanitize_partial_intro; [by rewrite Hclone', Hagain|].
    intros f Hf. rewrite Hclone', (Hsame f Hf). by apply Hpartial. }
  split_and!.
  - destruct partial; [done|].
    apply sanitize_full_Ok in H as (H1 & H2 & H3 & _). rewrite Hclone in H1, H2, H3.
    rewrite sanitize_full_intro; [by rewrite Hclone', Hagain|..];
      rewrite Hclone', Hsame; (done || set_solver).
  - done.
  - rewrite sanitize_partial_intro; [by rewrite Hclone, Hs|].
    intros f Hf. rewrite Hclone. by apply Hpartial.
Qed.

(** ** The further properties at the samples *)

Example put_inline :
  Cart.updateItem refuse refuse keepObject keepObject 2 "a1" inlinePut oneItem
  = (Resp 400 (Failure "finalImage must be uploaded before saving"), oneItem).
Proof. vm_compute. reflexivity. Qed.

Example put_quantity :
  Cart.updateItem refuse refuse keepObject keepObject 2 "a1" quantityPut oneItem
  = (Resp 200 (Success "Cart item updated successfully" (Some updatedItem)), [updatedItem]).
Proof. vm_compute. reflexivity. Qed.

Example delete_other_owner :
  Cart.removeItem refuse (λ _, Ok true) "a1" (Some (VStr "bob@example.com")) oneItem
  = (Resp 404 (Failure "Cart item not found"), oneItem, []).
Proof. vm_compute. reflexivity. Qed.

Example serve_false_image :
  Cart.serveAll booleanString refuse keepSpecs keepConfiguration keepObject keepObject
    (λ _, Ok true)
    [Cart.CallPost 1 hostedBody; Cart.CallPut 2 "a1" falsePut] []
  = [falseItem].
Proof. vm_compute. reflexivity. Qed.

Example repeated_checkout :
  Checkout.createOrder refuse refuse objectIdOfString acceptAll false
    5 "64b7f0c2a1b2c3d4e5f6aaaa" "u1" repeatedBody [cartItem1] []
  = (Resp 400 (Failure "Some cart items do not belong to you or do not exist"), []).
Proof. vm_compute. reflexivity. Qed.

Example sample_payment :
  Checkout.updatePaymentStatus refuse objectIdOfString acceptAll false
    (λ _, Throw "mail down") 9 "u1" "64b7f0c2a1b2c3d4e5f6aaaa" paymentBody [placedOrder]
  = (Resp 200 (Success "Order payment status updated successfully" paidOrder),
     [paidOrder], ["Failed to send order confirmation email: mail down"]).
Proof. vm_compute. reflexivity. Qed.

Lemma hostedBody_reduced :
  sanitizeCartPayload hostedBody false
  = Ok (stripEmbedded (reduceImageSettings (clonePayload hostedBody))).
Proof.
  apply sanitize_full_intro; apply hosted_sample; vm_compute; reflexivity.
Qed.

(** The sample bodies have only data paths of the schema as keys, and
    none of them is [null]. *)
Lemma noNull_list_to_map (l : list (string * value)) :
  Forall (λ kv, kv.2 ≠ VNull) l → ∀ k, (list_to_map l : obj) !! k ≠ Some VNull.
Proof.
  intros Hl k Hk. apply elem_of_list_to_map_2 in Hk.
  rewrite Forall_forall in Hl. by apply (Hl (k, VNull)).
Qed.

Lemma hostedBody_noNull k : hostedBody !! k ≠ Some VNull.
Proof.
  apply noNull_list_to_map. unfold cartFields.
  repeat (apply Forall_cons; split; [discriminate|]). apply Forall_nil_2.
Qed.

Lemma quantityPut_paths : Cart.onlyDataPaths quantityPut.
Proof.
  apply onlyDataPaths_list_to_map. unfold Cart.dataPaths.
  repeat (apply Forall_cons; split; [simpl; set_solver|]). apply Forall_nil_2.
Qed.

Lemma quantityPut_noNull k : quantityPut !! k ≠ Some VNull.
Proof.
  apply noNull_list_to_map.
  repeat (apply Forall_cons; split; [discriminate|]). apply Forall_nil_2.
Qed.

Lemma falsePut_paths : Cart.onlyDataPaths falsePut.
Proof.
  apply onlyDataPaths_list_to_map. unfold Cart.dataPaths.
  repeat (apply Forall_cons; split; [simpl; set_solver|]). apply Forall_nil_2.
Qed.

Lemma falsePut_noNull k : falsePut !! k ≠ Some VNull.
Proof.
  apply noNull_list_to_map.
  repeat (apply Forall_cons; split; [discriminate|]). apply Forall_nil_2.
Qed.

(** An update with inline data is refused and stores nothing. *)
Lemma updateItem_refusals_witness :
  ∃ r, Cart.updateItem refuse refuse keepObject keepObject 2 "a1" inlinePut oneItem = (r, oneItem) ∧
       status r = 400%nat.
Proof.
  destruct (updateItem_refusals refuse refuse keepObject keepObject 2 "a1" inlinePut oneItem
              (Resp 400 (Failure "finalImage must be uploaded before saving")) oneItem
              put_inline)
    as (_ & _ & H & _).
  eexists. split; [exact put_inline|].
  apply (H "finalImage" inlineData).
  - right. left.
  - vm_compute. reflexivity.
  - reflexivity.
Defined.

(** The update of the quantity rewrites the first item. *)
Lemma updateItem_one_document_witness :
  ∃ owner i old item,
    oneItem !! i = Some old ∧ Cart.ci_userEmail item = owner ∧
    Cart.ci_createdAt item = Cart.ci_createdAt old ∧ Cart.ci_updatedAt item = 2%nat.
Proof.
  destruct (updateItem_one_document refuse refuse keepObject keepObject
              2 "a1" quantityPut oneItem
              (Resp 200 (Success "Cart item updated successfully" (Some updatedItem)))
              [updatedItem] quantityPut_paths quantityPut_noNull put_quantity eq_refl)
    as (owner & i & old & item & _ & Hi & _ & _ & _ & _ & _ & _ & Ho & Hc & Hu & _).
  exists owner, i, old, item. split_and!; [exact Hi|exact Ho|exact Hc|exact Hu].
Defined.

(** The update of the quantity keeps the name and the image. *)
Lemma updateItem_keeps_absent_paths_witness :
  ∃ i old,
    oneItem !! i = Some old ∧
    Cart.ci_name updatedItem = Cart.ci_name old ∧
    Cart.ci_image updatedItem = Cart.ci_image old.
Proof.
  destruct (updateItem_keeps_absent_paths refuse refuse keepObject keepObject
              2 "a1" quantityPut oneItem
              "Cart item updated successfully" updatedItem [updatedItem]
              quantityPut_paths quantityPut_noNull put_quantity)
    as (i & old & Hi & _ & _ & Hn & _ & _ & _ & Him & _).
  exists i, old. split_and!; [exact Hi|apply Hn|apply Him]; vm_compute; reflexivity.
Defined.

(** A quantity of zero is stored. *)
Lemma updateItem_stores_any_quantity_witness :
  ∃ item s',
    Cart.updateItem refuse refuse keepObject keepObject 2 "a1"
      (<["userEmail" := VStr "ann@example.com"]> {["quantity" := VNum 0]}) oneItem
    = (Resp 200 (Success "Cart item updated successfully" (Some item)), s') ∧
    Cart.ci_quantity item = 0%Q.
Proof.
  destruct (updateItem_stores_any_quantity refuse refuse keepObject keepObject
              2 "a1" "ann@example.com" 0%Q oneItem firstItem)
    as (item & s' & H & _ & _ & _ & Hq).
  - apply NoDup_singleton.
  - left.
  - reflexivity.
  - reflexivity.
  - discriminate.
  - exists item, s'. split; [exact H|exact Hq].
Defined.

(** The first item is created with a quantity of at least one. *)
Lemma created_item_valid_witness :
  ∃ item, oneItem = [] ++ [item] ∧ (1 <= Cart.ci_quantity item)%Q.
Proof.
  destruct (created_item_valid refuse refuse keepSpecs keepConfiguration
              keepObject keepObject 1 hostedBody []
              (Resp 201 (Success "Item added to cart successfully" (Some firstItem)))
              oneItem hostedBody_paths hostedBody_noNull first_post eq_refl)
    as (item & _ & Hs & _ & _ & _ & Hq & _).
  exists item. split; [exact Hs|exact Hq].
Defined.

(** Another owner cannot remove the first item. *)
Lemma removeItem_refusals_witness :
  Cart.removeItem refuse (λ _, Ok true) "a1" (Some (VStr "bob@example.com")) oneItem
  = (Resp 404 (Failure "Cart item not found"), oneItem, []) ∧
  (Resp 404 (Failure "Cart item not found") : response (option Cart.CartItem))
  = Resp 404 (Failure "Cart item not found").
Proof.
  destruct (removeItem_refusals refuse (λ _, Ok true) "a1" (Some (VStr "bob@example.com"))
              oneItem (Resp 404 (Failure "Cart item not found")) oneItem []
              delete_other_owner)
    as (_ & _ & H).
  split; [exact delete_other_owner|].
  destruct (H "bob@example.com") as (Hr & _); [reflexivity|discriminate| |exact Hr].
  intros d Hd%list_elem_of_singleton _. rewrite Hd. discriminate.
Defined.

(** An image sent as [false] is stored as the string [false], which is
    no inline data. *)
Lemma serveAll_no_inline_images_witness : Cart.noInlineImage falseItem.
Proof.
  apply (serveAll_no_inline_images booleanString refuse keepSpecs keepConfiguration
           keepObject keepObject) with
    (deleteImage := λ _, Ok true)
    (calls := [Cart.CallPost 1 hostedBody; Cart.CallPut 2 "a1" falsePut]).
  - intros v s H. destruct v as [|[|]| | | | |]; try discriminate;
      injection H as <-; reflexivity.
  - intros now reqBody Hin.
    apply elem_of_cons in Hin as [Hin|Hin];
      [injection Hin as _ ->; split; [exact hostedBody_paths|exact hostedBody_noNull]|].
    apply elem_of_cons in Hin as [Hin|Hin]; [discriminate|].
    by apply elem_of_nil in Hin.
  - intros now id reqBody Hin.
    apply elem_of_cons in Hin as [Hin|Hin]; [discriminate|].
    apply elem_of_cons in Hin as [Hin|Hin];
      [injection Hin as _ _ ->; split; [exact falsePut_paths|exact falsePut_noNull]|].
    by apply elem_of_nil in Hin.
  - rewrite serve_false_image. left.
Defined.

(** The orders of user [u1]. *)
Lemma listOrders_owner_newest_first_witness :
  ∃ found,
    Checkout.listOrders refuse false userRequest ∅ ∅ [placedOrder]
    = Resp 200 (Success "" found) ∧
    (∀ o, o ∈ found ↔ o ∈ [placedOrder] ∧ Checkout.o_userId o = "u1").
Proof.
  destruct (listOrders_owner_newest_first refuse false userRequest ∅ ∅ [placedOrder] "u1")
    as [(found & H & _ & Hin & _) _].
  - vm_compute. reflexivity.
  - discriminate.
  - exists found. split; [exact H|exact Hin].
Defined.

(** The sample order starts pending. *)
Lemma createOrder_starts_pending_witness :
  ∃ order,
    [placedOrder] = [] ++ [order] ∧
    Checkout.o_status order = "pending" ∧ Checkout.o_paymentStatus order = "pending".
Proof.
  destruct (createOrder_starts_pending refuse refuse objectIdOfString acceptAll false
              5 "64b7f0c2a1b2c3d4e5f6aaaa" "u1" checkoutBody [cartItem1] []
              (Resp 201 (Success "Order created successfully" placedOrder)) [placedOrder]
              sample_checkout eq_refl)
    as (order & _ & Hs & _ & _ & _ & H1 & H2 & _).
  exists order. split_and!; [exact Hs|exact H1|exact H2].
Defined.

(** The sample order is listed for its user. *)
Lemma createOrder_then_listed_witness :
  ∃ before after,
    Checkout.getUserOrders refuse (VStr "u1") [] = Ok before ∧
    Checkout.getUserOrders refuse (VStr "u1") [placedOrder] = Ok after ∧
    after ≡ₚ placedOrder :: before.
Proof.
  exact (proj1 (createOrder_then_listed refuse refuse objectIdOfString acceptAll false
                  5 "64b7f0c2a1b2c3d4e5f6aaaa" "u1" checkoutBody [cartItem1] []
                  "Order created successfully" placedOrder [placedOrder] sample_checkout)).
Defined.

(** The checkout that names the cart item twice creates no order. *)
Lemma createOrder_rejects_repeated_item_witness :
  Checkout.createOrder refuse refuse objectIdOfString acceptAll false
    5 "64b7f0c2a1b2c3d4e5f6aaaa" "u1" repeatedBody [cartItem1] []
  = (Resp 400 (Failure "Some cart items do not belong to you or do not exist"), []) ∧
  ([] : list Checkout.Order) = [].
Proof.
  split; [exact repeated_checkout|].
  apply (createOrder_rejects_repeated_item refuse refuse objectIdOfString acceptAll false
           5 "64b7f0c2a1b2c3d4e5f6aaaa" "u1" repeatedBody [cartItem1] []
           [orderLine; orderLine] 0 1 orderLine orderLine
           (Resp 400 (Failure "Some cart items do not belong to you or do not exist")) []).
  - apply NoDup_singleton.
  - vm_compute. reflexivity.
  - discriminate.
  - reflexivity.
  - reflexivity.
  - reflexivity.
  - exact repeated_checkout.
Defined.

(** The sample payment keeps the total of the order. *)
Lemma updatePaymentStatus_keeps_order_witness :
  ∃ i order,
    [placedOrder] !! i = Some order ∧
    Checkout.o_total paidOrder = Checkout.o_total order ∧
    Checkout.o_updatedAt paidOrder = 9%nat.
Proof.
  destruct (updatePaymentStatus_keeps_order refuse objectIdOfString acceptAll false
              (λ _, Throw "mail down") 9 "u1" "64b7f0c2a1b2c3d4e5f6aaaa" paymentBody
              [placedOrder] "Order payment status updated successfully" paidOrder
              [paidOrder] ["Failed to send order confirmation email: mail down"]
              sample_payment)
    as (i & order & Hi & _ & _ & _ & _ & _ & _ & _ & _ & _ & Ht & _ & _ & _ & Hu & _).
  exists i, order. split_and!; [exact Hi|exact Ht|exact Hu].
Defined.

Lemma hostedPrefix_plain p :
  p ∈ hostedPrefix → includes p "/" = false ∧ p ≠ "upload".
Proof.
  unfold hostedPrefix. rewrite !elem_of_cons, elem_of_nil.
  intros [->|[->|[->|[->|[->|[]]]]]]; split; (reflexivity || discriminate).
Qed.

(** The public id of the sample URL. *)
Lemma deleteImage_public_id_witness :
  publicIdOf hostedUrl = Ok (Some "v1/mousepad/final/a1") ∧
  deleteImage (λ _, Ok "ok") hostedUrl = true.
Proof.
  destruct (deleteImage_public_id (λ _, Ok "ok") hostedPrefix ["v1"; "mousepad"; "final"]
              "a1" "jpg")
    as [H1 H2].
  - exact hostedPrefix_plain.
  - intros p. rewrite !elem_of_cons, elem_of_nil.
    intros [->|[->|[->|[]]]]; reflexivity.
  - reflexivity.
  - reflexivity.
  - reflexivity.
  - vm_compute. reflexivity.
  - split; [exact H1|exact H2].
Defined.

(** Both versions of [deleteImage] destroy [mousepad/a1]. *)
Lemma legacyDeleteImage_agrees_witness :
  legacyPublicIdOf "https://res.cloudinary.com/demo/image/upload/mousepad/a1.jpg"
  = "mousepad/a1" ∧
  publicIdOf "https://res.cloudinary.com/demo/image/upload/mousepad/a1.jpg"
  = Ok (Some "mousepad/a1").
Proof.
  destruct (legacyDeleteImage_agrees (λ _, Ok "ok") hostedPrefix "mousepad" "a1" "jpg")
    as (H1 & H2 & _).
  - exact hostedPrefix_plain.
  - reflexivity.
  - reflexivity.
  - reflexivity.
  - reflexivity.
  - split; [exact H1|exact H2].
Defined.

(** An inline image is uploaded once. *)
Lemma processImage_settles_witness :
  ∃ processed,
    Uploads.processImage uploadOk (VStr inlineData) mainImage = Ok processed ∧
    Uploads.processImage uploadOk processed mainImage = Ok processed.
Proof.
  destruct (processImage_settles uploadOk (VStr inlineData) mainImage)
    as (processed & H1 & _ & _ & H2).
  - intros file folder transformation url H. injection H as <-. reflexivity.
  - exists processed. split; [exact H1|exact H2].
Defined.

(** The sample payload is accepted again as it comes out. *)
Lemma sanitizeCartPayload_idempotent_witness :
  sanitizeCartPayload (stripEmbedded (reduceImageSettings (clonePayload hostedBody))) true
  = Ok (stripEmbedded (reduceImageSettings (clonePayload hostedBody))).
Proof.
  destruct (sanitizeCartPayload_idempotent hostedBody false
              (stripEmbedded (reduceImageSettings (clonePayload hostedBody)))
              hostedBody_json)
    as (_ & H & _).
  - intros c l Hc. vm_compute in Hc. discriminate.
  - exact hostedBody_reduced.
  - exact H.
Defined.

(** ** The reading routes and the helpers at the samples *)

Example placed_found :
  Checkout.getOrderById objectIdOfString "64b7f0c2a1b2c3d4e5f6aaaa" [placedOrder]
  = Ok (Some (0%nat, placedOrder)).
Proof. vm_compute. reflexivity. Qed.

(** The order is shown to its user and refused to another one. *)
Lemma getOrder_owner_only_witness :
  Checkout.getOrder objectIdOfString false userRequest ∅ ∅
    "64b7f0c2a1b2c3d4e5f6aaaa" [placedOrder]
  = Resp 200 (Success "" placedOrder) ∧
  Checkout.getOrder objectIdOfString false otherRequest ∅ ∅
    "64b7f0c2a1b2c3d4e5f6aaaa" [placedOrder]
  = Resp 403 (Failure "Not authorized to access this order").
Proof.
  split.
  - destruct (getOrder_owner_only objectIdOfString false userRequest ∅ ∅
                "64b7f0c2a1b2c3d4e5f6aaaa" [placedOrder]) as (_ & _ & H & _).
    destruct (H 0%nat placedOrder (VStr "u1") placed_found eq_refl eq_refl) as [H1 _].
    apply H1. reflexivity.
  - destruct (getOrder_owner_only objectIdOfString false otherRequest ∅ ∅
                "64b7f0c2a1b2c3d4e5f6aaaa" [placedOrder]) as (_ & _ & H & _).
    destruct (H 0%nat placedOrder (VStr "u2") placed_found eq_refl eq_refl) as [_ H2].
    apply H2. discriminate.
Defined.

(** The administration endpoint shows the order that the reading route
    refuses to another user. *)
Lemma getOrderAdmin_any_order_witness :
  Checkout.getOrderAdmin objectIdOfString false "64b7f0c2a1b2c3d4e5f6aaaa" [placedOrder]
  = Resp 200 (Success "" placedOrder) ∧
  Checkout.getOrder objectIdOfString false otherRequest ∅ ∅
    "64b7f0c2a1b2c3d4e5f6aaaa" [placedOrder]
  = Resp 403 (Failure "Not authorized to access this order").
Proof.
  destruct (getOrderAdmin_any_order objectIdOfString false
              "64b7f0c2a1b2c3d4e5f6aaaa" [placedOrder]) as (_ & H & _).
  destruct (H 0%nat placedOrder placed_found) as [H1 H2].
  split; [exact H1|].
  apply (H2 otherRequest ∅ ∅ (VStr "u2")); [reflexivity|reflexivity|discriminate].
Defined.

(** Another user cannot record a payment on the order. *)
Lemma updatePaymentStatus_owner_only_witness :
  Checkout.updatePaymentStatus refuse objectIdOfString acceptAll false
    (λ _, Throw "mail down") 9 "u2" "64b7f0c2a1b2c3d4e5f6aaaa" paymentBody [placedOrder]
  = (Resp 403 (Failure "Not authorized to update this order"), [placedOrder], []).
Proof.
  destruct (updatePaymentStatus_owner_only refuse objectIdOfString acceptAll false
              (λ _, Throw "mail down") 9 "u2" "64b7f0c2a1b2c3d4e5f6aaaa"
              paymentBody [placedOrder]) as (H & _).
  apply (H 0%nat placedOrder eq_refl placed_found). discriminate.
Defined.

(** A hosted URL without the [upload] part is not deleted. *)
Lemma deleteImage_edge_cases_witness :
  deleteImage (λ _, Ok "ok") strayUrl = false ∧ deleteImage (λ _, Ok "ok") "" = true.
Proof.
  destruct (deleteImage_edge_cases (λ _, Ok "ok") strayUrl) as (_ & H & _).
  destruct (deleteImage_edge_cases (λ _, Ok "ok") "") as (H0 & _).
  split.
  - apply H; [reflexivity|].
    intros part Hp. vm_compute in Hp.
    repeat (apply elem_of_cons in Hp as [->|Hp]; [discriminate|]).
    by apply elem_of_nil in Hp.
  - apply H0. by left.
Defined.

(** The format of the inline sample. *)
Lemma getImageFormat_round_trip_witness :
  Converter.getImageFormat inlineData = "png" ∧ Converter.needsConversion inlineData = true.
Proof.
  destruct (getImageFormat_round_trip inlineData) as (H & _ & Hn).
  split.
  - apply (H "png" "AAAA"); [discriminate|reflexivity|reflexivity].
  - destruct (Converter.needsConversion inlineData) eqn:E; [reflexivity|].
    destruct (proj1 Hn eq_refl) as (format & payload & Hf & Heq).
    unfold inlineData in Heq.
    repeat (apply elem_of_cons in Hf as [->|Hf]; [simpl in Heq; discriminate|]).
    by apply elem_of_nil in Hf.
Defined.

(** Without configuration no mail is sent. *)
Lemma mail_needs_configuration_witness :
  Checkout.sendOrderConfirmationEmail (Checkout.emailConfigOf ∅) (Throw "no file")
    (λ _ _, Throw "not composed") (λ _, Throw "not sent") (Some placedOrder)
  = Ok {| Checkout.success := false; Checkout.messageId := None;
          Checkout.message := Some "Email API key not configured";
          Checkout.error := None |}.
Proof.
  destruct (mail_needs_configuration ∅ (Throw "no file")
              (λ _ _, Throw "not composed") (λ _, Throw "not sent") (Some placedOrder))
    as (_ & H & _).
  apply H; [discriminate|by left].
Defined.

(** The permissive set-up admits an origin that the strict one refuses. *)
Lemma cors_admits_witness :
  Server.admitsOrigin ∅ (Some "https://evil.example") = true ∧
  Server.admitsOriginStrict matchNothing ∅ (Some "https://app.vos.local") = true ∧
  includes "https://evil.example" "vos.local" = false.
Proof.
  destruct (cors_admits matchNothing ∅ (Some "https://evil.example")) as (H1 & _ & _ & H4).
  destruct (cors_admits matchNothing ∅ (Some "https://app.vos.local")) as (_ & _ & H3 & _).
  split_and!.
  - exact H1.
  - apply (H3 "https://app.vos.local"); [reflexivity|]. right. left. reflexivity.
  - destruct (H4 "https://evil.example") as (_ & _ & H & _); [reflexivity| |exact H].
    vm_compute. reflexivity.
Defined.

(** The sample address passes; an address without a dot does not. *)
Lemma validateUserEmail_shape_witness :
  Validate.validateUserEmail "ann@example.com" (Resp 200 (Success "" tt))
  = Resp 200 (Success "" tt) ∧
  Validate.validateUserEmail "ann@example" (Resp 200 (Success "" tt))
  = Resp 400 (Failure "Invalid email format").
Proof.
  split.
  - destruct (validateUserEmail_shape "ann@example.com" (Resp 200 (Success "" tt)))
      as (Hs & Hn & _).
    apply Hn, Hs. exists "ann", "example", "com".
    split_and!; [reflexivity|split; [discriminate|reflexivity]..].
  - destruct (validateUserEmail_shape "ann@example" (Resp 200 (Success "" tt)))
      as (_ & _ & _ & Hf).
    apply Hf. vm_compute. reflexivity.
Defined.

(** The summary after the first submission counts its two pieces at 10
    each. *)
Lemma summary_follows_cart_witness :
  ∃ before after count total,
    Cart.getCartSummary "ann@example.com" [] = Resp 200 (Success "" before) ∧
    Cart.getCartSummary "ann@example.com" oneItem = Resp 200 (Success "" after) ∧
    Cart.itemCount before = Finite (inject_Z count) ∧
    Cart.totalPrice before = Finite (inject_Z total) ∧
    Cart.itemCount after = Finite (inject_Z (count + 2)) ∧
    Cart.totalPrice after = Finite (inject_Z (total + 10 * 2)).
Proof.
  destruct (summary_follows_cart refuse refuse keepSpecs keepConfiguration
              keepObject keepObject (λ _, 2%Z) (λ _, 10%Z)) as [H _].
  apply (H 1%nat hostedBody [] "Item added to cart successfully" firstItem oneItem
           first_post).
  - intros x Hx _. apply list_elem_of_singleton in Hx. rewrite Hx.
    split_and!; [reflexivity|reflexivity|lia|lia].
  - vm_compute. discriminate.
  - vm_compute. discriminate.
Defined.
